(** * NotesBrainGem: the session orchestration core

    A shallow embedding of [src/services/state-service.ts] (class
    [StateService]) and [src/utils/system-instruction-builder.ts]
    ([generateCompositeSystemInstruction]), with the properties the
    specification states about them.

    Conventions of the embedding.
    - A JavaScript string is a [string]: the bytes of its UTF-8 encoding
      (strings are taken to be well-formed UTF-16, so the two agree on
      concatenation, on equality and on searching for ASCII delimiters).
    - An exception is a value [Throw e] of the type [res]; [try]/[catch]
      is a [match] on it.
    - The service object is a record [Service.t]; a method is a function
      in the state-and-exception monad [M].  An [await]ed call of a
      collaborator is an entry of [Service.trace] and its answer is an
      argument of the method.  Methods run from start to end without
      interleaving; the listeners called by [notify] only observe.
    - The calls of [client.live.connect], of the microphone and of the
      storage of the search history are logged apart, in [Runtime.t], by
      the methods of the monad [M'].  [handleFormSubmit] is the one of
      [src/components/chat-panel.ts]. *)

From Stdlib Require Import String Ascii List Bool Arith NArith Lia DecimalString.
Import ListNotations.
Open Scope list_scope.
Open Scope string_scope.
Set Warnings "-register-all".

(** ** JavaScript values the code manipulates *)

Module JS.

(** The double quote, written apart so that no literal has to escape it. *)
Definition dq : string := String (ascii_of_nat 34) EmptyString.

(** Truthiness of a string: [if (s)]. *)
Definition nonEmpty (s : string) : bool :=
  match s with EmptyString => false | String _ _ => true end.

(** Truthiness of a [string | null]. *)
Definition truthy (o : option string) : bool :=
  match o with Some s => nonEmpty s | None => false end.

(** [a || b] on strings. *)
Definition orElse (a : option string) (b : string) : string :=
  match a with
  | Some s => if nonEmpty s then s else b
  | None => b
  end.

Definition code (c : ascii) : N := N_of_ascii c.

(** Length in bytes of the white-space character at the head of [s], [0]
    when [s] does not start with one.  The set is the one of [\s] and of
    [String.prototype.trim]: TAB, LF, VT, FF, CR, SP, U+00A0, U+1680,
    U+2000..U+200A, U+2028, U+2029, U+202F, U+205F, U+3000, U+FEFF. *)
Definition ws_len (s : string) : nat :=
  match s with
  | EmptyString => 0
  | String c r =>
    let n := code c in
    if ((9 <=? n) && (n <=? 13) || (n =? 32))%N then 1
    else match r with
      | EmptyString => 0
      | String d r' =>
        let m := code d in
        if ((n =? 194) && (m =? 160))%N then 2
        else match r' with
          | EmptyString => 0
          | String e _ =>
            let k := code e in
            if ((n =? 225) && (m =? 154) && (k =? 128))%N then 3
            else if ((n =? 226) && (m =? 128) &&
                     ((128 <=? k) && (k <=? 138) || (k =? 168) || (k =? 169)
                      || (k =? 175)))%N then 3
            else if ((n =? 226) && (m =? 129) && (k =? 159))%N then 3
            else if ((n =? 227) && (m =? 128) && (k =? 128))%N then 3
            else if ((n =? 239) && (m =? 187) && (k =? 191))%N then 3
            else 0
          end
      end
  end.

(** [dropWhite skip s] drops [skip] bytes, then every leading white-space
    character. *)
Fixpoint dropWhite (skip : nat) (s : string) {struct s} : string :=
  match s with
  | EmptyString => EmptyString
  | String _ r =>
    match skip with
    | S k => dropWhite k r
    | 0 => match ws_len s with
           | 0 => s
           | S k => dropWhite k r
           end
    end
  end.

Definition trimStart (s : string) : string := dropWhite 0 s.

Definition allWhite (s : string) : bool := negb (nonEmpty (trimStart s)).

Fixpoint trimEnd (s : string) : string :=
  match s with
  | EmptyString => EmptyString
  | String c r => if allWhite s then EmptyString else String c (trimEnd r)
  end.

(** [String.prototype.trim]. *)
Definition trim (s : string) : string := trimEnd (trimStart s).

(** [p] stripped from the front of [s]. *)
Fixpoint stripPrefix (p s : string) : option string :=
  match p with
  | EmptyString => Some s
  | String a p' =>
    match s with
    | EmptyString => None
    | String b s' => if Ascii.eqb a b then stripPrefix p' s' else None
    end
  end.

(** The longest prefix of [s] whose bytes satisfy [f], and the rest. *)
Fixpoint span (f : ascii -> bool) (s : string) : string * string :=
  match s with
  | EmptyString => (EmptyString, EmptyString)
  | String c r =>
    if f c then let (a, b) := span f r in (String c a, b)
    else (EmptyString, s)
  end.

(** [hay.includes(needle)], as a proposition and as a test. *)
Definition Contains (needle hay : string) : Prop :=
  exists pre post, hay = pre ++ needle ++ post.

Fixpoint containsb (needle hay : string) : bool :=
  match stripPrefix needle hay with
  | Some _ => true
  | None =>
    match hay with
    | EmptyString => false
    | String _ r => containsb needle r
    end
  end.

(** Exceptions and results. *)
Inductive exn : Type :=
| SyntaxError | TypeError | InvalidCharacterError | URIError | OtherError.

Inductive res (A : Type) : Type :=
| Ok (a : A)
| Throw (e : exn).
Arguments Ok {A} a.
Arguments Throw {A} e.

Definition bindRes {A B} (r : res A) (k : A -> res B) : res B :=
  match r with Ok a => k a | Throw e => Throw e end.

(** A value produced by [JSON.parse].  A number keeps its lexeme; only its
    truthiness and its rendering are ever observed. *)
Inductive json : Type :=
| JNull
| JBool (b : bool)
| JNum (lexeme : string)
| JStr (s : string)
| JArr (items : list json)
| JObj (members : list (string * json)).

(** The own property [k] of an object built by [JSON.parse]: the last
    member of that name. *)
Fixpoint ownProperty (k : string) (members : list (string * json)) : option json :=
  match members with
  | [] => None
  | (k', v) :: r =>
    match ownProperty k r with
    | Some w => Some w
    | None => if String.eqb k k' then Some v else None
    end
  end.

(** [v.k] for a key that no prototype defines (as [summary] and
    [summary_base64]): [undefined] on everything but an object with that
    member, a [TypeError] on [null]. *)
Definition getProperty (v : json) (k : string) : res (option json) :=
  match v with
  | JNull => Throw TypeError
  | JObj members => Ok (ownProperty k members)
  | _ => Ok None
  end.

End JS.
Export JS.

(** ** The host: built-ins and helpers whose code is not part of the sources

    [JSON.parse], [atob], [escape], [decodeURIComponent], the rendering of
    numbers and the wall clock belong to the browser; [base64ToString] is
    imported from [utils/utils], which is not among the sources.  They are
    taken as an interface; a result [Throw e] is an exception.  [atob]
    answers a binary string, held one byte per code unit. *)
Class Platform : Type := {
  JSON_parse : string -> res json;
  atob : string -> res string;
  escape : string -> string;
  decodeURIComponent : string -> res string;
  base64ToString : json -> res string;
  Number_truthy : string -> bool;
  Number_toString : string -> string;
  toLocaleTimeString : nat -> string
}.

Section Values.
Context {host : Platform}.

(** Truthiness of a value read from parsed JSON; [None] is [undefined]. *)
Definition isTruthy (v : option json) : bool :=
  match v with
  | None => false
  | Some JNull => false
  | Some (JBool b) => b
  | Some (JNum x) => Number_truthy x
  | Some (JStr s) => nonEmpty s
  | Some (JArr _) => true
  | Some (JObj _) => true
  end.

(** [ToString]: what a template literal does to an interpolated value.
    An array joins its elements with commas, [null] elements being empty.
    An object goes through [OrdinaryToPrimitive]: a member named
    [toString] of parsed JSON is never callable and hides
    [Object.prototype.toString]; [valueOf], own or inherited, then yields
    no primitive, and the conversion throws a [TypeError]. *)
Fixpoint ToString (v : json) : res string :=
  match v with
  | JNull => Ok "null"
  | JBool b => Ok (if b then "true" else "false")
  | JNum x => Ok (Number_toString x)
  | JStr s => Ok s
  | JArr items =>
    (fix join (l : list json) : res string :=
       let element (x : json) : res string :=
         match x with JNull => Ok "" | _ => ToString x end in
       match l with
       | [] => Ok ""
       | x :: r =>
         match r with
         | [] => element x
         | _ :: _ =>
           bindRes (element x) (fun a =>
           bindRes (join r) (fun b => Ok (a ++ "," ++ b)))
         end
       end) items
  | JObj members =>
    match ownProperty "toString" members with
    | Some _ => Throw TypeError
    | None => Ok "[object Object]"
    end
  end.

End Values.

(** ** types/types.ts *)

Inductive AnalysisType : Type :=
| youtube | github | spreadsheet | file | search | url | video | workflow.

Inductive AnalysisPersona : Type := assistant | analyst.

Module Analysis.
Record t : Type := {
  id : string;
  title : string;
  source : string;
  summary : string;
  type : AnalysisType;
  persona : AnalysisPersona;
  previewData : option string;
  tags : option (list string)
}.
End Analysis.

(** The string a type tag is at run time. *)
Definition typeName (t : AnalysisType) : string :=
  match t with
  | youtube => "youtube" | github => "github" | spreadsheet => "spreadsheet"
  | file => "file" | search => "search" | url => "url" | video => "video"
  | workflow => "workflow"
  end.

(** ** utils/system-instruction-builder.ts *)

(** The object literal [personaInstructions], read by key.  Keys that only
    [Object.prototype] defines ([constructor], [toString], ...) are not
    modelled: the persona menu offers the four keys below and [null]. *)
Definition personaInstructions (key : string) : option string :=
  if key =? "tutor" then Some
    "Você atua como um Tutor. Seu objetivo principal é ensinar o usuário sobre o conteúdo fornecido de forma clara, paciente e didática. Use analogias, faça perguntas para verificar a compreensão e divida tópicos complexos em partes menores. Seu tom é encorajador e solidário."
  else if key =? "coding-engineer" then Some
    "Você atua como um Engenheiro de Codificação sênior. Suas respostas devem ser técnicas, precisas e focadas em código, algoritmos e melhores práticas de engenharia de software. Quando apropriado, forneça exemplos de código. Seja direto e use a terminologia correta."
  else if key =? "direct" then Some
    "Você é um assistente direto e conciso. Suas respostas devem ser curtas, objetivas e ir direto ao ponto. Evite formalidades, preâmbulos e explicações desnecessariamente longas. A velocidade e a clareza são suas principais prioridades."
  else if key =? "data-analyst" then Some
    "Você atua como um Analista de Dados sênior e parceiro de negócios. Sua prioridade máxima é a honestidade e a precisão dos dados. Você NUNCA deve fornecer informações imprecisas ou especulativas. Se uma resposta não pode ser apoiada pelos dados fornecidos, afirme isso claramente. Seu objetivo é ajudar o usuário a tomar decisões baseadas em fatos, identificar tendências, resolver problemas de negócios e ser um consultor de confiança, sempre com base nos dados reais disponíveis."
  else None.

Definition TOOL_INSTRUCTIONS : string :=
  "

---

**Ferramentas Disponíveis:**

1.  **Pesquisa Google:** Você PODE e DEVE usar a Pesquisa Google para encontrar informações atualizadas, verificar fatos ou enriquecer as respostas quando o conhecimento fornecido for insuficiente.
2.  **Geração de Imagem:** Para criar uma ou mais imagens, você DEVE responder com texto introdutório seguido do comando no seguinte formato:
    `[generate_images(N): 'Uma descrição detalhada em inglês da imagem a ser gerada']`
    Onde 'N' é o número de imagens a serem geradas.
    Exemplo 1: Se o usuário pedir " ++ dq ++ "desenhe um gato de chapéu" ++ dq ++ ", sua resposta pode ser `Claro, aqui está: [generate_images(1): 'A photorealistic image of a cat wearing a small wizard hat']`.
    Exemplo 2: Se o usuário pedir " ++ dq ++ "crie 3 robôs diferentes" ++ dq ++ ", sua resposta pode ser `Gerando 3 robôs para você: [generate_images(3): 'Three different styles of friendly robots, futuristic']`.
    A descrição para a imagem deve ser sempre em INGLÊS para melhores resultados.
3.  **Edição de Imagem:** Para editar a imagem gerada mais recentemente, você DEVE responder com texto introdutório seguido do comando no seguinte formato:
    `[edit_image: 'Uma instrução clara em inglês sobre como modificar a imagem']`
    Exemplo: Se o usuário disser " ++ dq ++ "agora, adicione um fundo de galáxia" ++ dq ++ ", sua resposta pode ser `Ótima ideia! [edit_image: 'add a galaxy background to the image']`.
    A instrução de edição também deve ser em INGLÊS.".

Definition detailInstruction : string :=
  "
Ao responder, não se limite a resumos superficiais. Mergulhe fundo nos detalhes do conteúdo. Elabore os pontos-chave, explique conceitos complexos com clareza e, sempre que possível, use exemplos específicos do material de origem para ilustrar suas explicações. Seu objetivo é demonstrar um domínio completo e detalhado do conhecimento fornecido.".

Definition enrichmentInstruction : string :=
  "Este resumo é sua base de conhecimento principal. Use-o como ponto de partida para todas as respostas. No entanto, você tem a capacidade de pesquisar na internet usando o Google. Use essa ferramenta para complementar as informações, fornecer contexto atualizado, comparar o conteúdo com outras fontes ou responder a perguntas que vão além do resumo. Seu objetivo é ser um especialista completo sobre o tópico, não apenas um repetidor do conteúdo fornecido.".

Section Composer.
Context {host : Platform}.

(** The [try] block of the workflow branch of [getSingleSystemInstruction];
    the value is what [workflowSummary] holds after it. *)
Definition workflowSummary (summary : string) : json :=
  match
    bindRes (JSON_parse summary) (fun parsed =>
    bindRes (getProperty parsed "summary_base64") (fun summary_base64 =>
    if isTruthy summary_base64 then
      bindRes (ToString (match summary_base64 with Some v => v | None => JNull end))
        (fun encoded =>
      bindRes (atob encoded) (fun binary =>
      bindRes (decodeURIComponent (escape binary)) (fun decoded =>
      Ok (JStr decoded))))
    else
      bindRes (getProperty parsed "summary") (fun old =>
      if isTruthy old then Ok (match old with Some v => v | None => JNull end)
      else Ok (JStr "O resumo do fluxo de trabalho estava vazio."))))
  with
  | Ok v => v
  | Throw _ => JStr "Ocorreu um erro ao processar o resumo do fluxo de trabalho."
  end.

Definition getSingleSystemInstruction (analysis : Analysis.t) : res string :=
  let title := Analysis.title analysis in
  let summary := Analysis.summary analysis in
  match Analysis.persona analysis with
  | analyst => Ok (
    "Você é um assistente de voz e analista de dados especialista. Seu foco é o conteúdo da seguinte planilha/documento: " ++ dq ++ title ++ dq ++ ".
Você já realizou uma análise preliminar e tem o seguinte resumo como seu conhecimento base.
--- INÍCIO DO CONHECIMENTO ---
" ++ summary ++ "
--- FIM DO CONHECIMENTO ---
Seu papel é:
1. Responder perguntas sobre os dados usando o conhecimento acima. Seja preciso e quantitativo sempre que possível.
2. Manter um tom de analista: claro, objetivo e focado nos dados. Fale em português do Brasil.
3. Sua principal fonte de verdade são os dados fornecidos. No entanto, você PODE e DEVE usar a Pesquisa Google para enriquecer sua análise, comparar os dados com benchmarks externos ou responder a perguntas que exigem contexto adicional. Sempre deixe claro quando uma informação vem dos dados fornecidos versus de uma pesquisa externa.
4. Não invente dados; sua prioridade é a precisão." ++ detailInstruction)
  | assistant =>
    match Analysis.type analysis with
    | github => Ok (
      "Você é um assistente de voz e especialista no repositório do GitHub: " ++ dq ++ title ++ dq ++ ".
Você já analisou o README e a estrutura de arquivos do projeto. Seu conhecimento base é o seguinte resumo:
--- INÍCIO DO CONHECIMENTO ---
" ++ summary ++ "
--- FIM DO CONHECIMENTO ---
Seu papel é:
1. Responder perguntas sobre o propósito, tecnologia, estrutura e como usar o repositório.
2. Manter um tom técnico e prestativo, como um engenheiro de software sênior, falando em português do Brasil.
3. " ++ enrichmentInstruction ++ detailInstruction)
    | youtube | video => Ok (
      "Você é um assistente de voz inteligente especializado no vídeo: " ++ dq ++ title ++ dq ++ ".
Você já assistiu ao vídeo e analisou tanto o áudio quanto os elementos visuais. Seu conhecimento base é o seguinte resumo:
--- INÍCIO DO CONHECIMENTO ---
" ++ summary ++ "
--- FIM DO CONHECIMENTO ---
Seu papel é:
1. Responder a perguntas sobre o vídeo. Isso inclui o conteúdo falado (tópicos, ideias) E detalhes visuais (cores, pessoas, objetos, texto na tela, ações).
2. Manter um tom conversacional e natural em português do Brasil.
3. " ++ enrichmentInstruction ++ detailInstruction)
    | workflow =>
      bindRes (ToString (workflowSummary summary)) (fun workflowSummary =>
      Ok (
      "Você é um assistente de voz especialista no fluxo de trabalho n8n: " ++ dq ++ title ++ dq ++ ".
Você já analisou um vídeo sobre ele e seu conhecimento base é o seguinte resumo:
--- INÍCIO DO CONHECIMENTO ---
" ++ workflowSummary ++ "
--- FIM DO CONHECIMENTO ---
Seu papel é:
1. Responder a perguntas sobre o propósito, os nós e a lógica do fluxo de trabalho.
2. Manter um tom conversacional e natural em português do Brasil.
3. Se o usuário pedir o JSON do workflow, informe que ele pode ser copiado do painel de análise.
4. " ++ enrichmentInstruction ++ detailInstruction))
    | _ => Ok (
      "Você é um assistente de voz inteligente especializado no seguinte conteúdo: " ++ dq ++ title ++ dq ++ ".
Você já analisou o conteúdo e tem o seguinte resumo detalhado como seu conhecimento.
--- INÍCIO DO CONHECIMENTO ---
" ++ summary ++ "
--- FIM DO CONHECIMENTO ---
Seu papel é:
1. Responder perguntas sobre o conteúdo usando o conhecimento acima.
2. Manter um tom conversacional e natural em português do Brasil.
3. " ++ enrichmentInstruction ++ detailInstruction)
    end
  end.

(** [persona.split('-')]. *)
Fixpoint splitDash (s : string) : list string :=
  match s with
  | EmptyString => [EmptyString]
  | String c r =>
    if Ascii.eqb c "-" then EmptyString :: splitDash r
    else match splitDash r with
         | w :: ws => String c w :: ws
         | [] => [String c EmptyString]
         end
  end.

(** [word.charAt(0).toUpperCase() + word.slice(1)], for a word that starts
    with an ASCII character (the persona keys do). *)
Definition capitalise (word : string) : string :=
  match word with
  | EmptyString => EmptyString
  | String c r =>
    let n := code c in
    String (if ((97 <=? n) && (n <=? 122))%N then ascii_of_N (n - 32) else c) r
  end.

Definition personaTitle (persona : string) : string :=
  String.concat " " (map capitalise (splitDash persona)).

Definition personaPrefix (persona : option string) : string :=
  match persona with
  | None => ""
  | Some persona =>
    match (if nonEmpty persona then personaInstructions persona else None) with
    | None => ""
    | Some instructions =>
      if nonEmpty instructions then
        "**PERSONA ATIVA: " ++ personaTitle persona ++ "**
" ++ instructions ++ "

---

"
      else ""
    end
  end.

Definition decimal (n : nat) : string := NilEmpty.string_of_uint (Nat.to_uint n).

(** What [contentSummary] holds for one source of the composite form. *)
Definition contentSummary (analysis : Analysis.t) : json :=
  match Analysis.type analysis with
  | workflow =>
    match
      bindRes (JSON_parse (Analysis.summary analysis)) (fun parsed =>
      bindRes (getProperty parsed "summary_base64") (fun summary_base64 =>
      if isTruthy summary_base64 then
        bindRes (base64ToString (match summary_base64 with Some v => v | None => JNull end))
          (fun decoded => Ok (JStr decoded))
      else
        bindRes (getProperty parsed "summary") (fun old =>
        if isTruthy old then Ok (match old with Some v => v | None => JNull end)
        else Ok (JStr "Resumo do fluxo de trabalho indisponível."))))
    with
    | Ok v => v
    | Throw _ => JStr "Erro ao processar o resumo do fluxo de trabalho."
    end
  | _ => JStr (Analysis.summary analysis)
  end.

(** The body of [analyses.forEach((analysis, index) => ...)], from [index]
    on, appending to [multiAnalysisInstruction]. *)
Fixpoint forEachSource (index : nat) (analyses : list Analysis.t)
    (multiAnalysisInstruction : string) : res string :=
  match analyses with
  | [] => Ok multiAnalysisInstruction
  | analysis :: rest =>
    bindRes (ToString (contentSummary analysis)) (fun contentSummary =>
    forEachSource (S index) rest
      (multiAnalysisInstruction ++
       "--- INÍCIO DA FONTE " ++ decimal (index + 1) ++ ": " ++ dq ++ Analysis.title analysis ++ dq ++ " (" ++ typeName (Analysis.type analysis) ++ ") ---
" ++
       contentSummary ++ "
" ++
       "--- FIM DA FONTE " ++ decimal (index + 1) ++ " ---

"))
  end.

Definition generateCompositeSystemInstruction
    (analyses : list Analysis.t) (persona : option string) : res string :=
  let personaPrefix := personaPrefix persona in
  match analyses with
  | [] =>
    let instruction :=
      "Você é um assistente de voz avançado que fala português do Brasil. Sua principal diretriz é a honestidade e a precisão factual absoluta. Ao interagir:
1.  **Priorize a Verdade:** Sempre forneça informações corretas e atualizadas. Para qualquer tópico que exija dados do mundo real, eventos recentes ou fatos específicos, você DEVE usar a ferramenta de busca do Google para verificar e fundamentar suas respostas. Não confie apenas em seu conhecimento de treinamento.
2.  **Seja Honesto e Corretivo:** Se o usuário afirmar algo que seja factualmente incorreto, sua função é corrigi-lo de forma educada, mas direta. Não concorde com informações erradas para ser agradável. Sua lealdade é com os fatos.
3.  **Pesquisa Avançada:** Ao usar a busca, não se limite a uma ou duas fontes. Realize uma pesquisa abrangente, sintetizando informações de múltiplos resultados confiáveis para construir uma resposta completa, precisa e com nuances.
4.  **Seja um Assistente de Confiança:** Seu objetivo é ser uma fonte de informação confiável. A precisão e a honestidade são mais importantes do que a concordância." in
    if nonEmpty personaPrefix then
      Ok (personaPrefix ++ "Use sua persona para conversas gerais. " ++
          instruction ++ TOOL_INSTRUCTIONS)
    else Ok (instruction ++ TOOL_INSTRUCTIONS)
  | [analysis] =>
    bindRes (getSingleSystemInstruction analysis) (fun single =>
    Ok (personaPrefix ++ single ++ TOOL_INSTRUCTIONS))
  | _ =>
    bindRes (forEachSource 0 analyses
      ("Você é um assistente de voz especialista com conhecimento de múltiplas fontes. Abaixo estão os resumos dos conteúdos que você analisou. Responda às perguntas com base estritamente nessas informações. Ao responder, se possível, mencione a fonte (título) da qual você está extraindo a informação.

"))
      (fun multiAnalysisInstruction =>
    Ok (personaPrefix ++
        (multiAnalysisInstruction ++
         "Sua base de conhecimento principal são as fontes listadas acima. Fale em português do Brasil.
Você deve usar a Pesquisa Google para enriquecer suas respostas, encontrar informações mais recentes, ou comparar e contrastar os dados das fontes com o conhecimento geral da web. Deixe claro quando a informação vem de uma fonte específica ou de uma pesquisa externa.
Ao responder, mergulhe fundo nos detalhes de cada fonte relevante para fornecer a resposta mais completa possível. Se a pergunta abranger múltiplos contextos, compare e contraste as informações entre as fontes para oferecer uma visão mais rica e integrada.") ++
        TOOL_INSTRUCTIONS))
  end.

End Composer.

(** ** The remaining records of types/types.ts *)

Module SearchResult.
Record t : Type := { uri : string; title : string }.
End SearchResult.

Inductive EventType : Type :=
| info | success | error | record | process | connect | disconnect | history.

Module TimelineEvent.
Record t : Type := { timestamp : string; message : string; type : EventType }.
End TimelineEvent.

Module ProcessingState.
Record t : Type := { active : bool; step : string; progress : N }.
End ProcessingState.

Module SearchHistoryItem.
Record t : Type := { id : string; term : string }.
End SearchHistoryItem.

Module SavedSession.
Record t : Type := {
  id : string;
  title : string;
  analyses : list Analysis.t;
  timelineEvents : list TimelineEvent.t;
  systemInstruction : string;
  searchResults : list SearchResult.t;
  activePersona : option string
}.
End SavedSession.

Inductive Role : Type := user | model.

Module ChatMessage.
Record t : Type := {
  role : Role;
  text : string;
  imageUrls : option (list string);
  isLoadingImages : option bool;
  imageCount : option N
}.
End ChatMessage.

Module AppState.
Record t : Type := {
  analyses : list Analysis.t;
  selectedAnalysisId : option string;
  processingState : ProcessingState.t;
  isRecording : bool;
  status : string;
  error : string;
  searchResults : list SearchResult.t;
  systemInstruction : string;
  timelineEvents : list TimelineEvent.t;
  showTimelineModal : bool;
  showHistoryModal : bool;
  showSidebar : bool;
  showVisualizerPanel : bool;
  savedSessions : list SavedSession.t;
  searchHistory : list SearchHistoryItem.t;
  activePersona : option string;
  chatHistory : list ChatMessage.t;
  isChatting : bool;
  lastGeneratedImages : list string
}.
End AppState.

(** One entry of a [Partial<AppState>]. *)
Inductive Assign : Type :=
| Set_analyses (v : list Analysis.t)
| Set_selectedAnalysisId (v : option string)
| Set_processingState (v : ProcessingState.t)
| Set_isRecording (v : bool)
| Set_status (v : string)
| Set_error (v : string)
| Set_searchResults (v : list SearchResult.t)
| Set_systemInstruction (v : string)
| Set_timelineEvents (v : list TimelineEvent.t)
| Set_showTimelineModal (v : bool)
| Set_showHistoryModal (v : bool)
| Set_showSidebar (v : bool)
| Set_showVisualizerPanel (v : bool)
| Set_savedSessions (v : list SavedSession.t)
| Set_searchHistory (v : list SearchHistoryItem.t)
| Set_activePersona (v : option string)
| Set_chatHistory (v : list ChatMessage.t)
| Set_isChatting (v : bool)
| Set_lastGeneratedImages (v : list string).

(** [{...state, key: v}]: the state with one field replaced. *)
Definition assign (a : Assign) (s : AppState.t) : AppState.t :=
  let f1 := AppState.analyses s in
  let f2 := AppState.selectedAnalysisId s in
  let f3 := AppState.processingState s in
  let f4 := AppState.isRecording s in
  let f5 := AppState.status s in
  let f6 := AppState.error s in
  let f7 := AppState.searchResults s in
  let f8 := AppState.systemInstruction s in
  let f9 := AppState.timelineEvents s in
  let f10 := AppState.showTimelineModal s in
  let f11 := AppState.showHistoryModal s in
  let f12 := AppState.showSidebar s in
  let f13 := AppState.showVisualizerPanel s in
  let f14 := AppState.savedSessions s in
  let f15 := AppState.searchHistory s in
  let f16 := AppState.activePersona s in
  let f17 := AppState.chatHistory s in
  let f18 := AppState.isChatting s in
  let f19 := AppState.lastGeneratedImages s in
  match a with
  | Set_analyses v =>
    AppState.Build_t v f2 f3 f4 f5 f6 f7 f8 f9 f10 f11 f12 f13 f14 f15 f16 f17 f18 f19
  | Set_selectedAnalysisId v =>
    AppState.Build_t f1 v f3 f4 f5 f6 f7 f8 f9 f10 f11 f12 f13 f14 f15 f16 f17 f18 f19
  | Set_processingState v =>
    AppState.Build_t f1 f2 v f4 f5 f6 f7 f8 f9 f10 f11 f12 f13 f14 f15 f16 f17 f18 f19
  | Set_isRecording v =>
    AppState.Build_t f1 f2 f3 v f5 f6 f7 f8 f9 f10 f11 f12 f13 f14 f15 f16 f17 f18 f19
  | Set_status v =>
    AppState.Build_t f1 f2 f3 f4 v f6 f7 f8 f9 f10 f11 f12 f13 f14 f15 f16 f17 f18 f19
  | Set_error v =>
    AppState.Build_t f1 f2 f3 f4 f5 v f7 f8 f9 f10 f11 f12 f13 f14 f15 f16 f17 f18 f19
  | Set_searchResults v =>
    AppState.Build_t f1 f2 f3 f4 f5 f6 v f8 f9 f10 f11 f12 f13 f14 f15 f16 f17 f18 f19
  | Set_systemInstruction v =>
    AppState.Build_t f1 f2 f3 f4 f5 f6 f7 v f9 f10 f11 f12 f13 f14 f15 f16 f17 f18 f19
  | Set_timelineEvents v =>
    AppState.Build_t f1 f2 f3 f4 f5 f6 f7 f8 v f10 f11 f12 f13 f14 f15 f16 f17 f18 f19
  | Set_showTimelineModal v =>
    AppState.Build_t f1 f2 f3 f4 f5 f6 f7 f8 f9 v f11 f12 f13 f14 f15 f16 f17 f18 f19
  | Set_showHistoryModal v =>
    AppState.Build_t f1 f2 f3 f4 f5 f6 f7 f8 f9 f10 v f12 f13 f14 f15 f16 f17 f18 f19
  | Set_showSidebar v =>
    AppState.Build_t f1 f2 f3 f4 f5 f6 f7 f8 f9 f10 f11 v f13 f14 f15 f16 f17 f18 f19
  | Set_showVisualizerPanel v =>
    AppState.Build_t f1 f2 f3 f4 f5 f6 f7 f8 f9 f10 f11 f12 v f14 f15 f16 f17 f18 f19
  | Set_savedSessions v =>
    AppState.Build_t f1 f2 f3 f4 f5 f6 f7 f8 f9 f10 f11 f12 f13 v f15 f16 f17 f18 f19
  | Set_searchHistory v =>
    AppState.Build_t f1 f2 f3 f4 f5 f6 f7 f8 f9 f10 f11 f12 f13 f14 v f16 f17 f18 f19
  | Set_activePersona v =>
    AppState.Build_t f1 f2 f3 f4 f5 f6 f7 f8 f9 f10 f11 f12 f13 f14 f15 v f17 f18 f19
  | Set_chatHistory v =>
    AppState.Build_t f1 f2 f3 f4 f5 f6 f7 f8 f9 f10 f11 f12 f13 f14 f15 f16 v f18 f19
  | Set_isChatting v =>
    AppState.Build_t f1 f2 f3 f4 f5 f6 f7 f8 f9 f10 f11 f12 f13 f14 f15 f16 f17 v f19
  | Set_lastGeneratedImages v =>
    AppState.Build_t f1 f2 f3 f4 f5 f6 f7 f8 f9 f10 f11 f12 f13 f14 f15 f16 f17 f18 v
  end.
(** ** The two directive grammars of [sendTextMessage] *)

Module Interpreter.

Inductive Directive : Type :=
| GenerateImages (prompt : string) (count : N)
| EditImage (prompt : string).

Definition isDigit (c : ascii) : bool := ((48 <=? code c) && (code c <=? 57))%N.
Definition notQuote (c : ascii) : bool := negb (Ascii.eqb c "'").

(** A match of a regular expression: the text before it, its capture
    groups, the text after it. *)
Record Match (G : Type) : Type := { before : string; groups : G; after : string }.
Arguments before {G} m.
Arguments groups {G} m.
Arguments after {G} m.

Definition shift {G} (c : ascii) (m : Match G) : Match G :=
  {| before := String c (before m); groups := groups m; after := after m |}.

(** [/\[generate_images\((\d+)\):\s*'([^']+)']/] anchored at the head of
    [s]: the two groups and what follows the match.  Every quantifier is
    followed by a character it cannot match, so the greedy choice is the
    only one. *)
Definition generateRegexAt (s : string) : option (string * string * string) :=
  match stripPrefix "[generate_images(" s with
  | None => None
  | Some s1 =>
    let (digits, s2) := span isDigit s1 in
    if nonEmpty digits then
      match stripPrefix "):" s2 with
      | None => None
      | Some s3 =>
        match stripPrefix "'" (trimStart s3) with
        | None => None
        | Some s4 =>
          let (prompt, s5) := span notQuote s4 in
          if nonEmpty prompt then
            match stripPrefix "']" s5 with
            | None => None
            | Some rest => Some (digits, prompt, rest)
            end
          else None
        end
      end
    else None
  end.

(** [/\[edit_image:\s*'([^']+)']/] anchored at the head of [s]. *)
Definition editRegexAt (s : string) : option (string * string) :=
  match stripPrefix "[edit_image:" s with
  | None => None
  | Some s1 =>
    match stripPrefix "'" (trimStart s1) with
    | None => None
    | Some s2 =>
      let (prompt, s3) := span notQuote s2 in
      if nonEmpty prompt then
        match stripPrefix "']" s3 with
        | None => None
        | Some rest => Some (prompt, rest)
        end
      else None
    end
  end.

(** [text.match(generateRegex)]: the leftmost match. *)
Fixpoint generateRegex (text : string) : option (Match (string * string)) :=
  match generateRegexAt text with
  | Some (digits, prompt, rest) =>
    Some {| before := ""; groups := (digits, prompt); after := rest |}
  | None =>
    match text with
    | EmptyString => None
    | String c r => option_map (shift c) (generateRegex r)
    end
  end.

(** [text.match(editRegex)]. *)
Fixpoint editRegex (text : string) : option (Match string) :=
  match editRegexAt text with
  | Some (prompt, rest) =>
    Some {| before := ""; groups := prompt; after := rest |}
  | None =>
    match text with
    | EmptyString => None
    | String c r => option_map (shift c) (editRegex r)
    end
  end.

(** [text.replace(regex, '')] for the match [m] of [regex] in [text]. *)
Definition removed {G} (m : Match G) : string := before m ++ after m.

(** [parseInt(digits, 10)] on a run of decimal digits (exact; a double
    rounds above 2^53). *)
Definition parseInt (digits : string) : N :=
  (fix go (acc : N) (s : string) : N :=
     match s with
     | EmptyString => acc
     | String c r => go (acc * 10 + (code c - 48))%N r
     end) 0%N digits.

End Interpreter.
Export Interpreter.

(** ** services/state-service.ts *)

(** The volatile handles and the collaborators' answers. *)

Module LiveSession.
Record t : Type := { systemInstruction : string }.
End LiveSession.

Module Content.
Record t : Type := { role : Role; text : string }.
End Content.

Module Chat.
Record t : Type := { history : list Content.t; systemInstruction : string }.
End Chat.

(** A value caught by [catch (err)]: an [Error] with its message, or
    anything else with its [String(err)]. *)
Inductive JsError : Type :=
| ErrorObject (message : string)
| Thrown (rendering : string).

Module Web.
Record t : Type := { uri : string; title : option string }.
End Web.

Module Chunk.
Record t : Type := {
  text : option string;
  groundingChunks : option (list (option Web.t))
}.
End Chunk.

(** What [sendMessageStream] does: it rejects, or it yields chunks and
    then ends or fails. *)
Inductive Reply : Type :=
| Rejected (err : JsError)
| Stream (chunks : list Chunk.t) (failure : option JsError).

(** Calls that leave the service, in the order they are made.  [Dispatch]
    marks a call of the image job runner by the stream loop. *)
Inductive Event : Type :=
| AudioStop
| LiveClose
| ChatsCreate (history : list Content.t) (systemInstruction : string)
| SendMessageStream (message : string)
| Dispatch (d : Directive)
| ModelsGenerateImages (prompt : string) (numberOfImages : N)
| ModelsGenerateContent (image : string) (prompt : string)
| StorageSetSessions (sessions : list SavedSession.t).

Module Service.
Record t : Type := {
  state : AppState.t;
  session : option LiveSession.t;
  textChatSession : option Chat.t;
  trace : list Event;
  clockReads : nat
}.
End Service.

(** The state-and-exception monad of the methods. *)
Definition M (A : Type) : Type := Service.t -> Service.t * res A.

Definition ret {A} (a : A) : M A := fun svc => (svc, Ok a).

Definition bind {A B} (m : M A) (k : A -> M B) : M B :=
  fun svc =>
    match m svc with
    | (svc', Ok a) => k a svc'
    | (svc', Throw e) => (svc', Throw e)
    end.

Notation "x <- m ;; k" := (bind m (fun x => k))
  (at level 61, m at next level, right associativity).
Notation "m ;; k" := (bind m (fun _ => k))
  (at level 61, right associativity).

(** The service after a method, and how the method ended. *)
Definition exec {A} (m : M A) (svc : Service.t) : Service.t := fst (m svc).
Definition outcome {A} (m : M A) (svc : Service.t) : res A := snd (m svc).

Definition getState : M AppState.t := fun svc => (svc, Ok (Service.state svc)).

Definition putState (s : AppState.t) : M unit := fun svc =>
  ({| Service.state := s; Service.session := Service.session svc;
      Service.textChatSession := Service.textChatSession svc;
      Service.trace := Service.trace svc;
      Service.clockReads := Service.clockReads svc |}, Ok tt).

Definition getSession : M (option LiveSession.t) :=
  fun svc => (svc, Ok (Service.session svc)).

Definition putSession (h : option LiveSession.t) : M unit := fun svc =>
  ({| Service.state := Service.state svc; Service.session := h;
      Service.textChatSession := Service.textChatSession svc;
      Service.trace := Service.trace svc;
      Service.clockReads := Service.clockReads svc |}, Ok tt).

Definition getTextChatSession : M (option Chat.t) :=
  fun svc => (svc, Ok (Service.textChatSession svc)).

Definition putTextChatSession (h : option Chat.t) : M unit := fun svc =>
  ({| Service.state := Service.state svc; Service.session := Service.session svc;
      Service.textChatSession := h;
      Service.trace := Service.trace svc;
      Service.clockReads := Service.clockReads svc |}, Ok tt).

(** A call of a collaborator. *)
Definition call (e : Event) : M unit := fun svc =>
  ({| Service.state := Service.state svc; Service.session := Service.session svc;
      Service.textChatSession := Service.textChatSession svc;
      Service.trace := Service.trace svc ++ [e];
      Service.clockReads := Service.clockReads svc |}, Ok tt).

(** [new Date()]: the next reading of the clock. *)
Definition readClock : M nat := fun svc =>
  ({| Service.state := Service.state svc; Service.session := Service.session svc;
      Service.textChatSession := Service.textChatSession svc;
      Service.trace := Service.trace svc;
      Service.clockReads := S (Service.clockReads svc) |},
   Ok (Service.clockReads svc)).

Definition throw {A} (e : exn) : M A := fun svc => (svc, Throw e).

(** [this.state = {...this.state, ...updater}; this.notify()]. *)
Definition setState (updater : list Assign) : M unit :=
  s <- getState ;;
  putState (fold_left (fun s a => assign a s) updater s).

(** [l[l.length - 1]]. *)
Fixpoint lastOf {A} (l : list A) : option A :=
  match l with
  | [] => None
  | x :: r => match r with [] => Some x | _ :: _ => lastOf r end
  end.

(** The list with [f] applied to its last element: an assignment to a
    field of the object [l[l.length - 1]], seen through a copy [[...l]]. *)
Fixpoint onLast {A} (f : A -> A) (l : list A) : list A :=
  match l with
  | [] => []
  | x :: r => match r with [] => [f x] | _ :: _ => x :: onLast f r end
  end.

Definition isModel (r : Role) : bool :=
  match r with model => true | user => false end.

Definition withText (text : string) (m : ChatMessage.t) : ChatMessage.t :=
  {| ChatMessage.role := ChatMessage.role m; ChatMessage.text := text;
     ChatMessage.imageUrls := ChatMessage.imageUrls m;
     ChatMessage.isLoadingImages := ChatMessage.isLoadingImages m;
     ChatMessage.imageCount := ChatMessage.imageCount m |}.

Definition withLoading (count : N) (m : ChatMessage.t) : ChatMessage.t :=
  {| ChatMessage.role := ChatMessage.role m; ChatMessage.text := ChatMessage.text m;
     ChatMessage.imageUrls := ChatMessage.imageUrls m;
     ChatMessage.isLoadingImages := Some true;
     ChatMessage.imageCount := Some count |}.

Definition plainMessage (r : Role) (text : string) : ChatMessage.t :=
  {| ChatMessage.role := r; ChatMessage.text := text;
     ChatMessage.imageUrls := None; ChatMessage.isLoadingImages := None;
     ChatMessage.imageCount := None |}.

(** The local variables of the stream loop of [sendTextMessage]. *)
Module Turn.
Record t : Type := {
  accumulatedText : string;
  allSearchResults : list SearchResult.t;
  commandProcessed : bool
}.
End Turn.

Section StateService.
Context {host : Platform}.

(** [err instanceof Error ? err.message : 'Erro desconhecido'] and
    [err instanceof Error ? err.message : String(err)]. *)
Definition messageOrUnknown (err : JsError) : string :=
  match err with ErrorObject m => m | Thrown _ => "Erro desconhecido" end.

Definition messageOrString (err : JsError) : string :=
  match err with ErrorObject m => m | Thrown r => r end.

Definition logEvent (message : string) (type : EventType) : M unit :=
  k <- readClock ;;
  s <- getState ;;
  setState [Set_timelineEvents
    (AppState.timelineEvents s ++
     [{| TimelineEvent.timestamp := toLocaleTimeString k;
         TimelineEvent.message := message;
         TimelineEvent.type := type |}])].

(** [updateStatus] and [updateError]; the timers that clear the banner
    later are events of their own and are not part of the call. *)
Definition updateStatus (msg : string) : M unit :=
  setState [Set_status msg; Set_error ""].

Definition updateError (msg : string) : M unit :=
  setState [Set_error msg; Set_status ""] ;;
  logEvent msg error.

Definition handleError (err : JsError) (context : string) : M unit :=
  updateError (context ++ ": " ++ messageOrString err).

Definition stopRecording : M unit :=
  s <- getState ;;
  if negb (AppState.isRecording s) then ret tt
  else
    call AudioStop ;;
    setState [Set_isRecording false] ;;
    updateStatus "Gravação parada." ;;
    logEvent "Gravação parada." record.

(** The analyses [updateSystemInstruction] hands to the composer. *)
Definition relevantAnalyses (s : AppState.t) : list Analysis.t :=
  match AppState.selectedAnalysisId s with
  | Some selectedAnalysisId =>
    if nonEmpty selectedAnalysisId then
      match find (fun a => Analysis.id a =? selectedAnalysisId)
                 (AppState.analyses s) with
      | Some selected => [selected]
      | None => []
      end
    else []
  | None => []
  end.

Definition updateSystemInstruction : M unit :=
  s <- getState ;;
  match generateCompositeSystemInstruction (relevantAnalyses s)
          (AppState.activePersona s) with
  | Ok newInstruction => setState [Set_systemInstruction newInstruction]
  | Throw e => throw e
  end.

(** The [history] handed to [chats.create]. *)
Definition seedHistory (chatHistory : list ChatMessage.t) : list Content.t :=
  map (fun msg => {| Content.role := ChatMessage.role msg;
                     Content.text := ChatMessage.text msg |})
      (filter (fun msg => nonEmpty (ChatMessage.text msg)) chatHistory).

Definition initializeTextChat : M unit :=
  s <- getState ;;
  let history := seedHistory (AppState.chatHistory s) in
  call (ChatsCreate history (AppState.systemInstruction s)) ;;
  putTextChatSession
    (Some {| Chat.history := history;
             Chat.systemInstruction := AppState.systemInstruction s |}) ;;
  setState [Set_isChatting false].

(** [resetSession(false)], the form every modelled method calls; the
    branch [if (clearAnalyses)] is not taken. *)
Definition resetSession : M unit :=
  stopRecording ;;
  h <- getSession ;;
  (match h with
   | Some _ => call LiveClose ;; putSession None
   | None => ret tt
   end) ;;
  setState [Set_searchResults []] ;;
  updateSystemInstruction ;;
  initializeTextChat ;;
  updateStatus "Sessão reiniciada.".

Definition updateVisualizerPanelVisibility : M unit :=
  s <- getState ;;
  setState [Set_showVisualizerPanel (truthy (AppState.selectedAnalysisId s))].

Definition sameId (a b : option string) : bool :=
  match a, b with
  | Some x, Some y => x =? y
  | None, None => true
  | _, _ => false
  end.

Definition setSelectedAnalysisId (id : option string) : M unit :=
  s <- getState ;;
  if sameId (AppState.selectedAnalysisId s) id then ret tt
  else
    setState [Set_selectedAnalysisId id; Set_chatHistory [];
              Set_lastGeneratedImages []] ;;
    updateVisualizerPanelVisibility ;;
    updateSystemInstruction ;;
    resetSession ;;
    initializeTextChat.

Definition setPersona (persona : option string) : M unit :=
  setState [Set_activePersona persona; Set_chatHistory []] ;;
  logEvent ("Persona alterada para: " ++ orElse persona "Padrão") info ;;
  updateSystemInstruction ;;
  resetSession ;;
  initializeTextChat.

(** [l[0]?.id || null]. *)
Definition firstIdOrNull (l : list Analysis.t) : option string :=
  match l with
  | [] => None
  | a :: _ => if nonEmpty (Analysis.id a) then Some (Analysis.id a) else None
  end.

Definition removeAnalysis (idToRemove : string) : M unit :=
  s <- getState ;;
  let newAnalyses :=
    filter (fun a => negb (Analysis.id a =? idToRemove)) (AppState.analyses s) in
  let newSelectedId :=
    if sameId (Some idToRemove) (AppState.selectedAnalysisId s)
    then firstIdOrNull newAnalyses
    else AppState.selectedAnalysisId s in
  setState [Set_analyses newAnalyses] ;;
  logEvent "Contexto removido." info ;;
  setSelectedAnalysisId newSelectedId.

(** [saveCurrentSession]; [answer] is what [prompt] returns and [now] is
    [Date.now().toString()].  The write to [localStorage] succeeds. *)
Definition saveCurrentSession (answer : option string) (now : string) : M unit :=
  s <- getState ;;
  let title := orElse answer "Sessão Salva" in
  let newSession :=
    {| SavedSession.id := now;
       SavedSession.title := title;
       SavedSession.analyses := AppState.analyses s;
       SavedSession.timelineEvents := AppState.timelineEvents s;
       SavedSession.systemInstruction := AppState.systemInstruction s;
       SavedSession.searchResults := AppState.searchResults s;
       SavedSession.activePersona := AppState.activePersona s |} in
  let savedSessions := newSession :: AppState.savedSessions s in
  setState [Set_savedSessions savedSessions] ;;
  call (StorageSetSessions savedSessions) ;;
  logEvent ("Sessão " ++ dq ++ title ++ dq ++ " salva.") history.

(** [loadSession]: the fields are assigned on [this.state] in place (no
    [notify]) before the selection is made. *)
Definition loadSession (sessionId : string) : M unit :=
  s <- getState ;;
  match find (fun x => SavedSession.id x =? sessionId) (AppState.savedSessions s) with
  | Some sessionToLoad =>
    putState (fold_left (fun s a => assign a s)
      [Set_analyses (SavedSession.analyses sessionToLoad);
       Set_timelineEvents (SavedSession.timelineEvents sessionToLoad);
       Set_searchResults (SavedSession.searchResults sessionToLoad);
       Set_activePersona (SavedSession.activePersona sessionToLoad);
       Set_showHistoryModal false] s) ;;
    setSelectedAnalysisId (firstIdOrNull (SavedSession.analyses sessionToLoad)) ;;
    logEvent ("Sessão " ++ dq ++ SavedSession.title sessionToLoad ++ dq ++ " carregada.")
             history
  | None => ret tt
  end.

(** The image job runner.  Both jobs are [async] and are started without
    [await]: the caller gets control back at the first [await], which is
    the call of the image model.  What follows that [await] runs later,
    as an event of its own, and is not part of the definitions below. *)
Definition _triggerImageGeneration (prompt : string) (count : N) : M unit :=
  s <- getState ;;
  match lastOf (AppState.chatHistory s) with
  | None => ret tt
  | Some lastMessage =>
    if negb (isModel (ChatMessage.role lastMessage)) then ret tt
    else
      setState [Set_chatHistory (onLast (withLoading count) (AppState.chatHistory s))] ;;
      call (ModelsGenerateImages prompt count)
  end.

Definition noImageToEdit : string :=
  "

**Erro:** Não há nenhuma imagem recente para editar.".

Definition _triggerImageEditing (prompt : string) : M unit :=
  s <- getState ;;
  match lastOf (AppState.chatHistory s) with
  | None => ret tt
  | Some lastMessage =>
    if negb (isModel (ChatMessage.role lastMessage)) then ret tt
    else
      match AppState.lastGeneratedImages s with
      | [] =>
        setState [Set_chatHistory
          (onLast (fun m => withText (ChatMessage.text m ++ noImageToEdit) m)
                  (AppState.chatHistory s))]
      | imageToEditB64 :: _ =>
        setState [Set_chatHistory (onLast (withLoading 1) (AppState.chatHistory s))] ;;
        call (ModelsGenerateContent imageToEditB64 prompt)
      end
  end.

(** [allSearchResults.set(uri, value)] on a [Map] kept in insertion order. *)
Fixpoint mapSet (value : SearchResult.t) (m : list SearchResult.t) : list SearchResult.t :=
  match m with
  | [] => [value]
  | x :: r =>
    if SearchResult.uri x =? SearchResult.uri value then value :: r
    else x :: mapSet value r
  end.

Definition recordGrounding (chunk : Chunk.t) (m : list SearchResult.t) : list SearchResult.t :=
  match Chunk.groundingChunks chunk with
  | None => m
  | Some groundingChunks =>
    fold_left
      (fun m c =>
         match c with
         | None => m
         | Some web =>
           mapSet {| SearchResult.uri := Web.uri web;
                     SearchResult.title := orElse (Web.title web) (Web.uri web) |} m
         end)
      groundingChunks m
  end.

(** The block [if (!commandProcessed) { ... }], entered with the fragment
    already appended to [accumulatedText]. *)
Definition recognise (accumulatedText : string) (turn : Turn.t) : M Turn.t :=
  let unchanged :=
    {| Turn.accumulatedText := accumulatedText;
       Turn.allSearchResults := Turn.allSearchResults turn;
       Turn.commandProcessed := Turn.commandProcessed turn |} in
  let processed (text : string) :=
    {| Turn.accumulatedText := text;
       Turn.allSearchResults := Turn.allSearchResults turn;
       Turn.commandProcessed := true |} in
  if Turn.commandProcessed turn then ret unchanged
  else
    match generateRegex accumulatedText with
    | Some genMatch =>
      let count := parseInt (fst (groups genMatch)) in
      let prompt := snd (groups genMatch) in
      call (Dispatch (GenerateImages prompt count)) ;;
      _triggerImageGeneration prompt count ;;
      ret (processed (trim (removed genMatch)))
    | None =>
      match editRegex accumulatedText with
      | Some editMatch =>
        let prompt := groups editMatch in
        call (Dispatch (EditImage prompt)) ;;
        _triggerImageEditing prompt ;;
        ret (processed (trim (removed editMatch)))
      | None => ret unchanged
      end
    end.

(** One iteration of [for await (const chunk of stream)]. *)
Definition onChunk (chunk : Chunk.t) (turn : Turn.t) : M Turn.t :=
  turn <-
    (match Chunk.text chunk with
     | None => ret turn
     | Some chunkText =>
       if nonEmpty chunkText then
         turn <- recognise (Turn.accumulatedText turn ++ chunkText) turn ;;
         s <- getState ;;
         (match lastOf (AppState.chatHistory s) with
          | None => ret tt
          | Some lastMessage =>
            if isModel (ChatMessage.role lastMessage) then
              setState [Set_chatHistory
                (onLast (withText (Turn.accumulatedText turn)) (AppState.chatHistory s))]
            else ret tt
          end) ;;
         ret turn
       else ret turn
     end) ;;
  ret {| Turn.accumulatedText := Turn.accumulatedText turn;
         Turn.allSearchResults := recordGrounding chunk (Turn.allSearchResults turn);
         Turn.commandProcessed := Turn.commandProcessed turn |}.

Fixpoint forAwait (chunks : list Chunk.t) (turn : Turn.t) : M Turn.t :=
  match chunks with
  | [] => ret turn
  | chunk :: rest => turn <- onChunk chunk turn ;; forAwait rest turn
  end.

(** The [catch (err)] block of [sendTextMessage]. *)
Definition chatFailed (err : JsError) : M unit :=
  let error := messageOrUnknown err in
  handleError err "Falha na mensagem de chat" ;;
  s <- getState ;;
  match lastOf (AppState.chatHistory s) with
  | None => ret tt
  | Some lastMessage =>
    if isModel (ChatMessage.role lastMessage) then
      setState [Set_isChatting false;
                Set_chatHistory
                  (onLast (fun m => withText (ChatMessage.text m ++ "

**Desculpe, ocorreu um erro:** " ++ error) m) (AppState.chatHistory s))]
    else ret tt
  end.

(** [sendTextMessage(message)]; [reply] is what the text transport does
    with the message. *)
Definition sendTextMessage (message : string) (reply : Reply) : M unit :=
  chat <- getTextChatSession ;;
  s <- getState ;;
  if (match chat with None => true | Some _ => false end)
     || AppState.isChatting s
     || negb (nonEmpty (trim message))
  then ret tt
  else
    setState [Set_isChatting true;
              Set_chatHistory (AppState.chatHistory s ++ [plainMessage user message]);
              Set_searchResults []] ;;
    call (SendMessageStream message) ;;
    match reply with
    | Rejected err => chatFailed err
    | Stream chunks failure =>
      s <- getState ;;
      setState [Set_chatHistory (AppState.chatHistory s ++ [plainMessage model ""])] ;;
      turn <- forAwait chunks
                {| Turn.accumulatedText := "";
                   Turn.allSearchResults := [];
                   Turn.commandProcessed := false |} ;;
      match failure with
      | None =>
        setState [Set_isChatting false;
                  Set_searchResults (Turn.allSearchResults turn)]
      | Some err => chatFailed err
      end
    end.

(** The service [new StateService()] builds; the two lists are what
    [localStorage] holds under the two keys. *)
Definition initialState (savedSessions : list SavedSession.t)
    (searchHistory : list SearchHistoryItem.t) : AppState.t :=
  {| AppState.analyses := [];
     AppState.selectedAnalysisId := None;
     AppState.processingState :=
       {| ProcessingState.active := false; ProcessingState.step := "";
          ProcessingState.progress := 0 |};
     AppState.isRecording := false;
     AppState.status := "";
     AppState.error := "";
     AppState.searchResults := [];
     AppState.systemInstruction := "";
     AppState.timelineEvents := [];
     AppState.showTimelineModal := false;
     AppState.showHistoryModal := false;
     AppState.showSidebar := true;
     AppState.showVisualizerPanel := false;
     AppState.savedSessions := savedSessions;
     AppState.searchHistory := searchHistory;
     AppState.activePersona := None;
     AppState.chatHistory := [];
     AppState.isChatting := false;
     AppState.lastGeneratedImages := [] |}.

Definition constructor (savedSessions : list SavedSession.t)
    (searchHistory : list SearchHistoryItem.t) : Service.t :=
  exec (updateSystemInstruction ;; initializeTextChat)
    {| Service.state := initialState savedSessions searchHistory;
       Service.session := None;
       Service.textChatSession := None;
       Service.trace := [];
       Service.clockReads := 0 |}.

End StateService.

(** ** services/state-service.ts: the methods that edit the store

    [updateAnalysisSummary], [insertImageIntoAnalysis], [deleteSession]
    and [resetSession] with its parameter. *)

Section Editing.
Context {host : Platform}.

(** [l.findIndex(f)] together with [l[index]]; [None] is [-1]. *)
Fixpoint findIndex {A} (f : A -> bool) (l : list A) : option (nat * A) :=
  match l with
  | [] => None
  | x :: r =>
    if f x then Some (0, x)
    else match findIndex f r with
         | Some (i, y) => Some (S i, y)
         | None => None
         end
  end.

(** The copy [[...l]] after [copy[index] = x], for an index within bounds
    (the ones [findIndex] gives). *)
Fixpoint setAt {A} (index : nat) (x : A) (l : list A) : list A :=
  match l with
  | [] => []
  | y :: r =>
    match index with
    | 0 => x :: r
    | S k => y :: setAt k x r
    end
  end.

(** [{...analysis, summary}]. *)
Definition withSummary (summary : string) (a : Analysis.t) : Analysis.t :=
  {| Analysis.id := Analysis.id a; Analysis.title := Analysis.title a;
     Analysis.source := Analysis.source a; Analysis.summary := summary;
     Analysis.type := Analysis.type a; Analysis.persona := Analysis.persona a;
     Analysis.previewData := Analysis.previewData a; Analysis.tags := Analysis.tags a |}.

Definition updateAnalysisSummary (analysisId newSummary : string) : M unit :=
  s <- getState ;;
  match findIndex (fun a => Analysis.id a =? analysisId) (AppState.analyses s) with
  | None => ret tt
  | Some (analysisIndex, currentAnalysis) =>
    let updatedAnalyses :=
      setAt analysisIndex (withSummary newSummary currentAnalysis) (AppState.analyses s) in
    setState [Set_analyses updatedAnalyses; Set_chatHistory []] ;;
    updateSystemInstruction ;;
    logEvent ("Análise " ++ dq ++ Analysis.title currentAnalysis ++ dq ++ " atualizada.") info ;;
    resetSession ;;
    initializeTextChat
  end.

(** The Markdown that [insertImageIntoAnalysis] appends to a summary. *)
Definition markdownImage (imageUrl : string) : string :=
  "

![Imagem Gerada pelo Assistente](" ++ imageUrl ++ ")
".

Definition insertImageIntoAnalysis (imageUrl : string) : M unit :=
  s <- getState ;;
  if negb (truthy (AppState.selectedAnalysisId s)) then
    updateError "Nenhuma análise selecionada para inserir a imagem."
  else
    match findIndex (fun a => sameId (Some (Analysis.id a)) (AppState.selectedAnalysisId s))
                    (AppState.analyses s) with
    | None => ret tt
    | Some (analysisIndex, currentAnalysis) =>
      let newSummary := Analysis.summary currentAnalysis ++ markdownImage imageUrl in
      let updatedAnalyses :=
        setAt analysisIndex (withSummary newSummary currentAnalysis) (AppState.analyses s) in
      setState [Set_analyses updatedAnalyses] ;;
      updateSystemInstruction ;;
      logEvent ("Imagem inserida na análise " ++ dq ++ Analysis.title currentAnalysis ++ dq ++ ".")
               info ;;
      updateStatus "Imagem inserida na análise!" ;;
      resetSession ;;
      initializeTextChat
    end.

(** [deleteSession]; the write to [localStorage] succeeds. *)
Definition deleteSession (sessionId : string) : M unit :=
  s <- getState ;;
  let savedSessions :=
    filter (fun x => negb (SavedSession.id x =? sessionId)) (AppState.savedSessions s) in
  setState [Set_savedSessions savedSessions] ;;
  call (StorageSetSessions savedSessions) ;;
  logEvent "Sessão excluída." history.

(** [setSelectedAnalysisId(id)] from its start to its [await], in a
    service with no voice session (there [resetSession(false)] reaches no
    [await] of its own).  The value returned is what is left to run after
    the [await]. *)
Definition setSelectedAnalysisId_start (id : option string) : M (M unit) :=
  s <- getState ;;
  if sameId (AppState.selectedAnalysisId s) id then ret (ret tt)
  else
    setState [Set_selectedAnalysisId id; Set_chatHistory [];
              Set_lastGeneratedImages []] ;;
    updateVisualizerPanelVisibility ;;
    updateSystemInstruction ;;
    resetSession ;;
    ret initializeTextChat.

(** A call of an [async] method that the caller does not [await]: the
    method runs to its first [await] and the caller goes on.  An exception
    in the method rejects a promise that nobody reads. *)
Definition unawaited (start : M (M unit)) : M (M unit) := fun svc =>
  match start svc with
  | (svc', Ok rest) => (svc', Ok rest)
  | (svc', Throw _) => (svc', Ok (ret tt))
  end.

(** [m], followed by what was left of a call that was not awaited: it runs
    as a microtask once the synchronous code is over, however that ended. *)
Definition andLater {A} (m : M A) (rest : M unit) : M A := fun svc =>
  match m svc with
  | (svc', r) => (fst (rest svc'), r)
  end.

(** [resetSession(clearAnalyses)].  With [clearAnalyses] the method calls
    [setSelectedAnalysisId(null)] without [await], after the voice session
    is closed. *)
Definition resetSession_with (clearAnalyses : bool) : M unit :=
  stopRecording ;;
  h <- getSession ;;
  (match h with
   | Some _ => call LiveClose ;; putSession None
   | None => ret tt
   end) ;;
  rest <- (if clearAnalyses then
             logEvent "Todos os contextos foram limpos." info ;;
             unawaited (setSelectedAnalysisId_start None)
           else ret (ret tt)) ;;
  andLater
    (setState (Set_searchResults [] ::
               (if clearAnalyses then [Set_analyses []; Set_activePersona None] else [])) ;;
     updateSystemInstruction ;;
     initializeTextChat ;;
     updateStatus "Sessão reiniciada.")
    rest.

End Editing.

(** ** components/chat-panel.ts *)

(** [handleFormSubmit]: [textarea] is the text of the field, [None] when
    the element is missing; the result is the [message] of the event
    [send-text-message] when one is dispatched.  The main component hands
    that message to [sendTextMessage]. *)
Definition handleFormSubmit (textarea : option string) (isChatting : bool) : option string :=
  match textarea with
  | None => None
  | Some value =>
    let message := trim value in
    if nonEmpty message && negb isChatting then Some message else None
  end.

(** ** services/state-service.ts: the voice session and the search history *)

(** Calls of collaborators that the methods above do not make. *)
Inductive Device : Type :=
| LiveConnect (systemInstruction : string)
| AudioStart
| SendRealtimeInput (media : string)
| StorageSetSearchHistory (searchHistory : list SearchHistoryItem.t).

(** The service with the log of those calls.  An entry holds the length
    the trace had when the call was made, which places it among the calls
    of the trace. *)
Module Runtime.
Record t : Type := { service : Service.t; devices : list (nat * Device) }.
End Runtime.

(** The monad of the methods that make them. *)
Definition M' (A : Type) : Type := Runtime.t -> Runtime.t * res A.

Definition unit_ {A} (a : A) : M' A := fun w => (w, Ok a).

Definition then_ {A B} (m : M' A) (k : A -> M' B) : M' B :=
  fun w =>
    match m w with
    | (w', Ok a) => k a w'
    | (w', Throw e) => (w', Throw e)
    end.

Notation "x <~ m ;; k" := (then_ m (fun x => k))
  (at level 61, m at next level, right associativity).
Notation "m ~;; k" := (then_ m (fun _ => k))
  (at level 61, right associativity).

(** A method of the first group, run on the service inside. *)
Definition lift {A} (m : M A) : M' A := fun w =>
  match m (Runtime.service w) with
  | (svc', r) => ({| Runtime.service := svc'; Runtime.devices := Runtime.devices w |}, r)
  end.

Definition device (d : Device) : M' unit := fun w =>
  ({| Runtime.service := Runtime.service w;
      Runtime.devices :=
        Runtime.devices w ++ [(List.length (Service.trace (Runtime.service w)), d)] |},
   Ok tt).

Section Voice.
Context {host : Platform}.

(** [initSession]; [answer] is what [client.live.connect] does: it
    resolves ([None]) or rejects.  The callbacks handed to it run later,
    as events of their own. *)
Definition initSession (answer : option JsError) : M' unit :=
  h <~ lift getSession ;;
  match h with
  | Some _ => unit_ tt
  | None =>
    lift (logEvent "Iniciando nova sessão de áudio..." connect) ~;;
    s <~ lift getState ;;
    device (LiveConnect (AppState.systemInstruction s)) ~;;
    match answer with
    | None =>
      lift (putSession
              (Some {| LiveSession.systemInstruction := AppState.systemInstruction s |})) ~;;
      lift (updateStatus "Sessão pronta.") ~;;
      lift (logEvent "Sessão de áudio estabelecida." success)
    | Some e => lift (handleError e "Falha ao iniciar a sessão")
    end
  end.

(** [startRecording]; [answer] is as in [initSession] and [microphone] is
    what [audioService.start()] does. *)
Definition startRecording (answer microphone : option JsError) : M' unit :=
  s <~ lift getState ;;
  if AppState.isRecording s then unit_ tt
  else
    h <~ lift getSession ;;
    (match h with
     | None => lift (updateStatus "Iniciando sessão...") ~;; initSession answer
     | Some _ => unit_ tt
     end) ~;;
    lift (setState [Set_searchResults []]) ~;;
    lift (updateStatus "Pedindo acesso ao microfone...") ~;;
    device AudioStart ~;;
    match microphone with
    | None =>
      lift (setState [Set_isRecording true; Set_status "Escutando..."]) ~;;
      lift (logEvent "Gravação iniciada." record)
    | Some err =>
      lift (handleError err "Erro ao iniciar gravação") ~;;
      lift stopRecording
    end.

(** The callback [onInputAudio] given to the audio service. *)
Definition onInputAudio (blob : string) : M' unit :=
  s <~ lift getState ;;
  h <~ lift getSession ;;
  match h with
  | Some _ => if AppState.isRecording s then device (SendRealtimeInput blob) else unit_ tt
  | None => unit_ tt
  end.

(** [deleteSearchHistoryItem]; the write to [localStorage] succeeds. *)
Definition deleteSearchHistoryItem (searchId : string) : M' unit :=
  s <~ lift getState ;;
  let searchHistory :=
    filter (fun x => negb (SearchHistoryItem.id x =? searchId)) (AppState.searchHistory s) in
  lift (setState [Set_searchHistory searchHistory]) ~;;
  device (StorageSetSearchHistory searchHistory) ~;;
  lift (logEvent "Pesquisa excluída do histórico." history).

End Voice.

(** ** A reference host

    An implementation of the interface [Platform], used where a property
    is evaluated on a concrete input.  [JSON_parse] follows the JSON
    grammar, [atob] the forgiving base64 decoding, [escape] and
    [decodeURIComponent] the percent encoding and its strict UTF-8
    decoding.  Three fields are stand-ins that the evaluated inputs do not
    reach: a number renders as its lexeme (exact for an unsigned decimal
    integer below 2^53), [base64ToString] is the decoding the single form
    performs inline, applied to strings only, and the clock always shows
    noon.  A lone surrogate escape [\uD800..\uDFFF] is kept as its
    three-byte generalised encoding. *)
Module Reference.

Definition isChar (c : ascii) (x : string) : bool :=
  match x with String d EmptyString => Ascii.eqb c d | _ => false end.

Definition jsonWhite (c : ascii) : bool :=
  ((code c =? 32) || (code c =? 9) || (code c =? 10) || (code c =? 13))%N.

Fixpoint skipWhite (s : string) : string :=
  match s with
  | String c r => if jsonWhite c then skipWhite r else s
  | EmptyString => s
  end.

Definition hexValue (c : ascii) : option N :=
  let n := code c in
  if ((48 <=? n) && (n <=? 57))%N then Some (n - 48)%N
  else if ((65 <=? n) && (n <=? 70))%N then Some (n - 55)%N
  else if ((97 <=? n) && (n <=? 102))%N then Some (n - 87)%N
  else None.

Definition byte (n : N) : string := String (ascii_of_N n) EmptyString.

(** The UTF-8 encoding of a code point. *)
Definition utf8 (cp : N) : string :=
  (if cp <? 128 then byte cp
   else if cp <? 2048 then byte (192 + cp / 64) ++ byte (128 + cp mod 64)
   else if cp <? 65536 then
     byte (224 + cp / 4096) ++ byte (128 + (cp / 64) mod 64) ++ byte (128 + cp mod 64)
   else
     byte (240 + cp / 262144) ++ byte (128 + (cp / 4096) mod 64) ++
     byte (128 + (cp / 64) mod 64) ++ byte (128 + cp mod 64))%N.

Definition flush (pending : option N) : string :=
  match pending with Some hi => utf8 hi | None => "" end.

Definition prepend (text : string) (p : option (string * string)) : option (string * string) :=
  option_map (fun p => (text ++ fst p, snd p)) p.

(** The characters of a string literal after its opening quote, and what
    follows the closing quote; [pending] is a high surrogate read from an
    escape and not yet paired. *)
Fixpoint stringBody (pending : option N) (s : string) : option (string * string) :=
  match s with
  | EmptyString => None
  | String c r =>
    if Ascii.eqb c (ascii_of_nat 34) then Some (flush pending, r)
    else if isChar c "\" then
      match r with
      | EmptyString => None
      | String e r1 =>
        if Ascii.eqb e (ascii_of_nat 34) then prepend (flush pending ++ dq) (stringBody None r1)
        else if isChar e "\" then prepend (flush pending ++ "\") (stringBody None r1)
        else if isChar e "/" then prepend (flush pending ++ "/") (stringBody None r1)
        else if isChar e "b" then prepend (flush pending ++ byte 8) (stringBody None r1)
        else if isChar e "f" then prepend (flush pending ++ byte 12) (stringBody None r1)
        else if isChar e "n" then prepend (flush pending ++ byte 10) (stringBody None r1)
        else if isChar e "r" then prepend (flush pending ++ byte 13) (stringBody None r1)
        else if isChar e "t" then prepend (flush pending ++ byte 9) (stringBody None r1)
        else if isChar e "u" then
          match r1 with
          | String h1 (String h2 (String h3 (String h4 r2))) =>
            match hexValue h1, hexValue h2, hexValue h3, hexValue h4 with
            | Some a, Some b, Some c', Some d =>
              let u := (a * 4096 + b * 256 + c' * 16 + d)%N in
              if ((55296 <=? u) && (u <=? 56319))%N then
                prepend (flush pending) (stringBody (Some u) r2)
              else if ((56320 <=? u) && (u <=? 57343))%N then
                match pending with
                | Some hi =>
                  prepend (utf8 (65536 + (hi - 55296) * 1024 + (u - 56320))%N)
                          (stringBody None r2)
                | None => prepend (utf8 u) (stringBody None r2)
                end
              else prepend (flush pending ++ utf8 u) (stringBody None r2)
            | _, _, _, _ => None
            end
          | _ => None
          end
        else None
      end
    else if (code c <? 32)%N then None
    else prepend (flush pending ++ String c EmptyString) (stringBody None r)
  end.

(** A number: its lexeme and what follows. *)
Definition number (s : string) : option (string * string) :=
  let (sign, s0) :=
    match s with
    | String c r => if isChar c "-" then ("-", r) else ("", s)
    | EmptyString => ("", s)
    end in
  let (int, s1) := span isDigit s0 in
  let leadingZero :=
    match int with
    | String c (String _ _) => isChar c "0"
    | _ => false
    end in
  if negb (nonEmpty int) || leadingZero then None
  else
    let fraction :=
      match s1 with
      | String c r =>
        if isChar c "." then
          let (digits, s2) := span isDigit r in
          if nonEmpty digits then Some ("." ++ digits, s2) else None
        else Some ("", s1)
      | EmptyString => Some ("", s1)
      end in
    match fraction with
    | None => None
    | Some (frac, s2) =>
      let exponent :=
        match s2 with
        | String c r =>
          if isChar c "e" || isChar c "E" then
            let (esign, r') :=
              match r with
              | String d r' =>
                if isChar d "+" || isChar d "-" then (String d EmptyString, r') else ("", r)
              | EmptyString => ("", r)
              end in
            let (digits, s3) := span isDigit r' in
            if nonEmpty digits then Some (String c esign ++ digits, s3) else None
          else Some ("", s2)
        | EmptyString => Some ("", s2)
        end in
      match exponent with
      | None => None
      | Some (ex, s3) => Some (sign ++ int ++ frac ++ ex, s3)
      end
    end.

(** A JSON value at the head of [s] (after white space), and what
    follows; [fuel] bounds the number of nested and sibling values. *)
Fixpoint value (fuel : nat) (s : string) {struct fuel} : option (json * string) :=
  match fuel with
  | 0 => None
  | S fuel =>
    match skipWhite s with
    | EmptyString => None
    | String c r as s' =>
      if isChar c "{" then
        match skipWhite r with
        | String d r' =>
          if isChar d "}" then Some (JObj [], r')
          else option_map (fun p => (JObj (fst p), snd p)) (members fuel r)
        | EmptyString => None
        end
      else if isChar c "[" then
        match skipWhite r with
        | String d r' =>
          if isChar d "]" then Some (JArr [], r')
          else option_map (fun p => (JArr (fst p), snd p)) (elements fuel r)
        | EmptyString => None
        end
      else if Ascii.eqb c (ascii_of_nat 34) then
        option_map (fun p => (JStr (fst p), snd p)) (stringBody None r)
      else
        match stripPrefix "true" s', stripPrefix "false" s', stripPrefix "null" s' with
        | Some r', _, _ => Some (JBool true, r')
        | _, Some r', _ => Some (JBool false, r')
        | _, _, Some r' => Some (JNull, r')
        | None, None, None =>
          option_map (fun p => (JNum (fst p), snd p)) (number s')
        end
    end
  end
with elements (fuel : nat) (s : string) {struct fuel} : option (list json * string) :=
  match fuel with
  | 0 => None
  | S fuel =>
    match value fuel s with
    | None => None
    | Some (v, r) =>
      match skipWhite r with
      | String c r' =>
        if isChar c "," then option_map (fun p => (v :: fst p, snd p)) (elements fuel r')
        else if isChar c "]" then Some ([v], r')
        else None
      | EmptyString => None
      end
    end
  end
with members (fuel : nat) (s : string) {struct fuel}
    : option (list (string * json) * string) :=
  match fuel with
  | 0 => None
  | S fuel =>
    match skipWhite s with
    | String q r =>
      if Ascii.eqb q (ascii_of_nat 34) then
        match stringBody None r with
        | None => None
        | Some (key, r1) =>
          match skipWhite r1 with
          | String c r2 =>
            if isChar c ":" then
              match value fuel r2 with
              | None => None
              | Some (v, r3) =>
                match skipWhite r3 with
                | String d r4 =>
                  if isChar d "," then
                    option_map (fun p => ((key, v) :: fst p, snd p)) (members fuel r4)
                  else if isChar d "}" then Some ([(key, v)], r4)
                  else None
                | EmptyString => None
                end
              end
            else None
          | EmptyString => None
          end
        end
      else None
    | EmptyString => None
    end
  end.

Definition parse (text : string) : res json :=
  match value (2 * String.length text + 2) text with
  | Some (v, r) =>
    match skipWhite r with
    | EmptyString => Ok v
    | String _ _ => Throw SyntaxError
    end
  | None => Throw SyntaxError
  end.

(** [atob]: forgiving base64 decoding. *)
Definition base64Value (c : ascii) : option N :=
  let n := code c in
  if ((65 <=? n) && (n <=? 90))%N then Some (n - 65)%N
  else if ((97 <=? n) && (n <=? 122))%N then Some (n - 71)%N
  else if ((48 <=? n) && (n <=? 57))%N then Some (n + 4)%N
  else if (n =? 43)%N then Some 62%N
  else if (n =? 47)%N then Some 63%N
  else None.

Definition asciiWhite (c : ascii) : bool :=
  let n := code c in
  ((n =? 9) || (n =? 10) || (n =? 12) || (n =? 13) || (n =? 32))%N.

Fixpoint withoutWhite (s : string) : list ascii :=
  match s with
  | EmptyString => []
  | String c r => if asciiWhite c then withoutWhite r else c :: withoutWhite r
  end.

(** One or two [=] at the end of a text whose length is a multiple of 4. *)
Definition withoutPadding (l : list ascii) : list ascii :=
  if Nat.eqb (Nat.modulo (List.length l) 4) 0 then
    match rev l with
    | a :: b :: r =>
      if isChar a "=" then (if isChar b "=" then rev r else rev (b :: r)) else l
    | _ => l
    end
  else l.

Fixpoint sextets (l : list ascii) : option (list N) :=
  match l with
  | [] => Some []
  | c :: r =>
    match base64Value c, sextets r with
    | Some v, Some vs => Some (v :: vs)
    | _, _ => None
    end
  end.

Fixpoint octets (fuel : nat) (l : list N) : string :=
  match fuel with
  | 0 => ""
  | S fuel =>
    match l with
    | a :: b :: c :: d :: r =>
      (byte (a * 4 + b / 16) ++ byte ((b mod 16) * 16 + c / 4) ++
       byte ((c mod 4) * 64 + d) ++ octets fuel r)%N
    | [a; b; c] => (byte (a * 4 + b / 16) ++ byte ((b mod 16) * 16 + c / 4))%N
    | [a; b] => byte (a * 4 + b / 16)%N
    | _ => ""
    end
  end.

Definition forgivingBase64 (data : string) : res string :=
  let l := withoutPadding (withoutWhite data) in
  if Nat.eqb (Nat.modulo (List.length l) 4) 1 then Throw InvalidCharacterError
  else
    match sextets l with
    | Some v => Ok (octets (List.length v) v)
    | None => Throw InvalidCharacterError
    end.

Definition hexDigit (n : N) : string :=
  byte (if n <? 10 then 48 + n else 55 + n)%N.

Definition unescaped (c : ascii) : bool :=
  let n := code c in
  ((48 <=? n) && (n <=? 57) || (65 <=? n) && (n <=? 90) || (97 <=? n) && (n <=? 122)
   || (n =? 64) || (n =? 42) || (n =? 95) || (n =? 43) || (n =? 45) || (n =? 46)
   || (n =? 47))%N.

(** [escape], on a binary string. *)
Fixpoint percentEscape (s : string) : string :=
  match s with
  | EmptyString => ""
  | String c r =>
    (if unescaped c then String c EmptyString
     else "%" ++ hexDigit (code c / 16) ++ hexDigit (code c mod 16)) ++ percentEscape r
  end.

(** [decodeURIComponent]: a percent escape stands for one byte, and the
    bytes above 127 must form well-formed UTF-8.  [need] continuation
    bytes are still due, the next one within [lo..hi]. *)
Fixpoint decode (need : nat) (lo hi : N) (s : string) : res string :=
  match s with
  | EmptyString => match need with 0 => Ok "" | S _ => Throw URIError end
  | String c r =>
    if isChar c "%" then
      match r with
      | String h1 (String h2 r') =>
        match hexValue h1, hexValue h2 with
        | Some a, Some b =>
          let n := (a * 16 + b)%N in
          let next (need : nat) (lo hi : N) :=
            bindRes (decode need lo hi r') (fun t => Ok (byte n ++ t)) in
          match need with
          | S k =>
            if ((lo <=? n) && (n <=? hi))%N then next k 128%N 191%N
            else Throw URIError
          | 0 =>
            if (n <? 128)%N then next 0 128%N 191%N
            else if ((194 <=? n) && (n <=? 223))%N then next 1 128%N 191%N
            else if (n =? 224)%N then next 2 160%N 191%N
            else if (n =? 237)%N then next 2 128%N 159%N
            else if ((225 <=? n) && (n <=? 239))%N then next 2 128%N 191%N
            else if (n =? 240)%N then next 3 144%N 191%N
            else if (n =? 244)%N then next 3 128%N 143%N
            else if ((241 <=? n) && (n <=? 243))%N then next 3 128%N 191%N
            else Throw URIError
          end
        | _, _ => Throw URIError
        end
      | _ => Throw URIError
      end
    else
      match need with
      | S _ => Throw URIError
      | 0 => bindRes (decode 0 128%N 191%N r) (fun t => Ok (String c t))
      end
  end.

Definition percentDecode (s : string) : res string := decode 0 128%N 191%N s.

Fixpoint mantissaNonZero (lexeme : string) : bool :=
  match lexeme with
  | EmptyString => false
  | String c r =>
    if isChar c "e" || isChar c "E" then false
    else ((49 <=? code c) && (code c <=? 57))%N || mantissaNonZero r
  end.

#[export] Instance host : Platform := {|
  JSON_parse := parse;
  atob := forgivingBase64;
  escape := percentEscape;
  decodeURIComponent := percentDecode;
  base64ToString := fun v =>
    match v with
    | JStr s => bindRes (forgivingBase64 s) (fun binary => percentDecode (percentEscape binary))
    | _ => Throw TypeError
    end;
  Number_truthy := mantissaNonZero;
  Number_toString := fun lexeme => lexeme;
  toLocaleTimeString := fun _ => "12:00:00"
|}.

End Reference.

(** * The vocabulary of the properties *)

Section Vocabulary.
Context {host : Platform}.

(** The role and the text of a message. *)
Definition toContent (m : ChatMessage.t) : Content.t :=
  {| Content.role := ChatMessage.role m; Content.text := ChatMessage.text m |}.

(** A message carries image payloads when [imageUrls] holds an image. *)
Definition carriesImages (m : ChatMessage.t) : bool :=
  match ChatMessage.imageUrls m with
  | Some (_ :: _) => true
  | _ => false
  end.

(** The seed history the rebuilt session received. *)
Definition seedOfRebuild (svc : Service.t) : option (list Content.t) :=
  option_map Chat.history (Service.textChatSession (exec initializeTextChat svc)).

(** C9 as the specification words it: the seed is the prior history
    without the messages that carry image payloads. *)
Definition seed_excludes_image_messages (svc : Service.t) : Prop :=
  seedOfRebuild svc =
  Some (map toContent
          (filter (fun m => negb (carriesImages m))
                  (AppState.chatHistory (Service.state svc)))).

(** The value whose rendering the composer puts in the knowledge block of
    [a]: the summary itself, or for a workflow what was decoded from it. *)
Definition knowledgeOf (analyses : list Analysis.t) (a : Analysis.t) : json :=
  match analyses with
  | [_] =>
    match Analysis.persona a, Analysis.type a with
    | assistant, workflow => workflowSummary (Analysis.summary a)
    | _, _ => JStr (Analysis.summary a)
    end
  | _ => contentSummary a
  end.

(** The analyses whose [summary] field is copied as it is. *)
Definition copiedVerbatim (analyses : list Analysis.t) (a : Analysis.t) : Prop :=
  Analysis.type a <> workflow \/
  (analyses = [a] /\ Analysis.persona a = analyst).

(** How both delimiters that open a knowledge block begin
    ([--- INÍCIO DO CONHECIMENTO ---], [--- INÍCIO DA FONTE n: ...]). *)
Definition knowledgeMarker : string := "--- INÍCIO D".

(** C5 as the specification words it: the instruction composed for a list
    of one or more analyses holds the title and the summary of each. *)
Definition instruction_holds_every_summary
    (analyses : list Analysis.t) (persona : option string) : Prop :=
  exists out,
    generateCompositeSystemInstruction analyses persona = Ok out /\
    forall a, In a analyses ->
      Contains (Analysis.title a) out /\ Contains (Analysis.summary a) out.

(** The text of a chunk as the loop sees it: nothing when [chunk.text] is
    [undefined] or empty. *)
Definition fragment (chunk : Chunk.t) : string :=
  match Chunk.text chunk with Some t => t | None => "" end.

(** The raw text a list of chunks assembles. *)
Fixpoint buffer (chunks : list Chunk.t) : string :=
  match chunks with
  | [] => ""
  | chunk :: rest => fragment chunk ++ buffer rest
  end.

(** The directive the loop reads in a buffer: a match of the generate
    grammar if there is one, else a match of the edit grammar. *)
Definition directiveIn (text : string) : option Directive :=
  match generateRegex text with
  | Some m => Some (GenerateImages (snd (groups m)) (parseInt (fst (groups m))))
  | None =>
    match editRegex text with
    | Some m => Some (EditImage (groups m))
    | None => None
    end
  end.

(** The directives handed to the image job runner, in order. *)
Definition dispatched (t : list Event) : list Directive :=
  flat_map (fun e => match e with Dispatch d => [d] | _ => [] end) t.

(** The turn is accepted: the guard of [sendTextMessage] lets it pass. *)
Definition accepted (svc : Service.t) (message : string) : Prop :=
  Service.textChatSession svc <> None /\
  AppState.isChatting (Service.state svc) = false /\
  trim message <> "".

(** What the [catch] block appends to the text of the assistant message. *)
Definition failureSuffix (failure : option JsError) : string :=
  match failure with
  | None => ""
  | Some err => "

**Desculpe, ocorreu um erro:** " ++ messageOrUnknown err
  end.

(** The service with another chat history. *)
Definition withHistory (h : list ChatMessage.t) (svc : Service.t) : Service.t :=
  {| Service.state := assign (Set_chatHistory h) (Service.state svc);
     Service.session := Service.session svc;
     Service.textChatSession := Service.textChatSession svc;
     Service.trace := Service.trace svc;
     Service.clockReads := Service.clockReads svc |}.

(** The service when the stream starts: the user message and an empty
    assistant message are in the history and the message has been sent. *)
Definition opened (svc : Service.t) (message : string) : Service.t :=
  exec (setState [Set_isChatting true;
                  Set_chatHistory (AppState.chatHistory (Service.state svc) ++
                                   [plainMessage user message]);
                  Set_searchResults []] ;;
        call (SendMessageStream message) ;;
        s <- getState ;;
        setState [Set_chatHistory (AppState.chatHistory s ++ [plainMessage model ""])])
       svc.

(** The end of the turn: the [catch] block or the last [setState]. *)
Definition settle (failure : option JsError) (turn : Turn.t) : M unit :=
  match failure with
  | None => setState [Set_isChatting false;
                      Set_searchResults (Turn.allSearchResults turn)]
  | Some err => chatFailed err
  end.

(** The local variables when the loop starts. *)
Definition freshTurn : Turn.t :=
  {| Turn.accumulatedText := ""; Turn.allSearchResults := [];
     Turn.commandProcessed := false |}.

(** [emits jobs m Q]: from any service, [m] returns a value satisfying [Q]
    and hands exactly [jobs] to the image job runner. *)
Definition emits {A} (jobs : list Directive) (m : M A) (Q : A -> Prop) : Prop :=
  forall svc, exists svc' a,
    m svc = (svc', Ok a) /\
    dispatched (Service.trace svc') = (dispatched (Service.trace svc) ++ jobs)%list /\
    Q a.

(** The postcondition that asks nothing. *)
Definition any {A} : A -> Prop := fun _ => True.

Definition optlist {A} (o : option A) : list A :=
  match o with Some a => [a] | None => [] end.

(** The first directive a stream completes, scanning the buffer after
    each chunk. *)
Fixpoint firstDirective (text : string) (chunks : list Chunk.t) : option Directive :=
  match chunks with
  | [] => None
  | chunk :: rest =>
    match directiveIn (text ++ fragment chunk) with
    | Some d => Some d
    | None => firstDirective (text ++ fragment chunk) rest
    end
  end.

(** C2 as the specification words it, for the case it singles out: when
    the buffer that completes the first directive holds a match of each
    grammar and the edit match starts first, the edit directive is the
    one dispatched. *)
Definition earliest_match_is_dispatched
    (svc : Service.t) (message : string) (chunks : list Chunk.t) : Prop :=
  forall k g e,
    (forall j, j < k -> directiveIn (buffer (firstn j chunks)) = None) ->
    generateRegex (buffer (firstn k chunks)) = Some g ->
    editRegex (buffer (firstn k chunks)) = Some e ->
    String.length (before e) < String.length (before g) ->
    dispatched (Service.trace (exec (sendTextMessage message (Stream chunks None)) svc)) =
    (dispatched (Service.trace svc) ++ [EditImage (groups e)])%list.

(** What the composer is asked for in a state. *)
Definition composed (s : AppState.t) : res string :=
  generateCompositeSystemInstruction (relevantAnalyses s) (AppState.activePersona s).

(** Calls [resetSession] makes before it rebuilds the text session. *)
Definition teardown (svc : Service.t) : list Event :=
  ((if AppState.isRecording (Service.state svc) then [AudioStop] else []) ++
   (match Service.session svc with Some _ => [LiveClose] | None => [] end))%list.

(** The service right after the new selection is stored, before the
    instruction is recomputed. *)
Definition selecting (id : option string) (svc : Service.t) : Service.t :=
  exec (setState [Set_selectedAnalysisId id; Set_chatHistory [];
                  Set_lastGeneratedImages []] ;;
        updateVisualizerPanelVisibility) svc.


(** Record ids are not empty.  The code reads an id as a boolean
    ([l[0]?.id || null], [if (selectedAnalysisId)]), so an empty id
    counts as no id; the ids it makes itself are [Date.now().toString()]. *)
Definition idsNotEmpty (l : list Analysis.t) : Prop :=
  Forall (fun a => Analysis.id a <> "") l.

(** The service once the record is taken out and the event is logged. *)
Definition removing (idToRemove : string) (svc : Service.t) : Service.t :=
  exec (setState [Set_analyses
                    (filter (fun a => negb (Analysis.id a =? idToRemove))
                            (AppState.analyses (Service.state svc)))] ;;
        logEvent "Contexto removido." info) svc.

(** The session [saveCurrentSession] stores for a state. *)
Definition sessionOf (answer : option string) (now : string) (s : AppState.t)
    : SavedSession.t :=
  {| SavedSession.id := now;
     SavedSession.title := orElse answer "Sessão Salva";
     SavedSession.analyses := AppState.analyses s;
     SavedSession.timelineEvents := AppState.timelineEvents s;
     SavedSession.systemInstruction := AppState.systemInstruction s;
     SavedSession.searchResults := AppState.searchResults s;
     SavedSession.activePersona := AppState.activePersona s |}.

(** The service once the fields of the session are assigned in place. *)
Definition loading (session : SavedSession.t) (svc : Service.t) : Service.t :=
  exec (putState (fold_left (fun s a => assign a s)
          [Set_analyses (SavedSession.analyses session);
           Set_timelineEvents (SavedSession.timelineEvents session);
           Set_searchResults (SavedSession.searchResults session);
           Set_activePersona (SavedSession.activePersona session);
           Set_showHistoryModal false] (Service.state svc))) svc.



(** A call of one of the two setters. *)
Inductive Call : Type :=
| CallSetSelectedAnalysisId (id : option string)
| CallSetPersona (persona : option string).

Definition perform (c : Call) : M unit :=
  match c with
  | CallSetSelectedAnalysisId id => setSelectedAnalysisId id
  | CallSetPersona persona => setPersona persona
  end.

(** The services after each call of a sequence. *)
Fixpoint afterEach (calls : list Call) (svc : Service.t) : list Service.t :=
  match calls with
  | [] => []
  | c :: rest => let svc' := exec (perform c) svc in svc' :: afterEach rest svc'
  end.

(** The store filtered by the selection, in the words of the
    specification: the selected analysis alone when the selected id is not
    [null] and is in the store, nothing otherwise. *)
Definition selectionFilter (analyses : list Analysis.t) (selected : option string)
    : list Analysis.t :=
  match selected with
  | None => []
  | Some id =>
    match find (fun a => Analysis.id a =? id) analyses with
    | Some a => [a]
    | None => []
    end
  end.

(** The instruction in the state is the one composed from the current
    store, selection and persona. *)
Definition inSync (svc : Service.t) : Prop :=
  let s := Service.state svc in
  generateCompositeSystemInstruction
    (selectionFilter (AppState.analyses s) (AppState.selectedAnalysisId s))
    (AppState.activePersona s) =
  Ok (AppState.systemInstruction s).

(** C1 as the specification words it. *)
Definition never_stale (svc : Service.t) (calls : list Call) : Prop :=
  Forall inSync (afterEach calls svc).

(** The composer returns on each record of the store. *)
Definition renders (analyses : list Analysis.t) : Prop :=
  forall a, In a analyses -> exists out, getSingleSystemInstruction a = Ok out.

(** The service once the persona is stored and the change is logged. *)
Definition settingPersona (persona : option string) (svc : Service.t) : Service.t :=
  exec (setState [Set_activePersona persona; Set_chatHistory []] ;;
        logEvent ("Persona alterada para: " ++ orElse persona "Padrão") info) svc.

End Vocabulary.

(** * The vocabulary of the further properties *)

Section Coverage.
Context {host : Platform}.

(** The chat history is [earlier] followed by one assistant message. *)
Definition answering (earlier : list ChatMessage.t) (s : AppState.t) : Prop :=
  exists m, AppState.chatHistory s = (earlier ++ [m])%list /\ ChatMessage.role m = model.

(** From a service whose state has the property [Inv], [m] returns a value
    with the property [Q] and leaves a state with the property [Inv]. *)
Definition keeps {A} (Inv : AppState.t -> Prop) (m : M A) (Q : A -> Prop) : Prop :=
  forall svc, Inv (Service.state svc) ->
  exists svc' a, m svc = (svc', Ok a) /\ Inv (Service.state svc') /\ Q a.

(** The pages the chunks of a stream cite, in order, with repetitions. *)
Definition citedBy (chunk : Chunk.t) : list string :=
  match Chunk.groundingChunks chunk with
  | None => []
  | Some groundingChunks =>
    flat_map (fun c => match c with Some web => [Web.uri web] | None => [] end)
             groundingChunks
  end.

Definition cited (chunks : list Chunk.t) : list string := flat_map citedBy chunks.

(** The entry [logEvent] writes at the [k]-th reading of the clock. *)
Definition logged (k : nat) (message : string) (type : EventType) : TimelineEvent.t :=
  {| TimelineEvent.timestamp := toLocaleTimeString k;
     TimelineEvent.message := message;
     TimelineEvent.type := type |}.

(** The service after [r]: the instruction is [out], both connections are
    rebuilt on it (the voice session is left closed, the text session is
    seeded with the chat history), and the store, the selection, the
    persona and the chat history are those of [svc]. *)
Definition refreshed (r : Service.t * res unit) (svc : Service.t) (out : string) : Prop :=
  let s := Service.state svc in
  let s' := Service.state (fst r) in
  snd r = Ok tt /\
  AppState.systemInstruction s' = out /\
  AppState.analyses s' = AppState.analyses s /\
  AppState.selectedAnalysisId s' = AppState.selectedAnalysisId s /\
  AppState.activePersona s' = AppState.activePersona s /\
  AppState.chatHistory s' = AppState.chatHistory s /\
  AppState.lastGeneratedImages s' = AppState.lastGeneratedImages s /\
  Service.session (fst r) = None /\
  Service.textChatSession (fst r) =
    Some {| Chat.history := seedHistory (AppState.chatHistory s);
            Chat.systemInstruction := out |}.

(** Every byte of [s] satisfies [f]. *)
Fixpoint every (f : ascii -> bool) (s : string) : bool :=
  match s with
  | EmptyString => true
  | String c r => f c && every f r
  end.




(** What may stand between the colon and the quote of a directive, a
    count and a prompt. *)
Definition isGap (gap : string) : Prop := allWhite gap = true.
Definition isCount (digits : string) : Prop := digits <> "" /\ every isDigit digits = true.
Definition isPrompt (prompt : string) : Prop := prompt <> "" /\ every notQuote prompt = true.

(** The calls of the second group, in order. *)
Definition deviceCalls (w : Runtime.t) : list Device := map snd (Runtime.devices w).

(** The two connections and the instruction in the state. *)
Definition wiring (svc : Service.t) : option LiveSession.t * option Chat.t * string :=
  (Service.session svc, Service.textChatSession svc,
   AppState.systemInstruction (Service.state svc)).

(** Each connection that is open was given the instruction in the state. *)
Definition connected (svc : Service.t) : Prop :=
  (forall h, Service.session svc = Some h ->
     LiveSession.systemInstruction h = AppState.systemInstruction (Service.state svc)) /\
  (forall c, Service.textChatSession svc = Some c ->
     Chat.systemInstruction c = AppState.systemInstruction (Service.state svc)).

(** [m] leaves the connections and the instruction as they are, however
    it ends. *)
Definition untouched {A} (m : M A) : Prop :=
  forall svc, wiring (fst (m svc)) = wiring svc.

(** An update that does not assign [systemInstruction]. *)
Definition plain (a : Assign) : bool :=
  match a with Set_systemInstruction _ => false | _ => true end.

(** The calls a user of the service can make, with what the collaborators
    answer. *)
Inductive Operation : Type :=
| DoSetSelectedAnalysisId (id : option string)
| DoSetPersona (persona : option string)
| DoRemoveAnalysis (idToRemove : string)
| DoUpdateAnalysisSummary (analysisId newSummary : string)
| DoInsertImageIntoAnalysis (imageUrl : string)
| DoResetSession (clearAnalyses : bool)
| DoStartRecording (answer microphone : option JsError)
| DoStopRecording
| DoSendTextMessage (message : string) (reply : Reply)
| DoSaveCurrentSession (answer : option string) (now : string)
| DoLoadSession (sessionId : string)
| DoDeleteSession (sessionId : string)
| DoDeleteSearchHistoryItem (searchId : string).

Definition operate (op : Operation) : M' unit :=
  match op with
  | DoSetSelectedAnalysisId id => lift (setSelectedAnalysisId id)
  | DoSetPersona persona => lift (setPersona persona)
  | DoRemoveAnalysis idToRemove => lift (removeAnalysis idToRemove)
  | DoUpdateAnalysisSummary analysisId newSummary =>
    lift (updateAnalysisSummary analysisId newSummary)
  | DoInsertImageIntoAnalysis imageUrl => lift (insertImageIntoAnalysis imageUrl)
  | DoResetSession clearAnalyses => lift (resetSession_with clearAnalyses)
  | DoStartRecording answer microphone => startRecording answer microphone
  | DoStopRecording => lift stopRecording
  | DoSendTextMessage message reply => lift (sendTextMessage message reply)
  | DoSaveCurrentSession answer now => lift (saveCurrentSession answer now)
  | DoLoadSession sessionId => lift (loadSession sessionId)
  | DoDeleteSession sessionId => lift (deleteSession sessionId)
  | DoDeleteSearchHistoryItem searchId => deleteSearchHistoryItem searchId
  end.

(** The service after a sequence of calls; a call that throws leaves the
    service as it was when the exception was raised. *)
Definition afterCalls (ops : list Operation) (w : Runtime.t) : Runtime.t :=
  fold_left (fun w op => fst (operate op w)) ops w.

(** A new service with nothing logged yet. *)
Definition started (savedSessions : list SavedSession.t)
    (searchHistory : list SearchHistoryItem.t) : Runtime.t :=
  {| Runtime.service := constructor savedSessions searchHistory; Runtime.devices := [] |}.

End Coverage.

(** * Concrete inputs, on the reference host *)

Definition report : Analysis.t :=
  {| Analysis.id := "a1"; Analysis.title := "Relatório trimestral";
     Analysis.source := "relatorio.pdf";
     Analysis.summary := "As vendas cresceram 12% no trimestre.";
     Analysis.type := file; Analysis.persona := assistant;
     Analysis.previewData := None; Analysis.tags := None |}.

Definition lecture : Analysis.t :=
  {| Analysis.id := "a2"; Analysis.title := "Aula de cálculo";
     Analysis.source := "https://youtu.be/xyz";
     Analysis.summary := "A aula apresenta limites e derivadas.";
     Analysis.type := youtube; Analysis.persona := assistant;
     Analysis.previewData := None; Analysis.tags := None |}.

(** A workflow analysis whose summary is not JSON. *)
Definition brokenWorkflow : Analysis.t :=
  {| Analysis.id := "w1"; Analysis.title := "Fluxo de e-mails";
     Analysis.source := "https://youtu.be/abc";
     Analysis.summary := "resumo ilegível";
     Analysis.type := workflow; Analysis.persona := assistant;
     Analysis.previewData := None; Analysis.tags := None |}.

(** A workflow analysis whose envelope holds, under [summary], an object
    with a member named [toString]. *)
Definition unprintableWorkflow : Analysis.t :=
  {| Analysis.id := "w2"; Analysis.title := "Fluxo de e-mails";
     Analysis.source := "https://youtu.be/abc";
     Analysis.summary :=
       "{" ++ dq ++ "summary" ++ dq ++ ":{" ++ dq ++ "toString" ++ dq ++ ":0}}";
     Analysis.type := workflow; Analysis.persona := assistant;
     Analysis.previewData := None; Analysis.tags := None |}.

(** A new service, and one with two analyses of which the first is
    selected (what [analyzeContent] leaves behind). *)
Definition ready : Service.t := constructor (host := Reference.host) [] [].

Definition withReport : Service.t :=
  exec (setState [Set_analyses [report; lecture]] ;;
        setSelectedAnalysisId (host := Reference.host) (Some "a1")) ready.

Definition textChunk (t : string) : Chunk.t :=
  {| Chunk.text := Some t; Chunk.groundingChunks := None |}.

Definition illustrated : Service.t :=
  exec (setState [Set_chatHistory
    [plainMessage user "desenhe um gato";
     {| ChatMessage.role := model; ChatMessage.text := "Claro, aqui está:";
        ChatMessage.imageUrls := Some ["data:image/png;base64,iVBORw0KGgo="];
        ChatMessage.isLoadingImages := Some false;
        ChatMessage.imageCount := Some 1%N |}]]) ready.


Definition malformedStream : list Chunk.t :=
  [textChunk "Claro: [generate_"; textChunk "images(x): 'cats"; textChunk "']"].

Definition editThenGenerate : list Chunk.t :=
  [textChunk "[edit_image: 'add a hat'] [generate_images(1): 'a cat']"].

Definition twoCats : list Chunk.t :=
  [textChunk "Olá! [generate_images(2): 'two cats"; textChunk " playing']"].

Definition tutorSession : SavedSession.t :=
  {| SavedSession.id := "s1"; SavedSession.title := "Aulas";
     SavedSession.analyses := []; SavedSession.timelineEvents := [];
     SavedSession.systemInstruction := ""; SavedSession.searchResults := [];
     SavedSession.activePersona := Some "tutor" |}.

(** A new service that loaded a saved session with a persona and no
    analysis: the selection was and stays [null], so [loadSession]
    recomputed nothing and the instruction is the one without persona. *)
Definition reloaded : Service.t :=
  exec (loadSession (host := Reference.host) "s1")
       (constructor (host := Reference.host) [tutorSession] []).



(** A stream that cites one page twice and another once. *)
Definition citing : list Chunk.t :=
  [{| Chunk.text := Some "Segundo as fontes, ";
      Chunk.groundingChunks :=
        Some [Some {| Web.uri := "https://a.example"; Web.title := Some "A" |}; None] |};
   {| Chunk.text := Some "sim.";
      Chunk.groundingChunks :=
        Some [Some {| Web.uri := "https://b.example"; Web.title := None |};
              Some {| Web.uri := "https://a.example"; Web.title := Some "A, de novo" |}] |}].

(** A new service with nothing stored. *)
Definition fresh : Runtime.t := started (host := Reference.host) [] [].

(** * Properties *)

(** ** Strings and lists *)

Lemma append_assoc (a b c : string) : (a ++ b) ++ c = a ++ b ++ c.
Proof. induction a as [|x a IH]; simpl; [reflexivity | now rewrite IH]. Qed.

Lemma append_empty_r (a : string) : a ++ "" = a.
Proof. induction a as [|x a IH]; simpl; [reflexivity | now rewrite IH]. Qed.

Lemma stripPrefix_app (p r : string) : stripPrefix p (p ++ r) = Some r.
Proof.
  induction p as [|a p IH]; simpl; [reflexivity|].
  now rewrite Ascii.eqb_refl.
Qed.

Lemma stripPrefix_some (p s r : string) : stripPrefix p s = Some r -> s = p ++ r.
Proof.
  revert s; induction p as [|a p IH]; simpl; intros s E.
  - now inversion E.
  - destruct s as [|b s]; [discriminate|].
    destruct (Ascii.eqb_spec a b) as [->|]; [|discriminate].
    now rewrite (IH _ E).
Qed.

Lemma Contains_refl (x : string) : Contains x x.
Proof. exists "", "". simpl. now rewrite append_empty_r. Qed.

Lemma Contains_left (x a b : string) : Contains x a -> Contains x (a ++ b).
Proof.
  intros (pre & post & ->). exists pre, (post ++ b).
  now rewrite !append_assoc.
Qed.

Lemma Contains_right (x a b : string) : Contains x b -> Contains x (a ++ b).
Proof.
  intros (pre & post & ->). exists (a ++ pre), post.
  now rewrite !append_assoc.
Qed.

Lemma Contains_cons (x : string) (c : ascii) (h : string) :
  Contains x h -> Contains x (String c h).
Proof. apply (Contains_right x (String c "") h). Qed.

Lemma containsb_true (needle hay : string) :
  containsb needle hay = true -> Contains needle hay.
Proof.
  induction hay as [|c hay IH]; simpl.
  - destruct (stripPrefix needle "") as [r|] eqn:E; [|discriminate].
    intros _. apply stripPrefix_some in E. exists "", r. exact E.
  - destruct (stripPrefix needle (String c hay)) as [r|] eqn:E.
    + intros _. apply stripPrefix_some in E. exists "", r. exact E.
    + intros H. apply Contains_cons. now apply IH.
Qed.

Lemma containsb_false (needle hay : string) :
  containsb needle hay = false -> ~ Contains needle hay.
Proof.
  induction hay as [|c hay IH]; simpl.
  - destruct (stripPrefix needle "") eqn:E; [discriminate|].
    intros _ (pre & post & H).
    destruct pre; [|discriminate]. simpl in H.
    rewrite H, stripPrefix_app in E. discriminate.
  - destruct (stripPrefix needle (String c hay)) eqn:E; [discriminate|].
    intros H (pre & post & K).
    destruct pre as [|d pre]; simpl in K.
    + rewrite K, stripPrefix_app in E. discriminate.
    + inversion K; subst. apply (IH H). now exists pre, post.
Qed.

Lemma lastOf_snoc {A} (l : list A) (x : A) : lastOf (l ++ [x]) = Some x.
Proof.
  induction l as [|y l IH]; simpl; [reflexivity|].
  destruct (l ++ [x])%list eqn:E; [now destruct l | exact IH].
Qed.

Lemma onLast_snoc {A} (f : A -> A) (l : list A) (x : A) :
  onLast f (l ++ [x]) = (l ++ [f x])%list.
Proof.
  induction l as [|y l IH]; simpl; [reflexivity|].
  destruct (l ++ [x])%list eqn:E; [now destruct l | now rewrite IH].
Qed.

Section Properties.
Context {host : Platform}.

(** ** The guard of [sendTextMessage] *)

(** C10.  A message that is empty once trimmed, a turn already in flight
    or a missing text session make [sendTextMessage] return at once: the
    whole service, trace of calls included, is what it was. *)
Theorem sendTextMessage_guard_is_noop (svc : Service.t) (message : string) (reply : Reply) :
  trim message = "" \/
  AppState.isChatting (Service.state svc) = true \/
  Service.textChatSession svc = None ->
  sendTextMessage message reply svc = (svc, Ok tt).
Proof.
  intros G. unfold sendTextMessage, bind, getTextChatSession, getState.
  destruct G as [G | [G | G]]; rewrite G.
  - simpl. now rewrite !orb_true_r.
  - now rewrite orb_true_r.
  - reflexivity.
Qed.

(** ** The seed history of a rebuilt text session *)

(** C9, amended.  A rebuild hands [chats.create] the role and the text of
    exactly the messages whose text is not empty, in order; a message with
    images and a text is kept (its images are not forwarded), a message
    without text is dropped, and the chat history itself is left as it
    was. *)
Theorem seed_history_keeps_messages_with_text (svc : Service.t) :
  let chatHistory := AppState.chatHistory (Service.state svc) in
  let seed := map toContent (filter (fun m => nonEmpty (ChatMessage.text m)) chatHistory) in
  let svc' := exec initializeTextChat svc in
  seedOfRebuild svc = Some seed /\
  Service.trace svc' =
    (Service.trace svc ++
     [ChatsCreate seed (AppState.systemInstruction (Service.state svc))])%list /\
  AppState.chatHistory (Service.state svc') = chatHistory /\
  (forall m, In m chatHistory ->
     (In (toContent m) seed <-> ChatMessage.text m <> "")).
Proof.
  cbv zeta. repeat split; try reflexivity.
  - intros I. apply in_map_iff in I as (m' & E & I).
    apply filter_In in I as (_ & T).
    assert (ChatMessage.text m = ChatMessage.text m') as -> by (now inversion E).
    destruct (ChatMessage.text m'); [discriminate | congruence].
  - intros T. apply in_map, filter_In. split; [assumption|].
    destruct (ChatMessage.text m); [congruence | reflexivity].
Qed.

(** ** An edit with no image to edit *)


(** ** The composer *)

Lemma Ok_inj {A} (a b : A) : Ok a = Ok b -> a = b.
Proof. now intros [= ->]. Qed.

(** [E : Ok t = Ok out] replaces [out] by [t], leaving [t] as written. *)
Ltac returned E := apply Ok_inj in E; subst.

Ltac occurs :=
  lazymatch goal with
  | |- Contains ?x ?x => apply Contains_refl
  | |- Contains ?x (?a ++ ?b) =>
    first [ apply Contains_left; occurs | apply Contains_right; occurs ]
  | |- Contains ?x (String _ _) => apply Contains_cons; occurs
  | H : Contains ?x ?y |- Contains ?x ?y => exact H
  end.

Lemma knowledgeOf_verbatim (analyses : list Analysis.t) (a : Analysis.t) :
  copiedVerbatim analyses a -> knowledgeOf analyses a = JStr (Analysis.summary a).
Proof.
  unfold knowledgeOf, contentSummary. intros [T | [-> P]].
  - destruct analyses as [|x [|y l]];
      destruct (Analysis.type a); try congruence;
      destruct (Analysis.persona a); reflexivity.
  - now rewrite P.
Qed.

Lemma single_contents (a : Analysis.t) (out : string) :
  getSingleSystemInstruction a = Ok out ->
  Contains (Analysis.title a) out /\
  exists text, ToString (knowledgeOf [a] a) = Ok text /\ Contains text out.
Proof.
  unfold getSingleSystemInstruction, knowledgeOf.
  destruct (Analysis.persona a); [destruct (Analysis.type a)|].
  all: try (intros E; returned E; split;
            [occurs | eexists; split; [reflexivity | occurs]]).
  destruct (ToString (workflowSummary (Analysis.summary a))) as [text|] eqn:W;
    cbn [bindRes]; intros E; [|discriminate E].
  returned E. split; [occurs | exists text; split; [reflexivity | occurs]].
Qed.

Lemma forEachSource_contents (l : list Analysis.t) :
  forall (index : nat) (acc out : string),
  forEachSource index l acc = Ok out ->
  (forall x, Contains x acc -> Contains x out) /\
  (forall a, In a l ->
     Contains (Analysis.title a) out /\
     exists text, ToString (contentSummary a) = Ok text /\ Contains text out).
Proof.
  induction l as [|b l IH]; cbn [forEachSource In]; intros index acc out E.
  - returned E. split; [auto | contradiction].
  - destruct (ToString (contentSummary b)) as [text|] eqn:W; cbn [bindRes] in E;
      [|discriminate].
    destruct (IH _ _ _ E) as [Keep Rest]. split.
    + intros x C. apply Keep. occurs.
    + intros a [<- | I]; [|now apply Rest].
      split; [apply Keep; occurs | exists text; split; [assumption | apply Keep; occurs]].
Qed.

(** The prefix a persona contributes is one of five texts. *)
Lemma personaPrefix_cases (persona : option string) :
  personaPrefix persona = "" \/
  personaPrefix persona = personaPrefix (Some "tutor") \/
  personaPrefix persona = personaPrefix (Some "coding-engineer") \/
  personaPrefix persona = personaPrefix (Some "direct") \/
  personaPrefix persona = personaPrefix (Some "data-analyst").
Proof.
  destruct persona as [p|]; [|now left].
  unfold personaPrefix at 1. destruct (nonEmpty p); [|now left].
  unfold personaInstructions.
  destruct (String.eqb_spec p "tutor") as [->|]; [now (right; left)|].
  destruct (String.eqb_spec p "coding-engineer") as [->|]; [now (right; right; left)|].
  destruct (String.eqb_spec p "direct") as [->|]; [now (right; right; right; left)|].
  destruct (String.eqb_spec p "data-analyst") as [->|]; [now (right; right; right; right)|].
  now left.
Qed.

Lemma empty_store_instruction_has_no_knowledge (persona : option string) (out : string) :
  generateCompositeSystemInstruction [] persona = Ok out ->
  ~ Contains knowledgeMarker out.
Proof.
  unfold generateCompositeSystemInstruction.
  destruct (personaPrefix_cases persona) as [E | [E | [E | [E | E]]]];
    rewrite E; intros K; apply containsb_false;
    match type of K with ?r = _ =>
      replace out with (match r with Ok o => o | Throw _ => "" end)
        by (rewrite K; reflexivity)
    end; vm_compute; reflexivity.
Qed.

(** Each analysis contributes its title and the rendering of its
    knowledge. *)
Lemma knowledge_is_rendered
    (analyses : list Analysis.t) (persona : option string) (out : string) :
  generateCompositeSystemInstruction analyses persona = Ok out ->
  forall a, In a analyses ->
    Contains (Analysis.title a) out /\
    exists text, ToString (knowledgeOf analyses a) = Ok text /\ Contains text out.
Proof.
  intros E. destruct analyses as [|x [|y l]].
  - contradiction.
  - unfold generateCompositeSystemInstruction in E.
    destruct (getSingleSystemInstruction x) as [single|] eqn:S;
      cbn [bindRes] in E; [|discriminate].
    returned E. intros a [<- | []].
    destruct (single_contents _ _ S) as (T & text & W & C).
    split; [occurs | exists text; split; [assumption | occurs]].
  - unfold generateCompositeSystemInstruction in E.
    match type of E with bindRes ?m _ = _ => destruct m as [multi|] eqn:F end;
      cbn [bindRes] in E; [|discriminate].
    returned E. intros a I.
    destruct (forEachSource_contents _ _ _ _ F) as [_ Each].
    destruct (Each a I) as (T & text & W & C).
    split; [occurs | exists text; split; [exact W | occurs]].
Qed.

(** C5, amended.  An instruction composed for one or more analyses holds
    the title of each and the rendering of its knowledge: the summary
    itself, except for a workflow analysis (in the single form, one whose
    persona is not [analyst]), whose summary is an envelope and is
    replaced by what was decoded from it or by a placeholder.  The
    instruction for no analysis has no knowledge block. *)
Theorem composed_instruction_contents
    (analyses : list Analysis.t) (persona : option string) (out : string) :
  generateCompositeSystemInstruction analyses persona = Ok out ->
  (analyses = [] -> ~ Contains knowledgeMarker out) /\
  (forall a, In a analyses ->
     Contains (Analysis.title a) out /\
     (exists text,
        ToString (knowledgeOf analyses a) = Ok text /\ Contains text out) /\
     (copiedVerbatim analyses a -> Contains (Analysis.summary a) out)).
Proof.
  intros E. split.
  - intros ->. now apply empty_store_instruction_has_no_knowledge with persona.
  - intros a I. destruct (knowledge_is_rendered _ _ _ E a I) as (T & text & W & C).
    split; [exact T|]. split; [now exists text|].
    intros V. rewrite (knowledgeOf_verbatim _ _ V) in W.
    cbn [ToString] in W. apply Ok_inj in W. now subst.
Qed.

(** The single form returns whenever the decoded workflow summary can be
    rendered; every other analysis is always rendered. *)
Lemma single_returns (a : Analysis.t) :
  (exists text, ToString (knowledgeOf [a] a) = Ok text) ->
  exists out, getSingleSystemInstruction a = Ok out.
Proof.
  unfold getSingleSystemInstruction, knowledgeOf. intros (text & W).
  destruct (Analysis.persona a); [destruct (Analysis.type a)|]; try (eexists; reflexivity).
  rewrite W. simpl. eexists; reflexivity.
Qed.

Lemma single_returns_unless_workflow (a : Analysis.t) :
  Analysis.type a <> workflow -> exists out, getSingleSystemInstruction a = Ok out.
Proof.
  intros T. apply single_returns. exists (Analysis.summary a).
  now rewrite (knowledgeOf_verbatim [a] a (or_introl T)).
Qed.

(** A workflow summary that [JSON.parse] rejects is replaced by the
    placeholder of the single form, and the composer returns. *)
Lemma unparsable_workflow_gets_placeholder (a : Analysis.t) (e : exn)
    (persona : option string) :
  Analysis.type a = workflow -> Analysis.persona a = assistant ->
  JSON_parse (Analysis.summary a) = Throw e ->
  exists out,
    generateCompositeSystemInstruction [a] persona = Ok out /\
    Contains "Ocorreu um erro ao processar o resumo do fluxo de trabalho." out.
Proof.
  intros T P J.
  unfold generateCompositeSystemInstruction, getSingleSystemInstruction, workflowSummary.
  rewrite T, P, J. cbn [bindRes ToString]. eexists. split; [reflexivity | occurs].
Qed.

Lemma composite_of_single (a : Analysis.t) (persona : option string) (single : string) :
  getSingleSystemInstruction a = Ok single ->
  generateCompositeSystemInstruction [a] persona =
  Ok (personaPrefix persona ++ single ++ TOOL_INSTRUCTIONS).
Proof. intros E. unfold generateCompositeSystemInstruction. now rewrite E. Qed.

Lemma composite_of_none (persona : option string) :
  exists out, generateCompositeSystemInstruction [] persona = Ok out.
Proof.
  unfold generateCompositeSystemInstruction.
  destruct (nonEmpty (personaPrefix persona)); eexists; reflexivity.
Qed.

Lemma forEachSource_returns (l : list Analysis.t) :
  (forall a, In a l -> exists text, ToString (contentSummary a) = Ok text) ->
  forall (index : nat) (acc : string), exists out, forEachSource index l acc = Ok out.
Proof.
  induction l as [|b l IH]; intros P index acc; cbn [forEachSource].
  - now eexists.
  - destruct (P b (or_introl eq_refl)) as (text & W). rewrite W. cbn [bindRes].
    apply IH. intros a I. apply P. now right.
Qed.

(** When the composer returns and when it throws: it returns exactly when
    the knowledge of each analysis can be rendered as a string.  The
    [try] blocks catch what parsing and decoding throw; the conversion of
    the decoded value to a string happens after them. *)
Lemma composer_returns_iff (analyses : list Analysis.t) (persona : option string) :
  (exists out, generateCompositeSystemInstruction analyses persona = Ok out) <->
  (forall a, In a analyses -> exists text, ToString (knowledgeOf analyses a) = Ok text).
Proof.
  split.
  - intros (out & E) a I.
    destruct (knowledge_is_rendered _ _ _ E a I) as (_ & text & W & _). now exists text.
  - intros P. destruct analyses as [|x [|y l]].
    + apply composite_of_none.
    + destruct (single_returns x (P x (or_introl eq_refl))) as (single & E).
      rewrite (composite_of_single _ _ _ E). now eexists.
    + unfold generateCompositeSystemInstruction.
      match goal with |- context [forEachSource ?i ?l ?acc] =>
        destruct (forEachSource_returns l P i acc) as (multi & F); rewrite F
      end.
      cbn [bindRes]. now eexists.
Qed.

(** In particular it returns on every list without a workflow analysis. *)
Lemma composer_returns_without_workflow
    (analyses : list Analysis.t) (persona : option string) :
  (forall a, In a analyses -> Analysis.type a <> workflow) ->
  exists out, generateCompositeSystemInstruction analyses persona = Ok out.
Proof.
  intros N. apply composer_returns_iff. intros a I. exists (Analysis.summary a).
  now rewrite (knowledgeOf_verbatim analyses a (or_introl (N a I))).
Qed.

(** ** The stream loop of [sendTextMessage] *)

Lemma withHistory_same (svc : Service.t) :
  withHistory (AppState.chatHistory (Service.state svc)) svc = svc.
Proof. destruct svc as [[] ? ? ? ?]; reflexivity. Qed.

Lemma withText_same (m : ChatMessage.t) : withText (ChatMessage.text m) m = m.
Proof. now destruct m. Qed.

Lemma directiveIn_none (text : string) :
  directiveIn text = None -> generateRegex text = None /\ editRegex text = None.
Proof.
  unfold directiveIn.
  destruct (generateRegex text); [discriminate|].
  destruct (editRegex text); [discriminate|]. now split.
Qed.

Lemma buffer_firstn_S (chunk : Chunk.t) (rest : list Chunk.t) (k : nat) :
  buffer (firstn (S k) (chunk :: rest)) = fragment chunk ++ buffer (firstn k rest).
Proof. reflexivity. Qed.

(** While no directive is read, the loop only rewrites the text of the
    assistant message with the raw buffer. *)
Lemma forAwait_without_directive (chunks : list Chunk.t) :
  forall (turn : Turn.t) (svc : Service.t) (h : list ChatMessage.t) (m : ChatMessage.t),
  Turn.commandProcessed turn = false ->
  AppState.chatHistory (Service.state svc) = (h ++ [m])%list ->
  ChatMessage.role m = model ->
  ChatMessage.text m = Turn.accumulatedText turn ->
  (forall k, directiveIn (Turn.accumulatedText turn ++ buffer (firstn k chunks)) = None) ->
  exists results,
    forAwait chunks turn svc =
    (withHistory (h ++ [withText (Turn.accumulatedText turn ++ buffer chunks) m]) svc,
     Ok {| Turn.accumulatedText := Turn.accumulatedText turn ++ buffer chunks;
           Turn.allSearchResults := results;
           Turn.commandProcessed := false |}).
Proof.
  induction chunks as [|chunk rest IH]; intros turn svc h m P H R T N.
  - exists (Turn.allSearchResults turn). cbn [forAwait buffer]. unfold ret.
    rewrite append_empty_r, <- T, withText_same, <- H, withHistory_same.
    destruct turn; simpl in *; now subst.
  - cbn [forAwait buffer]. unfold bind at 1.
    assert (exists svc1 turn1,
      onChunk chunk turn svc = (svc1, Ok turn1) /\
      svc1 = withHistory (h ++ [withText (Turn.accumulatedText turn ++ fragment chunk) m]) svc /\
      Turn.accumulatedText turn1 = Turn.accumulatedText turn ++ fragment chunk /\
      Turn.commandProcessed turn1 = false) as (svc1 & turn1 & E & S1 & A1 & P1).
    { unfold onChunk, fragment in *. destruct (Chunk.text chunk) as [t|] eqn:TX.
      - destruct t as [|c t].
        + do 2 eexists. split; [reflexivity|]. cbn.
          rewrite append_empty_r, <- T, withText_same, <- H, withHistory_same. auto.
        + specialize (N 1). rewrite buffer_firstn_S in N.
          unfold fragment in N. rewrite TX in N.
          cbn [firstn buffer] in N. rewrite append_empty_r in N.
          apply directiveIn_none in N as [G E].
          cbn [nonEmpty]. unfold bind, recognise, ret, getState, setState, putState.
          rewrite P, G, E. cbn [Service.state AppState.chatHistory].
          rewrite H, lastOf_snoc, R. cbn.
          rewrite onLast_snoc. do 2 eexists. split; [reflexivity|]. auto.
      - do 2 eexists. split; [reflexivity|]. cbn.
        rewrite append_empty_r, <- T, withText_same, <- H, withHistory_same. auto. }
    rewrite E.
    destruct (IH turn1 svc1 h (withText (Turn.accumulatedText turn ++ fragment chunk) m))
      as (results & F); try assumption.
    + subst svc1. cbn. reflexivity.
    + now rewrite A1.
    + intros k. rewrite A1, append_assoc, <- buffer_firstn_S. apply N.
    + exists results. rewrite F, A1, S1, append_assoc. reflexivity.
Qed.

Lemma accepted_guard (svc : Service.t) (message : string) :
  accepted svc message ->
  (match Service.textChatSession svc with None => true | Some _ => false end)
  || AppState.isChatting (Service.state svc)
  || negb (nonEmpty (trim message)) = false.
Proof.
  intros (C & B & T). rewrite B.
  destruct (Service.textChatSession svc); [|congruence].
  destruct (trim message); [congruence | reflexivity].
Qed.

Lemma bind_Ok {A B} (m : M A) (k : A -> M B) (svc svc' : Service.t) (a : A) :
  m svc = (svc', Ok a) -> (x <- m ;; k x) svc = k a svc'.
Proof. intros E. unfold bind. now rewrite E. Qed.

Lemma bind_Throw {A B} (m : M A) (k : A -> M B) (svc svc' : Service.t) (e : exn) :
  m svc = (svc', Throw e) -> (x <- m ;; k x) svc = (svc', Throw e).
Proof. intros E. unfold bind. now rewrite E. Qed.

Lemma sendTextMessage_accepted (svc : Service.t) (message : string)
    (chunks : list Chunk.t) (failure : option JsError) :
  accepted svc message ->
  sendTextMessage message (Stream chunks failure) svc =
  (turn <- forAwait chunks freshTurn ;; settle failure turn) (opened svc message).
Proof.
  intros A. unfold sendTextMessage.
  unfold bind at 1. cbn [getTextChatSession].
  unfold bind at 1. cbn [getState].
  rewrite (accepted_guard _ _ A). reflexivity.
Qed.

Lemma opened_facts (svc : Service.t) (message : string) :
  Service.trace (opened svc message) =
    (Service.trace svc ++ [SendMessageStream message])%list /\
  AppState.chatHistory (Service.state (opened svc message)) =
    ((AppState.chatHistory (Service.state svc) ++ [plainMessage user message]) ++
     [plainMessage model ""])%list /\
  AppState.lastGeneratedImages (Service.state (opened svc message)) =
    AppState.lastGeneratedImages (Service.state svc).
Proof. repeat split. Qed.

Lemma settle_facts (failure : option JsError) (turn : Turn.t) (svc : Service.t)
    (h : list ChatMessage.t) (m : ChatMessage.t) :
  AppState.chatHistory (Service.state svc) = (h ++ [m])%list ->
  ChatMessage.role m = model ->
  let svc' := exec (settle failure turn) svc in
  Service.trace svc' = Service.trace svc /\
  AppState.chatHistory (Service.state svc') =
    (h ++ [withText (ChatMessage.text m ++ failureSuffix failure) m])%list /\
  AppState.lastGeneratedImages (Service.state svc') =
    AppState.lastGeneratedImages (Service.state svc).
Proof.
  intros H R. destruct failure as [err|]; cbn [settle failureSuffix].
  - destruct svc as [s ? ? ? ?]. destruct s. cbn in H. subst.
    unfold exec, chatFailed, handleError, updateError, logEvent, bind, setState,
      getState, putState, readClock.
    cbn -[append]. rewrite lastOf_snoc, R. cbn -[append].
    now rewrite onLast_snoc.
  - rewrite append_empty_r, withText_same. now rewrite <- H.
Qed.

(** C8.  When no prefix of the stream assembles a complete directive of
    either grammar, the turn dispatches nothing and calls no image model
    (the only call is the one that sends the message), and the assistant
    message ends as a plain message whose text is the raw buffer, bracket
    text included, followed by the error suffix if the stream failed. *)
Theorem malformed_directive_stays_in_text
    (svc : Service.t) (message : string) (chunks : list Chunk.t)
    (failure : option JsError) :
  accepted svc message ->
  (forall k, directiveIn (buffer (firstn k chunks)) = None) ->
  let svc' := exec (sendTextMessage message (Stream chunks failure)) svc in
  Service.trace svc' = (Service.trace svc ++ [SendMessageStream message])%list /\
  AppState.chatHistory (Service.state svc') =
    (AppState.chatHistory (Service.state svc) ++
     [plainMessage user message;
      plainMessage model (buffer chunks ++ failureSuffix failure)])%list /\
  AppState.lastGeneratedImages (Service.state svc') =
    AppState.lastGeneratedImages (Service.state svc).
Proof.
  intros A N. cbv zeta. unfold exec. rewrite (sendTextMessage_accepted _ _ _ _ A).
  destruct (opened_facts svc message) as (T0 & H0 & L0).
  destruct (forAwait_without_directive chunks freshTurn (opened svc message)
              (AppState.chatHistory (Service.state svc) ++ [plainMessage user message])
              (plainMessage model ""))
    as (results & F); [reflexivity | exact H0 | reflexivity | reflexivity | exact N |].
  rewrite (bind_Ok _ _ _ _ _ F). cbn [freshTurn Turn.accumulatedText append].
  match goal with
  | |- context [settle failure ?t ?s] =>
    destruct (settle_facts failure t s
                (AppState.chatHistory (Service.state svc) ++ [plainMessage user message])
                (withText (buffer chunks) (plainMessage model "")))
      as (T1 & H1 & L1); [reflexivity | reflexivity |]
  end.
  unfold exec in T1, H1, L1. rewrite T1, H1, L1.
  repeat split; try assumption.
  now rewrite <- app_assoc.
Qed.

(** ** One directive per turn *)

Lemma dispatched_app (a b : list Event) :
  dispatched (a ++ b) = (dispatched a ++ dispatched b)%list.
Proof. apply flat_map_app. Qed.

Lemma emits_ret {A} (a : A) (Q : A -> Prop) : Q a -> emits [] (ret a) Q.
Proof. intros q svc. exists svc, a. now rewrite app_nil_r. Qed.

Lemma emits_bind {A B} (j1 j2 : list Directive) (m : M A) (k : A -> M B)
    (P : A -> Prop) (Q : B -> Prop) :
  emits j1 m P -> (forall a, P a -> emits j2 (k a) Q) ->
  emits (j1 ++ j2) (x <- m ;; k x) Q.
Proof.
  intros Hm Hk svc. destruct (Hm svc) as (svc1 & a & E1 & D1 & p).
  destruct (Hk a p svc1) as (svc2 & b & E2 & D2 & q).
  exists svc2, b. rewrite (bind_Ok _ _ _ _ _ E1), E2, D2, D1, app_assoc. auto.
Qed.

Lemma emits_then {A B} (jobs : list Directive) (m : M A) (k : A -> M B)
    (P : A -> Prop) (Q : B -> Prop) :
  emits [] m P -> (forall a, P a -> emits jobs (k a) Q) ->
  emits jobs (x <- m ;; k x) Q.
Proof. intros Hm Hk. exact (emits_bind [] jobs m k P Q Hm Hk). Qed.

Lemma emits_before {A B} (jobs : list Directive) (m : M A) (k : A -> M B)
    (P : A -> Prop) (Q : B -> Prop) :
  emits jobs m P -> (forall a, P a -> emits [] (k a) Q) ->
  emits jobs (x <- m ;; k x) Q.
Proof.
  intros Hm Hk. rewrite <- (app_nil_r jobs). exact (emits_bind jobs [] m k P Q Hm Hk).
Qed.

Lemma emits_getState : emits [] getState any.
Proof. intros svc. exists svc, (Service.state svc). now rewrite app_nil_r. Qed.

Lemma emits_putState (s : AppState.t) : emits [] (putState s) any.
Proof. intros svc. do 2 eexists. split; [reflexivity|]. cbn. now rewrite app_nil_r. Qed.

Lemma emits_setState (updater : list Assign) : emits [] (setState updater) any.
Proof.
  unfold setState. apply emits_then with (P := any); [apply emits_getState|].
  intros s _. apply emits_putState.
Qed.

Lemma emits_readClock : emits [] readClock any.
Proof. intros svc. do 2 eexists. split; [reflexivity|]. cbn. now rewrite app_nil_r. Qed.

Lemma emits_call_dispatch (d : Directive) : emits [d] (call (Dispatch d)) any.
Proof.
  intros svc. do 2 eexists. split; [reflexivity|]. cbn.
  now rewrite dispatched_app.
Qed.

Lemma emits_call_other (e : Event) :
  (forall d, e <> Dispatch d) -> emits [] (call e) any.
Proof.
  intros N svc. do 2 eexists. split; [reflexivity|]. cbn.
  rewrite dispatched_app. split; [|exact I]. f_equal.
  destruct e; try reflexivity. now destruct (N d).
Qed.

(** Straight-line code that dispatches nothing. *)
Ltac quiet :=
  lazymatch goal with
  | |- emits [] (ret _) _ => apply emits_ret; exact I
  | |- emits [] getState _ => apply emits_getState
  | |- emits [] readClock _ => apply emits_readClock
  | |- emits [] (setState _) _ => apply emits_setState
  | |- emits [] (putState _) _ => apply emits_putState
  | |- emits [] (call _) _ => apply emits_call_other; discriminate
  | |- emits [] (bind _ _) _ =>
      apply emits_then with (P := any); [quiet | intros ? _; quiet]
  | |- emits [] (match ?x with _ => _ end) _ => destruct x; quiet
  | |- emits [] (if ?x then _ else _) _ => destruct x; quiet
  end.

Lemma emits_triggerImageGeneration (prompt : string) (count : N) :
  emits [] (_triggerImageGeneration prompt count) any.
Proof. unfold _triggerImageGeneration. quiet. Qed.

Lemma emits_triggerImageEditing (prompt : string) :
  emits [] (_triggerImageEditing prompt) any.
Proof. unfold _triggerImageEditing. quiet. Qed.

Lemma emits_chatFailed (err : JsError) : emits [] (chatFailed err) any.
Proof.
  unfold chatFailed, handleError, updateError, logEvent. quiet.
Qed.

Lemma emits_settle (failure : option JsError) (turn : Turn.t) :
  emits [] (settle failure turn) any.
Proof. destruct failure; [apply emits_chatFailed | unfold settle; quiet]. Qed.

(** What one pass through [if (!commandProcessed) { ... }] dispatches. *)
Lemma emits_recognise (text : string) (turn : Turn.t) :
  emits (if Turn.commandProcessed turn then [] else optlist (directiveIn text))
    (recognise text turn)
    (fun turn' =>
       if Turn.commandProcessed turn then Turn.commandProcessed turn' = true
       else match directiveIn text with
            | Some _ => Turn.commandProcessed turn' = true
            | None => Turn.commandProcessed turn' = false /\
                      Turn.accumulatedText turn' = text
            end).
Proof.
  unfold recognise, directiveIn. destruct (Turn.commandProcessed turn) eqn:P.
  - apply emits_ret. reflexivity.
  - destruct (generateRegex text) as [g|]; [|destruct (editRegex text) as [e|]].
    + cbn [optlist].
      apply emits_before with (P := any); [apply emits_call_dispatch|]. intros ? _.
      apply emits_then with (P := any); [apply emits_triggerImageGeneration|].
      intros ? _. now apply emits_ret.
    + cbn [optlist].
      apply emits_before with (P := any); [apply emits_call_dispatch|]. intros ? _.
      apply emits_then with (P := any); [apply emits_triggerImageEditing|].
      intros ? _. now apply emits_ret.
    + apply emits_ret. now split.
Qed.

Lemma emits_onChunk (chunk : Chunk.t) (turn : Turn.t) :
  (Turn.commandProcessed turn = false -> directiveIn (Turn.accumulatedText turn) = None) ->
  emits (if Turn.commandProcessed turn then []
         else optlist (directiveIn (Turn.accumulatedText turn ++ fragment chunk)))
    (onChunk chunk turn)
    (fun turn' =>
       if Turn.commandProcessed turn then Turn.commandProcessed turn' = true
       else match directiveIn (Turn.accumulatedText turn ++ fragment chunk) with
            | Some _ => Turn.commandProcessed turn' = true
            | None => Turn.commandProcessed turn' = false /\
                      Turn.accumulatedText turn' =
                        Turn.accumulatedText turn ++ fragment chunk
            end).
Proof.
  intros Inv. unfold onChunk.
  match goal with |- emits _ _ ?Q => apply emits_before with (P := Q) end;
    [|intros turn' q; apply emits_ret; exact q].
  assert (directiveIn (Turn.accumulatedText turn ++ "") =
          directiveIn (Turn.accumulatedText turn)) as Same
    by now rewrite append_empty_r.
  assert (emits
    (if Turn.commandProcessed turn then []
     else optlist (directiveIn (Turn.accumulatedText turn ++ "")))
    (ret turn)
    (fun turn' =>
       if Turn.commandProcessed turn then Turn.commandProcessed turn' = true
       else match directiveIn (Turn.accumulatedText turn ++ "") with
            | Some _ => Turn.commandProcessed turn' = true
            | None => Turn.commandProcessed turn' = false /\
                      Turn.accumulatedText turn' = Turn.accumulatedText turn ++ ""
            end)) as Skip.
  { rewrite Same. destruct (Turn.commandProcessed turn) eqn:P.
    - now apply emits_ret.
    - rewrite (Inv eq_refl). apply emits_ret. now rewrite append_empty_r. }
  unfold fragment. destruct (Chunk.text chunk) as [t|]; [destruct t as [|c t]|].
  - exact Skip.
  - cbn [nonEmpty]. eapply emits_before; [apply emits_recognise|].
    intros turn' Q. apply emits_then with (P := any); [quiet|].
    intros s _. apply emits_then with (P := any); [quiet|].
    intros ? _. apply emits_ret. exact Q.
  - exact Skip.
Qed.

Lemma emits_forAwait (chunks : list Chunk.t) :
  forall turn : Turn.t,
  (Turn.commandProcessed turn = false -> directiveIn (Turn.accumulatedText turn) = None) ->
  emits (if Turn.commandProcessed turn then []
         else optlist (firstDirective (Turn.accumulatedText turn) chunks))
    (forAwait chunks turn) any.
Proof.
  induction chunks as [|chunk rest IH]; intros turn Inv; cbn [forAwait firstDirective].
  - destruct (Turn.commandProcessed turn); now apply emits_ret.
  - pose proof (emits_onChunk chunk turn Inv) as Step.
    destruct (Turn.commandProcessed turn) eqn:P.
    + eapply emits_then; [exact Step|]. cbv beta. intros turn' P'.
      specialize (IH turn'). rewrite P' in IH. apply IH. discriminate.
    + destruct (directiveIn (Turn.accumulatedText turn ++ fragment chunk)) as [d|] eqn:D.
      * eapply emits_before; [exact Step|]. cbv beta. intros turn' P'.
        specialize (IH turn'). rewrite P' in IH. apply IH. discriminate.
      * eapply emits_then; [exact Step|]. cbv beta. intros turn' [P' A'].
        specialize (IH turn'). rewrite P', A' in IH. apply IH. now intros _.
Qed.

(** [firstDirective] scans the prefixes of the stream in order. *)
Lemma firstDirective_none (chunks : list Chunk.t) :
  forall text,
  directiveIn text = None ->
  firstDirective text chunks = None ->
  forall k, directiveIn (text ++ buffer (firstn k chunks)) = None.
Proof.
  induction chunks as [|chunk rest IH]; intros text D F k.
  - destruct k; cbn; now rewrite append_empty_r.
  - destruct k as [|k]; [cbn; now rewrite append_empty_r|].
    rewrite buffer_firstn_S, <- append_assoc. cbn [firstDirective] in F.
    destruct (directiveIn (text ++ fragment chunk)) eqn:E; [discriminate|].
    now apply IH.
Qed.

Lemma firstDirective_some (chunks : list Chunk.t) :
  forall text d,
  directiveIn text = None ->
  firstDirective text chunks = Some d ->
  exists k,
    k <= List.length chunks /\
    directiveIn (text ++ buffer (firstn k chunks)) = Some d /\
    forall j, j < k -> directiveIn (text ++ buffer (firstn j chunks)) = None.
Proof.
  induction chunks as [|chunk rest IH]; intros text d D F; [discriminate|].
  cbn [firstDirective] in F.
  destruct (directiveIn (text ++ fragment chunk)) as [d'|] eqn:E.
  - exists 1. cbn [firstn buffer List.length]. rewrite append_empty_r.
    split; [lia|]. split; [congruence|].
    intros j J. replace j with 0 by lia. cbn. now rewrite append_empty_r.
  - destruct (IH _ _ E F) as (k & L & Hit & B). exists (S k).
    cbn [List.length]. split; [lia|].
    rewrite buffer_firstn_S, <- append_assoc. split; [exact Hit|].
    intros [|j] J; [cbn; now rewrite append_empty_r|].
    rewrite buffer_firstn_S, <- append_assoc. apply B. lia.
Qed.

(** What the turn hands to the image job runner. *)
Lemma turn_dispatches (svc : Service.t) (message : string) (chunks : list Chunk.t)
    (failure : option JsError) :
  accepted svc message ->
  dispatched (Service.trace (exec (sendTextMessage message (Stream chunks failure)) svc)) =
  (dispatched (Service.trace svc) ++ optlist (firstDirective "" chunks))%list.
Proof.
  intros A. unfold exec. rewrite (sendTextMessage_accepted _ _ _ _ A).
  assert (emits (optlist (firstDirective "" chunks))
            (turn <- forAwait chunks freshTurn ;; settle failure turn) any) as E.
  { eapply emits_before; [apply (emits_forAwait chunks freshTurn); reflexivity|].
    intros turn _. apply emits_settle. }
  destruct (E (opened svc message)) as (svc' & a & R & D & _).
  rewrite R. cbn [fst]. rewrite D.
  destruct (opened_facts svc message) as (T & _). rewrite T, dispatched_app.
  cbn [dispatched flat_map app]. now rewrite app_nil_r.
Qed.

(** C2, amended.  A turn hands at most one directive to the image job
    runner.  It is the one read in the buffer after the first chunk that
    completes a match of either grammar; there a match of the generate
    grammar wins over a match of the edit grammar wherever the two stand
    in the buffer ([directiveIn]).  Later chunks dispatch nothing. *)
Theorem one_directive_per_turn
    (svc : Service.t) (message : string) (chunks : list Chunk.t)
    (failure : option JsError) :
  accepted svc message ->
  let svc' := exec (sendTextMessage message (Stream chunks failure)) svc in
  exists jobs,
    dispatched (Service.trace svc') = (dispatched (Service.trace svc) ++ jobs)%list /\
    List.length jobs <= 1 /\
    ((jobs = [] /\ forall k, directiveIn (buffer (firstn k chunks)) = None) \/
     (exists k d,
        jobs = [d] /\
        k <= List.length chunks /\
        directiveIn (buffer (firstn k chunks)) = Some d /\
        forall j, j < k -> directiveIn (buffer (firstn j chunks)) = None)).
Proof.
  intros A. cbv zeta. exists (optlist (firstDirective "" chunks)).
  split; [now apply turn_dispatches|].
  destruct (firstDirective "" chunks) as [d|] eqn:F; cbn [optlist List.length].
  - split; [lia|]. right.
    destruct (firstDirective_some chunks "" d eq_refl F) as (k & L & Hit & B).
    exists k, d. auto.
  - split; [lia|]. left. split; [reflexivity|].
    exact (firstDirective_none chunks "" eq_refl F).
Qed.

(** ** Selection, persona and the derived instruction *)

(** Runs the monad and the record updates, and nothing else. *)
Ltac run :=
  cbv beta iota zeta delta
    [bind ret throw exec outcome getState putState setState getSession putSession
     getTextChatSession putTextChatSession call readClock fold_left assign fst snd
     negb
     updateSystemInstruction resetSession initializeTextChat stopRecording
     updateStatus updateError logEvent relevantAnalyses
     updateVisualizerPanelVisibility
     Service.state Service.session Service.trace Service.textChatSession
     Service.clockReads
     AppState.selectedAnalysisId AppState.analyses AppState.activePersona
     AppState.isRecording AppState.chatHistory AppState.lastGeneratedImages
     AppState.processingState AppState.status AppState.error AppState.searchResults
     AppState.systemInstruction AppState.timelineEvents AppState.showTimelineModal
     AppState.showHistoryModal AppState.showSidebar AppState.showVisualizerPanel
     AppState.savedSessions AppState.searchHistory AppState.isChatting].

Lemma updateSystemInstruction_throws (svc : Service.t) (e : exn) :
  composed (Service.state svc) = Throw e ->
  updateSystemInstruction svc = (svc, Throw e).
Proof.
  unfold composed, updateSystemInstruction, bind, getState. now intros ->.
Qed.

(** [resetSession] and the rebuild of the text session that follows it,
    in a state for which the composer returns [out]. *)
Lemma rebuild_facts (svc : Service.t) (out : string) :
  composed (Service.state svc) = Ok out ->
  let r := (updateSystemInstruction ;; resetSession ;; initializeTextChat) svc in
  let s := Service.state svc in
  let s' := Service.state (fst r) in
  let seed := seedHistory (AppState.chatHistory s) in
  snd r = Ok tt /\
  AppState.systemInstruction s' = out /\
  AppState.analyses s' = AppState.analyses s /\
  AppState.selectedAnalysisId s' = AppState.selectedAnalysisId s /\
  AppState.activePersona s' = AppState.activePersona s /\
  AppState.chatHistory s' = AppState.chatHistory s /\
  AppState.lastGeneratedImages s' = AppState.lastGeneratedImages s /\
  AppState.savedSessions s' = AppState.savedSessions s /\
  Service.session (fst r) = None /\
  Service.textChatSession (fst r) =
    Some {| Chat.history := seed; Chat.systemInstruction := out |} /\
  Service.trace (fst r) =
    (Service.trace svc ++ teardown svc ++
     [ChatsCreate seed out; ChatsCreate seed out])%list.
Proof.
  destruct svc as [s h c t n]. destruct s.
  unfold composed, relevantAnalyses, teardown. cbv zeta. run. intros E.
  run. rewrite E. run.
  destruct isRecording, h; run; rewrite ?E; run;
    repeat split; rewrite <- ?app_assoc; reflexivity.
Qed.

Lemma setSelectedAnalysisId_same (id : option string) (svc : Service.t) :
  sameId (AppState.selectedAnalysisId (Service.state svc)) id = true ->
  setSelectedAnalysisId id svc = (svc, Ok tt).
Proof.
  intros E. unfold setSelectedAnalysisId, bind at 1, getState. now rewrite E.
Qed.

Lemma setSelectedAnalysisId_changed (id : option string) (svc : Service.t) :
  sameId (AppState.selectedAnalysisId (Service.state svc)) id = false ->
  setSelectedAnalysisId id svc =
  (updateSystemInstruction ;; resetSession ;; initializeTextChat) (selecting id svc).
Proof.
  intros E. unfold setSelectedAnalysisId, bind at 1, getState. now rewrite E.
Qed.

Lemma selecting_facts (id : option string) (svc : Service.t) :
  let s := Service.state svc in
  let s' := Service.state (selecting id svc) in
  AppState.selectedAnalysisId s' = id /\
  AppState.chatHistory s' = [] /\
  AppState.lastGeneratedImages s' = [] /\
  AppState.analyses s' = AppState.analyses s /\
  AppState.activePersona s' = AppState.activePersona s /\
  AppState.systemInstruction s' = AppState.systemInstruction s /\
  AppState.savedSessions s' = AppState.savedSessions s /\
  teardown (selecting id svc) = teardown svc /\
  Service.session (selecting id svc) = Service.session svc /\
  Service.textChatSession (selecting id svc) = Service.textChatSession svc /\
  Service.trace (selecting id svc) = Service.trace svc.
Proof. repeat split. Qed.

Lemma sameId_true (a b : option string) : sameId a b = true <-> a = b.
Proof.
  destruct a as [x|], b as [y|]; cbn; try (split; congruence).
  destruct (String.eqb_spec x y); split; congruence.
Qed.

(** Everything a call of [setSelectedAnalysisId] does, by cases: the
    selection does not change; it changes and the composer returns; it
    changes and the composer throws. *)
Lemma setSelectedAnalysisId_facts (id : option string) (svc : Service.t) :
  let r := setSelectedAnalysisId id svc in
  let s := Service.state svc in
  let s' := Service.state (fst r) in
  AppState.analyses s' = AppState.analyses s /\
  AppState.activePersona s' = AppState.activePersona s /\
  AppState.selectedAnalysisId s' = id /\
  AppState.savedSessions s' = AppState.savedSessions s /\
  ((AppState.selectedAnalysisId s = id /\ r = (svc, Ok tt)) \/
   (AppState.selectedAnalysisId s <> id /\
    AppState.chatHistory s' = [] /\
    AppState.lastGeneratedImages s' = [] /\
    ((exists e, composed (Service.state (selecting id svc)) = Throw e /\
                r = (selecting id svc, Throw e)) \/
     (exists out,
        composed (Service.state (selecting id svc)) = Ok out /\
        snd r = Ok tt /\
        AppState.systemInstruction s' = out /\
        Service.session (fst r) = None /\
        Service.textChatSession (fst r) =
          Some {| Chat.history := []; Chat.systemInstruction := out |} /\
        Service.trace (fst r) =
          (Service.trace svc ++ teardown svc ++
           [ChatsCreate [] out; ChatsCreate [] out])%list)))).
Proof.
  cbv zeta.
  destruct (sameId (AppState.selectedAnalysisId (Service.state svc)) id) eqn:S.
  - rewrite (setSelectedAnalysisId_same _ _ S). apply sameId_true in S.
    cbn [fst]. repeat split; auto.
  - rewrite (setSelectedAnalysisId_changed _ _ S).
    assert (AppState.selectedAnalysisId (Service.state svc) <> id) as N.
    { intros E. apply sameId_true in E. congruence. }
    destruct (selecting_facts id svc) as (F1 & F2 & F3 & F4 & F5 & F6 & F7 & F8 & F9 & F10 & F11).
    destruct (composed (Service.state (selecting id svc))) as [out|e] eqn:C.
    + destruct (rebuild_facts _ _ C)
        as (R0 & R1 & R2 & R3 & R4 & R5 & R6 & RS & R7 & R8 & R9).
      rewrite F2 in R8, R9. rewrite F8, F11 in R9.
      rewrite R2, R3, R4, R5, R6, RS.
      repeat split; auto.
      right. repeat split; auto. right. exists out. repeat split; auto.
    + rewrite (bind_Throw _ _ _ _ _ (updateSystemInstruction_throws _ _ C)).
      cbn [fst]. repeat split; auto. right. repeat split; auto.
      left. exists e. auto.
Qed.

(** ** Removing the selected analysis *)






(** ** Saving a session and loading it again *)

Lemma saveCurrentSession_facts (answer : option string) (now : string) (svc : Service.t) :
  let saved := exec (saveCurrentSession answer now) svc in
  let s := Service.state svc in
  let s' := Service.state saved in
  AppState.savedSessions s' = sessionOf answer now s :: AppState.savedSessions s /\
  AppState.analyses s' = AppState.analyses s /\
  AppState.selectedAnalysisId s' = AppState.selectedAnalysisId s /\
  AppState.activePersona s' = AppState.activePersona s /\
  AppState.chatHistory s' = AppState.chatHistory s /\
  teardown saved = teardown svc /\
  Service.session saved = Service.session svc /\
  Service.textChatSession saved = Service.textChatSession svc /\
  Service.trace saved =
    (Service.trace svc ++ [StorageSetSessions (AppState.savedSessions s')])%list.
Proof. repeat split. Qed.





(** ** The derived instruction under selection and persona changes *)

Lemma relevant_is_filter (s : AppState.t) :
  idsNotEmpty (AppState.analyses s) ->
  relevantAnalyses s =
  selectionFilter (AppState.analyses s) (AppState.selectedAnalysisId s).
Proof.
  unfold relevantAnalyses, selectionFilter. intros W.
  destruct (AppState.selectedAnalysisId s) as [id|]; [|reflexivity].
  destruct id as [|c id]; [|reflexivity]. cbn [nonEmpty].
  destruct (find _ (AppState.analyses s)) as [a|] eqn:F; [|reflexivity].
  apply find_some in F as [I E]. apply String.eqb_eq in E.
  unfold idsNotEmpty in W. rewrite Forall_forall in W. now destruct (W a I).
Qed.

Lemma composed_returns (s : AppState.t) :
  renders (AppState.analyses s) -> exists out, composed s = Ok out.
Proof.
  unfold composed, relevantAnalyses. intros R.
  destruct (AppState.selectedAnalysisId s) as [id|]; [|apply composite_of_none].
  destruct (nonEmpty id); [|apply composite_of_none].
  destruct (find _ (AppState.analyses s)) as [a|] eqn:F; [|apply composite_of_none].
  apply find_some in F as [I _]. destruct (R a I) as (single & E).
  rewrite (composite_of_single _ _ _ E). now eexists.
Qed.

Lemma setPersona_steps (persona : option string) (svc : Service.t) :
  setPersona persona svc =
  (updateSystemInstruction ;; resetSession ;; initializeTextChat)
    (settingPersona persona svc).
Proof. reflexivity. Qed.

Lemma inSync_of_composed (svc svc0 : Service.t) :
  idsNotEmpty (AppState.analyses (Service.state svc0)) ->
  composed (Service.state svc0) = Ok (AppState.systemInstruction (Service.state svc)) ->
  AppState.analyses (Service.state svc) = AppState.analyses (Service.state svc0) ->
  AppState.selectedAnalysisId (Service.state svc) =
    AppState.selectedAnalysisId (Service.state svc0) ->
  AppState.activePersona (Service.state svc) = AppState.activePersona (Service.state svc0) ->
  inSync svc.
Proof.
  unfold inSync, composed. intros W C -> -> ->.
  now rewrite <- relevant_is_filter.
Qed.

(** One call keeps the store and keeps the instruction in step. *)
Lemma perform_keeps_inSync (c : Call) (svc : Service.t) :
  idsNotEmpty (AppState.analyses (Service.state svc)) ->
  renders (AppState.analyses (Service.state svc)) ->
  inSync svc ->
  AppState.analyses (Service.state (exec (perform c) svc)) =
    AppState.analyses (Service.state svc) /\
  inSync (exec (perform c) svc).
Proof.
  intros W R I. destruct c as [id | persona]; unfold exec, perform.
  - destruct (setSelectedAnalysisId_facts id svc) as (A & P & Sel & _ & Cases).
    split; [exact A|].
    destruct Cases as [[_ E] | (_ & _ & _ & [(e & C & _) | (out & C & _ & Ins & _)])].
    + now rewrite E.
    + destruct (composed_returns (Service.state (selecting id svc))) as (out & C');
        [exact R | congruence].
    + apply inSync_of_composed with (svc0 := selecting id svc); auto.
      now rewrite Ins.
  - rewrite setPersona_steps.
    destruct (composed_returns (Service.state (settingPersona persona svc)))
      as (out & C); [exact R|].
    destruct (rebuild_facts _ _ C) as (_ & Ins & A & Sel & P & _).
    split; [exact A|].
    apply inSync_of_composed with (svc0 := settingPersona persona svc); auto.
    now rewrite Ins.
Qed.

(** C1, amended.  From a state whose instruction is in step with its
    store, selection and persona, every sequence of
    [setSelectedAnalysisId] and [setPersona] calls leaves it in step after
    each call.  (A call that repeats the current selection returns at
    once and recomputes nothing, so a state that is out of step stays so.)
    Record ids are taken to be non-empty, and the composer to return on
    each record of the store. *)
Theorem instruction_stays_in_step (calls : list Call) :
  forall svc : Service.t,
  inSync svc ->
  idsNotEmpty (AppState.analyses (Service.state svc)) ->
  renders (AppState.analyses (Service.state svc)) ->
  Forall inSync (afterEach calls svc).
Proof.
  induction calls as [|c rest IH]; intros svc I W R; cbn [afterEach].
  - constructor.
  - destruct (perform_keeps_inSync c svc W R I) as [A I'].
    constructor; [exact I'|].
    apply IH; [exact I' | now rewrite A | now rewrite A].
Qed.


(** * Further properties of the code *)

(** ** White space *)

Ltac branches H :=
  repeat match type of H with
         | context [if ?b then _ else _] => destruct b
         end.

(** The length [ws_len] gives is decided by the bytes it counts. *)
Lemma ws_len_prefix (c : ascii) (p rest t : string) (k : nat) :
  ws_len (String c (p ++ rest)) = S k -> k <= String.length p ->
  ws_len (String c (p ++ t)) = S k.
Proof.
  unfold ws_len. intros W L.
  destruct ((9 <=? code c) && (code c <=? 13) || (code c =? 32))%N; [exact W|].
  destruct p as [|d p].
  - cbn [append] in W. cbn [String.length] in L.
    destruct rest as [|d [|e rest]]; branches W; try discriminate; injection W as <-; lia.
  - cbn [append] in *.
    destruct ((code c =? 194) && (code d =? 160))%N; [exact W|].
    destruct p as [|e p].
    + cbn [append] in W. cbn [String.length] in L.
      destruct rest as [|e rest]; branches W; try discriminate; injection W as <-; lia.
    + cbn [append] in *. exact W.
Qed.

Lemma ws_len_fits (c : ascii) (r : string) (k : nat) :
  ws_len (String c r) = S k -> k <= String.length r.
Proof.
  unfold ws_len. intros W.
  destruct ((9 <=? code c) && (code c <=? 13) || (code c =? 32))%N;
    [injection W as <-; lia|].
  destruct r as [|d [|e r]]; branches W; try discriminate; injection W as <-;
    cbn [String.length]; lia.
Qed.

(** What [dropWhite] drops: the bytes to skip and then whole white-space
    characters. *)
Lemma dropWhite_split (s : string) :
  forall skip, skip <= String.length s ->
  exists p,
    s = p ++ dropWhite skip s /\ skip <= String.length p /\
    forall t, dropWhite skip (p ++ t) = dropWhite 0 t.
Proof.
  induction s as [|c r IH]; intros skip L.
  - exists "". cbn in *. replace skip with 0 by lia. auto.
  - destruct skip as [|k].
    + cbn [dropWhite]. destruct (ws_len (String c r)) as [|k] eqn:W.
      * exists "". split; [reflexivity|]. split; [cbn; lia|]. intros t. reflexivity.
      * destruct (IH k (ws_len_fits _ _ _ W)) as (p & E & Lp & D).
        exists (String c p). cbn [append String.length]. split; [now rewrite <- E|].
        split; [lia|]. intros t. cbn [dropWhite].
        rewrite E in W. rewrite (ws_len_prefix c p _ t k W Lp). apply D.
    + cbn [String.length] in L. destruct (IH k ltac:(lia)) as (p & E & Lp & D).
      exists (String c p). cbn [append String.length dropWhite].
      split; [now rewrite <- E|]. split; [lia | exact D].
Qed.

(** [trimStart] takes off a run of white space. *)
Lemma trimStart_split (s : string) :
  exists gap, s = gap ++ trimStart s /\ allWhite gap = true.
Proof.
  destruct (dropWhite_split s 0 ltac:(lia)) as (p & E & _ & D).
  exists p. split; [exact E|]. unfold allWhite, trimStart.
  specialize (D ""). rewrite append_empty_r in D. rewrite D. reflexivity.
Qed.

(** What [trimStart] leaves does not start with white space. *)
Lemma trimStart_head (s : string) : ws_len (trimStart s) = 0.
Proof.
  unfold trimStart.
  assert (forall skip, skip <= String.length s -> ws_len (dropWhite skip s) = 0) as K.
  { induction s as [|c r IH]; intros skip L; [reflexivity|].
    destruct skip as [|k]; cbn [dropWhite].
    - destruct (ws_len (String c r)) as [|k] eqn:W; [exact W|].
      apply IH. now apply ws_len_fits with c.
    - apply IH. cbn [String.length] in L. lia. }
  apply K. lia.
Qed.

Lemma trimStart_fixed (s : string) : ws_len s = 0 -> trimStart s = s.
Proof.
  unfold trimStart. destruct s as [|c r]; [reflexivity|]. cbn [dropWhite]. now intros ->.
Qed.

(** [trimEnd] gives a prefix. *)
Lemma trimEnd_prefix (s : string) : exists rest, s = trimEnd s ++ rest.
Proof.
  induction s as [|c r IH]; [now exists ""|]. cbn [trimEnd].
  destruct (allWhite (String c r)); [now exists (String c r)|].
  destruct IH as (rest & E). exists rest. cbn [append]. now rewrite <- E.
Qed.

Lemma ws_len_of_prefix (p rest : string) :
  p <> "" -> ws_len (p ++ rest) = 0 -> ws_len p = 0.
Proof.
  destruct p as [|c p]; [congruence|]. intros _ W. cbn [append] in W.
  destruct (ws_len (String c p)) as [|k] eqn:V; [reflexivity|].
  pose proof (ws_len_fits _ _ _ V) as L.
  replace (String c p) with (String c (p ++ "")) in V by now rewrite append_empty_r.
  rewrite (ws_len_prefix c p "" rest k V L) in W. discriminate.
Qed.

(** A text that [trim] leaves non-empty is not blank for [trim]. *)
Lemma trim_trim_nonEmpty (s : string) :
  nonEmpty (trim s) = true -> nonEmpty (trim (trim s)) = true.
Proof.
  unfold trim. intros N.
  destruct (trimEnd_prefix (trimStart s)) as (rest & E).
  assert (trimEnd (trimStart s) <> "") as Ne
    by (destruct (trimEnd (trimStart s)); [discriminate | congruence]).
  assert (ws_len (trimEnd (trimStart s)) = 0) as W.
  { apply ws_len_of_prefix with rest; [exact Ne|]. rewrite <- E. apply trimStart_head. }
  rewrite (trimStart_fixed _ W).
  destruct (trimEnd (trimStart s)) as [|c u] eqn:U; [congruence|].
  cbn [trimEnd]. unfold allWhite. rewrite (trimStart_fixed _ W). reflexivity.
Qed.

(** ** The two directive grammars *)

Lemma span_split (f : ascii -> bool) (s a b : string) :
  span f s = (a, b) -> s = a ++ b /\ every f a = true.
Proof.
  revert a b. induction s as [|c r IH]; cbn [span]; intros a b E.
  - now inversion E.
  - destruct (f c) eqn:Fc.
    + destruct (span f r) as [a' b'] eqn:S. inversion E; subst.
      destruct (IH a' b eq_refl) as [-> Ev]. cbn. now rewrite Fc, Ev.
    + now inversion E.
Qed.


Lemma nonEmpty_true (s : string) : nonEmpty s = true <-> s <> "".
Proof. destruct s; cbn; split; congruence. Qed.

Lemma generateRegexAt_sound (s digits prompt rest : string) :
  generateRegexAt s = Some (digits, prompt, rest) ->
  exists gap,
    s = "[generate_images(" ++ digits ++ "):" ++ gap ++ "'" ++ prompt ++ "']" ++ rest /\
    isGap gap /\ isCount digits /\ isPrompt prompt.
Proof.
  unfold generateRegexAt.
  destruct (stripPrefix "[generate_images(" s) as [s1|] eqn:P1; [|discriminate].
  destruct (span isDigit s1) as [d s2] eqn:S1.
  destruct (nonEmpty d) eqn:Nd; [|discriminate].
  destruct (stripPrefix "):" s2) as [s3|] eqn:P2; [|discriminate].
  destruct (stripPrefix "'" (trimStart s3)) as [s4|] eqn:P3; [|discriminate].
  destruct (span notQuote s4) as [p s5] eqn:S2.
  destruct (nonEmpty p) eqn:Np; [|discriminate].
  destruct (stripPrefix "']" s5) as [r|] eqn:P4; [|discriminate].
  intros [= <- <- <-].
  apply stripPrefix_some in P1, P2, P3, P4.
  apply span_split in S1 as [E1 D], S2 as [E2 Q].
  destruct (trimStart_split s3) as (gap & E3 & G).
  exists gap. split.
  - rewrite P1, E1, P2, E3, P3, E2, P4. reflexivity.
  - repeat split; auto; now apply nonEmpty_true.
Qed.

Lemma editRegexAt_sound (s prompt rest : string) :
  editRegexAt s = Some (prompt, rest) ->
  exists gap,
    s = "[edit_image:" ++ gap ++ "'" ++ prompt ++ "']" ++ rest /\
    isGap gap /\ isPrompt prompt.
Proof.
  unfold editRegexAt.
  destruct (stripPrefix "[edit_image:" s) as [s1|] eqn:P1; [|discriminate].
  destruct (stripPrefix "'" (trimStart s1)) as [s2|] eqn:P3; [|discriminate].
  destruct (span notQuote s2) as [p s3] eqn:S2.
  destruct (nonEmpty p) eqn:Np; [|discriminate].
  destruct (stripPrefix "']" s3) as [r|] eqn:P4; [|discriminate].
  intros [= <- <-].
  apply stripPrefix_some in P1, P3, P4.
  apply span_split in S2 as [E2 Q].
  destruct (trimStart_split s1) as (gap & E3 & G).
  exists gap. split.
  - rewrite P1, E3, P3, E2, P4. reflexivity.
  - repeat split; auto; now apply nonEmpty_true.
Qed.

(** X1.  What the two regular expressions of [sendTextMessage] match.  A
    match of the generate grammar splits the text into what stands before
    it, the directive and what stands after it; the directive is
    [[generate_images(], a non-empty run of decimal digits, [):], white
    space, and between single quotes a non-empty prompt that holds no
    single quote, closed by a bracket.  A match of the edit grammar is the
    same with [[edit_image:] and no count.  So the text shown once the
    directive is removed is what stood around it, and a prompt never
    holds a single quote. *)
Theorem recognised_directives_are_well_formed (text : string) :
  (forall m, generateRegex text = Some m ->
     exists gap,
       text = before m ++ "[generate_images(" ++ fst (groups m) ++ "):" ++ gap ++
              "'" ++ snd (groups m) ++ "']" ++ after m /\
       isGap gap /\ isCount (fst (groups m)) /\ isPrompt (snd (groups m))) /\
  (forall m, editRegex text = Some m ->
     exists gap,
       text = before m ++ "[edit_image:" ++ gap ++ "'" ++ groups m ++ "']" ++ after m /\
       isGap gap /\ isPrompt (groups m)).
Proof.
  split.
  - induction text as [|c r IH]; intros m; cbn [generateRegex].
    + destruct (generateRegexAt "") as [[[d p] rest]|] eqn:A; [|discriminate].
      intros [= <-]. now apply generateRegexAt_sound.
    + destruct (generateRegexAt (String c r)) as [[[d p] rest]|] eqn:A.
      * intros [= <-]. now apply generateRegexAt_sound.
      * destruct (generateRegex r) as [m'|]; [|discriminate].
        intros [= <-]. destruct (IH m' eq_refl) as (gap & E & G).
        exists gap. split; [|exact G].
        cbn [shift before groups after]. rewrite E at 1. reflexivity.
  - induction text as [|c r IH]; intros m; cbn [editRegex].
    + destruct (editRegexAt "") as [[p rest]|] eqn:A; [|discriminate].
      intros [= <-]. now apply editRegexAt_sound.
    + destruct (editRegexAt (String c r)) as [[p rest]|] eqn:A.
      * intros [= <-]. now apply editRegexAt_sound.
      * destruct (editRegex r) as [m'|]; [|discriminate].
        intros [= <-]. destruct (IH m' eq_refl) as (gap & E & G).
        exists gap. split; [|exact G].
        cbn [shift before groups after]. rewrite E at 1. reflexivity.
Qed.









(** ** The composer, continued *)

(** X3.  Whatever the analyses and the persona, an instruction the
    composer returns starts with the persona prefix and ends with the tool
    instructions, which tell the model how to write the two image
    directives. *)
Theorem instruction_ends_with_the_tool_instructions
    (analyses : list Analysis.t) (persona : option string) (out : string) :
  generateCompositeSystemInstruction analyses persona = Ok out ->
  exists body, out = personaPrefix persona ++ body ++ TOOL_INSTRUCTIONS.
Proof.
  unfold generateCompositeSystemInstruction. destruct analyses as [|x [|y l]].
  - destruct (nonEmpty (personaPrefix persona)) eqn:N; intros E; returned E.
    + match goal with |- exists _, _ ++ ?u ++ ?i ++ _ = _ => exists (u ++ i) end.
      now rewrite (append_assoc _ _ TOOL_INSTRUCTIONS).
    + match goal with |- exists _, ?i ++ _ = _ => exists i end.
      destruct (personaPrefix persona); [reflexivity | discriminate].
  - destruct (getSingleSystemInstruction x) as [single|]; cbn [bindRes]; intros E;
      [|discriminate]. returned E. now exists single.
  - match goal with |- bindRes ?m _ = _ -> _ => destruct m as [multi|] end;
      cbn [bindRes]; intros E; [|discriminate]. returned E. eexists. reflexivity.
Qed.

(** X4.  For analyses none of which is a workflow the composer always
    returns, whatever the persona, and the instruction holds the title and
    the summary of each as they are stored. *)
Theorem composer_returns_when_no_workflow
    (analyses : list Analysis.t) (persona : option string) :
  (forall a, In a analyses -> Analysis.type a <> workflow) ->
  exists out,
    generateCompositeSystemInstruction analyses persona = Ok out /\
    forall a, In a analyses ->
      Contains (Analysis.title a) out /\ Contains (Analysis.summary a) out.
Proof.
  intros N. destruct (composer_returns_without_workflow analyses persona N) as (out & G).
  exists out. split; [exact G|]. intros a I.
  destruct (knowledge_is_rendered _ _ _ G a I) as (T & text & W & C).
  rewrite (knowledgeOf_verbatim analyses a (or_introl (N a I))) in W. cbn [ToString] in W.
  apply Ok_inj in W. subst text. now split.
Qed.

Lemma knowledgeOf_unparsable (analyses : list Analysis.t) (a : Analysis.t) (e : exn) :
  Analysis.type a = workflow -> JSON_parse (Analysis.summary a) = Throw e ->
  knowledgeOf analyses a =
  JStr (match analyses with
        | [_] =>
          match Analysis.persona a with
          | analyst => Analysis.summary a
          | assistant => "Ocorreu um erro ao processar o resumo do fluxo de trabalho."
          end
        | _ => "Erro ao processar o resumo do fluxo de trabalho."
        end).
Proof.
  intros T J. unfold knowledgeOf, contentSummary, workflowSummary. rewrite T, J.
  destruct analyses as [|x [|y l]]; try reflexivity.
  now destruct (Analysis.persona a).
Qed.

(** X5.  When [JSON.parse] rejects the summary of a workflow analysis,
    the [catch] blocks put a placeholder in its knowledge block: one text
    in the single form, another in the composite form.  In the single form
    an analysis whose persona is [analyst] takes the branch that comes
    before the workflow branch, and its summary stands as it is. *)
Theorem unparsable_workflow_is_replaced_by_a_placeholder
    (analyses : list Analysis.t) (persona : option string) (a : Analysis.t) (e : exn)
    (out : string) :
  generateCompositeSystemInstruction analyses persona = Ok out ->
  In a analyses -> Analysis.type a = workflow ->
  JSON_parse (Analysis.summary a) = Throw e ->
  Contains (match analyses with
            | [_] =>
              match Analysis.persona a with
              | analyst => Analysis.summary a
              | assistant => "Ocorreu um erro ao processar o resumo do fluxo de trabalho."
              end
            | _ => "Erro ao processar o resumo do fluxo de trabalho."
            end) out.
Proof.
  intros G I T J.
  destruct (knowledge_is_rendered _ _ _ G a I) as (_ & text & W & C).
  rewrite (knowledgeOf_unparsable analyses a e T J) in W. cbn [ToString] in W.
  apply Ok_inj in W. now subst text.
Qed.

(** ** A turn, from the guard to its end *)

Lemma sendTextMessage_rejected (svc : Service.t) (message : string) (err : JsError) :
  accepted svc message ->
  sendTextMessage message (Rejected err) svc =
  chatFailed err
    (exec (setState [Set_isChatting true;
                     Set_chatHistory (AppState.chatHistory (Service.state svc) ++
                                      [plainMessage user message]);
                     Set_searchResults []] ;;
           call (SendMessageStream message)) svc).
Proof.
  intros A. unfold sendTextMessage.
  unfold bind at 1. cbn [getTextChatSession].
  unfold bind at 1. cbn [getState].
  rewrite (accepted_guard _ _ A). reflexivity.
Qed.

(** X6.  When [sendMessageStream] rejects, the [catch] block finds the
    user message last in the history and leaves [isChatting] set: the
    user message stays, the error is shown, and every later
    [sendTextMessage] returns at the guard, whatever the message and
    whatever the transport would answer. *)
Theorem rejected_send_leaves_chat_locked
    (svc : Service.t) (message : string) (err : JsError) :
  accepted svc message ->
  let svc' := exec (sendTextMessage message (Rejected err)) svc in
  AppState.isChatting (Service.state svc') = true /\
  AppState.chatHistory (Service.state svc') =
    (AppState.chatHistory (Service.state svc) ++ [plainMessage user message])%list /\
  AppState.error (Service.state svc') =
    "Falha na mensagem de chat: " ++ messageOrString err /\
  Service.trace svc' = (Service.trace svc ++ [SendMessageStream message])%list /\
  forall (next : string) (reply : Reply),
    sendTextMessage next reply svc' = (svc', Ok tt).
Proof.
  intros A. cbv zeta.
  assert (AppState.isChatting
            (Service.state (exec (sendTextMessage message (Rejected err)) svc)) = true /\
          AppState.chatHistory
            (Service.state (exec (sendTextMessage message (Rejected err)) svc)) =
            (AppState.chatHistory (Service.state svc) ++ [plainMessage user message])%list /\
          AppState.error
            (Service.state (exec (sendTextMessage message (Rejected err)) svc)) =
            "Falha na mensagem de chat: " ++ messageOrString err /\
          Service.trace (exec (sendTextMessage message (Rejected err)) svc) =
            (Service.trace svc ++ [SendMessageStream message])%list) as (B & H & E & T).
  { unfold exec at 1 2 3 4. rewrite (sendTextMessage_rejected _ _ _ A).
    destruct svc as [s h c t n]. destruct s.
    unfold chatFailed, handleError. run. cbn -[append].
    rewrite lastOf_snoc. cbn -[append]. repeat split. }
  set (svc' := exec (sendTextMessage message (Rejected err)) svc) in *.
  repeat split; try assumption.
  intros next reply. unfold sendTextMessage, bind, getTextChatSession, getState.
  rewrite B. now rewrite orb_true_r.
Qed.

Lemma keeps_ret {A} (Inv : AppState.t -> Prop) (a : A) (Q : A -> Prop) :
  Q a -> keeps Inv (ret a) Q.
Proof. intros q svc i. now exists svc, a. Qed.

Lemma keeps_bind {A B} (Inv : AppState.t -> Prop) (m : M A) (k : A -> M B)
    (P : A -> Prop) (Q : B -> Prop) :
  keeps Inv m P -> (forall a, P a -> keeps Inv (k a) Q) -> keeps Inv (x <- m ;; k x) Q.
Proof.
  intros Hm Hk svc i. destruct (Hm svc i) as (svc1 & a & E1 & i1 & p).
  destruct (Hk a p svc1 i1) as (svc2 & b & E2 & i2 & q).
  exists svc2, b. rewrite (bind_Ok _ _ _ _ _ E1). auto.
Qed.

Lemma keeps_getState (Inv : AppState.t -> Prop) : keeps Inv getState Inv.
Proof. intros svc i. now exists svc, (Service.state svc). Qed.

Lemma keeps_call (Inv : AppState.t -> Prop) (e : Event) : keeps Inv (call e) any.
Proof. intros svc i. do 2 eexists. split; [reflexivity|]. split; [exact i | exact I]. Qed.

(** An assignment to a field of the last message, seen through
    [setState({chatHistory: [...]})]. *)
Lemma answering_onLast (earlier : list ChatMessage.t) (f : ChatMessage.t -> ChatMessage.t)
    (s : AppState.t) :
  (forall m, ChatMessage.role (f m) = ChatMessage.role m) ->
  answering earlier s ->
  keeps (answering earlier)
    (setState [Set_chatHistory (onLast f (AppState.chatHistory s))]) any.
Proof.
  intros F (m & H & R) svc _. do 2 eexists. split; [reflexivity|]. split; [|exact I].
  exists (f m). destruct svc as [s0 ? ? ? ?]. destruct s0. cbn.
  rewrite H, onLast_snoc, F. auto.
Qed.

Lemma answering_triggerImageGeneration (earlier : list ChatMessage.t)
    (prompt : string) (count : N) :
  keeps (answering earlier) (_triggerImageGeneration prompt count) any.
Proof.
  unfold _triggerImageGeneration.
  apply keeps_bind with (P := answering earlier); [apply keeps_getState|].
  intros s i. pose proof i as (m & H & R). rewrite H, lastOf_snoc, R. cbn [isModel negb].
  rewrite <- H.
  apply keeps_bind with (P := any); [now apply answering_onLast | intros ? _; apply keeps_call].
Qed.

Lemma answering_triggerImageEditing (earlier : list ChatMessage.t) (prompt : string) :
  keeps (answering earlier) (_triggerImageEditing prompt) any.
Proof.
  unfold _triggerImageEditing.
  apply keeps_bind with (P := answering earlier); [apply keeps_getState|].
  intros s i. pose proof i as (m & H & R). rewrite H, lastOf_snoc, R. cbn [isModel negb].
  rewrite <- H. destruct (AppState.lastGeneratedImages s).
  - now apply answering_onLast.
  - apply keeps_bind with (P := any); [now apply answering_onLast | intros ? _; apply keeps_call].
Qed.

Lemma answering_recognise (earlier : list ChatMessage.t) (text : string) (turn : Turn.t) :
  keeps (answering earlier) (recognise text turn)
    (fun turn' => Turn.allSearchResults turn' = Turn.allSearchResults turn).
Proof.
  unfold recognise. destruct (Turn.commandProcessed turn); [now apply keeps_ret|].
  destruct (generateRegex text) as [g|]; [|destruct (editRegex text) as [e|]].
  - apply keeps_bind with (P := any); [apply keeps_call|]. intros ? _.
    apply keeps_bind with (P := any); [apply answering_triggerImageGeneration|].
    intros ? _. now apply keeps_ret.
  - apply keeps_bind with (P := any); [apply keeps_call|]. intros ? _.
    apply keeps_bind with (P := any); [apply answering_triggerImageEditing|].
    intros ? _. now apply keeps_ret.
  - now apply keeps_ret.
Qed.

Lemma answering_onChunk (earlier : list ChatMessage.t) (chunk : Chunk.t) (turn : Turn.t) :
  keeps (answering earlier) (onChunk chunk turn)
    (fun turn' =>
       Turn.allSearchResults turn' = recordGrounding chunk (Turn.allSearchResults turn)).
Proof.
  unfold onChunk.
  apply keeps_bind
    with (P := fun turn' => Turn.allSearchResults turn' = Turn.allSearchResults turn).
  - destruct (Chunk.text chunk) as [t|]; [|now apply keeps_ret].
    destruct (nonEmpty t); [|now apply keeps_ret].
    eapply keeps_bind; [apply answering_recognise|]. cbv beta. intros turn1 E1.
    apply keeps_bind with (P := answering earlier); [apply keeps_getState|].
    intros s i. pose proof i as (m & H & R). rewrite H, lastOf_snoc, R. cbn [isModel].
    rewrite <- H.
    apply keeps_bind with (P := any); [now apply answering_onLast|].
    intros ? _. now apply keeps_ret.
  - intros turn1 E1. apply keeps_ret. cbn. now rewrite E1.
Qed.

(** The loop keeps the assistant message last and gathers the results of
    every chunk. *)
Lemma answering_forAwait (earlier : list ChatMessage.t) (chunks : list Chunk.t) :
  forall turn : Turn.t,
  keeps (answering earlier) (forAwait chunks turn)
    (fun turn' =>
       Turn.allSearchResults turn' =
       fold_left (fun m chunk => recordGrounding chunk m) chunks (Turn.allSearchResults turn)).
Proof.
  induction chunks as [|chunk rest IH]; intros turn; cbn [forAwait fold_left].
  - now apply keeps_ret.
  - eapply keeps_bind; [apply answering_onChunk|]. cbv beta. intros turn1 E1.
    rewrite <- E1. apply IH.
Qed.

Lemma settle_unlocks (failure : option JsError) (turn : Turn.t) (svc : Service.t)
    (earlier : list ChatMessage.t) :
  answering earlier (Service.state svc) ->
  let svc' := exec (settle failure turn) svc in
  AppState.isChatting (Service.state svc') = false /\
  answering earlier (Service.state svc') /\
  (failure = None -> AppState.searchResults (Service.state svc') = Turn.allSearchResults turn).
Proof.
  intros (m & H & R). destruct svc as [s ? ? ? ?]. destruct s. cbn in H. subst.
  destruct failure as [err|]; cbn [settle].
  - unfold chatFailed, handleError. run. cbn -[append]. rewrite lastOf_snoc, R. cbn -[append].
    rewrite onLast_snoc. split; [reflexivity|]. split; [|discriminate].
    eexists. split; [reflexivity | exact R].
  - run. split; [reflexivity|]. split; [|reflexivity]. now exists m.
Qed.

(** The stream as the loop leaves it. *)
Lemma stream_facts (svc : Service.t) (message : string) (chunks : list Chunk.t)
    (failure : option JsError) :
  accepted svc message ->
  let svc' := exec (sendTextMessage message (Stream chunks failure)) svc in
  AppState.isChatting (Service.state svc') = false /\
  answering (AppState.chatHistory (Service.state svc) ++ [plainMessage user message])
            (Service.state svc') /\
  (failure = None ->
   AppState.searchResults (Service.state svc') =
   fold_left (fun m chunk => recordGrounding chunk m) chunks []).
Proof.
  intros A. cbv zeta. unfold exec. rewrite (sendTextMessage_accepted _ _ _ _ A).
  destruct (opened_facts svc message) as (_ & H0 & _).
  set (earlier := (AppState.chatHistory (Service.state svc) ++ [plainMessage user message])%list)
    in *.
  assert (answering earlier (Service.state (opened svc message))) as I0
    by (exists (plainMessage model ""); auto).
  destruct (answering_forAwait earlier chunks freshTurn _ I0) as (svc1 & turn & F & I1 & G).
  rewrite (bind_Ok _ _ _ _ _ F).
  destruct (settle_unlocks failure turn svc1 earlier I1) as (B & Ans & S).
  unfold exec in B, Ans, S. repeat split; try assumption.
  intros E. now rewrite (S E), G.
Qed.

(** X7.  Once the stream is opened the turn always ends: whether the
    stream completes or fails on the way, and whatever its chunks hold,
    [isChatting] is cleared and the history has grown by exactly the user
    message and one assistant message. *)
Theorem opened_stream_ends_the_turn
    (svc : Service.t) (message : string) (chunks : list Chunk.t)
    (failure : option JsError) :
  accepted svc message ->
  let svc' := exec (sendTextMessage message (Stream chunks failure)) svc in
  AppState.isChatting (Service.state svc') = false /\
  exists answer,
    ChatMessage.role answer = model /\
    AppState.chatHistory (Service.state svc') =
      (AppState.chatHistory (Service.state svc) ++
       [plainMessage user message; answer])%list.
Proof.
  intros A. destruct (stream_facts svc message chunks failure A) as (B & (answer & H & R) & _).
  split; [exact B|]. exists answer. split; [exact R|].
  rewrite H. now rewrite <- app_assoc.
Qed.

Lemma mapSet_uris (value : SearchResult.t) (m : list SearchResult.t) (u : string) :
  In u (map SearchResult.uri (mapSet value m)) <->
  u = SearchResult.uri value \/ In u (map SearchResult.uri m).
Proof.
  induction m as [|x r IH]; cbn [mapSet map In].
  - intuition congruence.
  - destruct (String.eqb_spec (SearchResult.uri x) (SearchResult.uri value)) as [E|N];
      cbn [map In].
    + rewrite E. intuition congruence.
    + rewrite IH. intuition congruence.
Qed.

Lemma mapSet_NoDup (value : SearchResult.t) (m : list SearchResult.t) :
  NoDup (map SearchResult.uri m) -> NoDup (map SearchResult.uri (mapSet value m)).
Proof.
  induction m as [|x r IH]; cbn [mapSet map]; intros D.
  - constructor; [intros [] | constructor].
  - inversion D as [|? ? NI D']; subst.
    destruct (String.eqb_spec (SearchResult.uri x) (SearchResult.uri value)) as [E|N];
      cbn [map].
    + constructor; [now rewrite <- E | exact D'].
    + constructor; [|now apply IH].
      rewrite mapSet_uris. intros [E | I]; [congruence | contradiction].
Qed.

Lemma recordGrounding_facts (chunk : Chunk.t) (m : list SearchResult.t) :
  (NoDup (map SearchResult.uri m) ->
   NoDup (map SearchResult.uri (recordGrounding chunk m))) /\
  (forall u, In u (map SearchResult.uri (recordGrounding chunk m)) <->
             In u (map SearchResult.uri m) \/ In u (citedBy chunk)).
Proof.
  unfold recordGrounding, citedBy.
  destruct (Chunk.groundingChunks chunk) as [g|]; [|cbn; intuition].
  revert m. induction g as [|c g IH]; intros m; cbn [fold_left flat_map].
  - cbn. intuition.
  - destruct (IH (match c with
                  | Some web =>
                    mapSet {| SearchResult.uri := Web.uri web;
                              SearchResult.title := orElse (Web.title web) (Web.uri web) |} m
                  | None => m
                  end)) as [D U].
    split.
    + intros Dm. apply D. destruct c as [web|]; [now apply mapSet_NoDup | exact Dm].
    + intros u. rewrite U. destruct c as [web|]; cbn [app In].
      * rewrite mapSet_uris. cbn [SearchResult.uri]. intuition.
      * intuition.
Qed.

Lemma gathered_facts (chunks : list Chunk.t) :
  forall m : list SearchResult.t,
  let results := fold_left (fun m chunk => recordGrounding chunk m) chunks m in
  (NoDup (map SearchResult.uri m) -> NoDup (map SearchResult.uri results)) /\
  (forall u, In u (map SearchResult.uri results) <->
             In u (map SearchResult.uri m) \/ In u (cited chunks)).
Proof.
  induction chunks as [|chunk rest IH]; intros m; cbn [fold_left cited flat_map].
  - cbn. intuition.
  - destruct (IH (recordGrounding chunk m)) as [D U].
    destruct (recordGrounding_facts chunk m) as [D0 U0]. split.
    + intros Dm. apply D, D0, Dm.
    + intros u. rewrite U, U0, in_app_iff. unfold cited. intuition.
Qed.

(** X8.  The search results a completed turn leaves in the state list
    each page the stream cited exactly once: no two results share a uri,
    and the uris are those of the chunks of the stream that name a page,
    whatever was listed before the turn. *)
Theorem completed_turn_lists_each_source_once
    (svc : Service.t) (message : string) (chunks : list Chunk.t) :
  accepted svc message ->
  let svc' := exec (sendTextMessage message (Stream chunks None)) svc in
  let results := AppState.searchResults (Service.state svc') in
  NoDup (map SearchResult.uri results) /\
  forall uri, In uri (map SearchResult.uri results) <-> In uri (cited chunks).
Proof.
  intros A. destruct (stream_facts svc message chunks None A) as (_ & _ & S).
  cbv zeta. rewrite (S eq_refl).
  destruct (gathered_facts chunks []) as [D U].
  split; [apply D; constructor|].
  intros uri. rewrite U. cbn. intuition.
Qed.

(** ** The chat panel and the guard *)

Lemma turn_appends_the_user_message (svc : Service.t) (message : string) (reply : Reply) :
  accepted svc message ->
  exists tail,
    AppState.chatHistory (Service.state (exec (sendTextMessage message reply) svc)) =
    (AppState.chatHistory (Service.state svc) ++ plainMessage user message :: tail)%list.
Proof.
  intros A. destruct reply as [err | chunks failure].
  - exists []. unfold exec. rewrite (sendTextMessage_rejected _ _ _ A).
    destruct svc as [s h c t n]. destruct s.
    unfold chatFailed, handleError. run. cbn -[append].
    rewrite lastOf_snoc. reflexivity.
  - destruct (stream_facts svc message chunks failure A) as (_ & (answer & H & _) & _).
    exists [answer]. rewrite H. now rewrite <- app_assoc.
Qed.

(** X9.  What the chat panel dispatches passes the guard of
    [sendTextMessage]: the panel sends the trimmed text of the field, and
    only when it is not empty and no turn is in flight; with a text
    session in place the service then takes the turn, and the user message
    it stores is that trimmed text. *)
Theorem panel_message_passes_the_guard
    (svc : Service.t) (textarea : option string) (message : string) (reply : Reply) :
  Service.textChatSession svc <> None ->
  handleFormSubmit textarea (AppState.isChatting (Service.state svc)) = Some message ->
  (exists value, textarea = Some value /\ message = trim value) /\
  exists tail,
    AppState.chatHistory (Service.state (exec (sendTextMessage message reply) svc)) =
    (AppState.chatHistory (Service.state svc) ++ plainMessage user message :: tail)%list.
Proof.
  intros C. unfold handleFormSubmit. destruct textarea as [value|]; [|discriminate].
  cbv zeta. destruct (nonEmpty (trim value)) eqn:N; [|discriminate].
  destruct (AppState.isChatting (Service.state svc)) eqn:B; [discriminate|].
  cbn [andb negb]. intros [= <-]. split; [now exists value|].
  apply turn_appends_the_user_message. repeat split; [exact C | exact B |].
  apply trim_trim_nonEmpty in N. destruct (trim (trim value)); [discriminate | congruence].
Qed.

(** ** Editing the store *)

Lemma sameId_refl (a : option string) : sameId a a = true.
Proof. now apply sameId_true. Qed.

Lemma sameId_false (a b : option string) : a <> b -> sameId a b = false.
Proof.
  intros N. destruct (sameId a b) eqn:E; [|reflexivity].
  apply sameId_true in E. contradiction.
Qed.

(** X10.  Removing an analysis that is not the selected one (a record of
    another id, or an id the store does not hold) changes the store and
    adds the entry [Contexto removido.] to the timeline, and nothing else:
    the selection, the instruction, the chat history and both connections
    stay, and no collaborator is called. *)
Theorem removing_unselected_keeps_the_context (svc : Service.t) (id : string) :
  AppState.selectedAnalysisId (Service.state svc) <> Some id ->
  let svc' := exec (removeAnalysis id) svc in
  let s := Service.state svc in
  let s' := Service.state svc' in
  AppState.analyses s' =
    filter (fun a => negb (Analysis.id a =? id)) (AppState.analyses s) /\
  AppState.selectedAnalysisId s' = AppState.selectedAnalysisId s /\
  AppState.systemInstruction s' = AppState.systemInstruction s /\
  AppState.chatHistory s' = AppState.chatHistory s /\
  AppState.lastGeneratedImages s' = AppState.lastGeneratedImages s /\
  AppState.timelineEvents s' =
    (AppState.timelineEvents s ++
     [logged (Service.clockReads svc) "Contexto removido." info])%list /\
  Service.session svc' = Service.session svc /\
  Service.textChatSession svc' = Service.textChatSession svc /\
  Service.trace svc' = Service.trace svc.
Proof.
  intros N. cbv zeta.
  assert (removeAnalysis id svc = (removing id svc, Ok tt)) as E.
  { unfold removeAnalysis, bind at 1, getState.
    rewrite (sameId_false (Some id) (AppState.selectedAnalysisId (Service.state svc)))
      by congruence.
    change (setSelectedAnalysisId (AppState.selectedAnalysisId (Service.state svc))
              (removing id svc) = (removing id svc, Ok tt)).
    apply setSelectedAnalysisId_same. apply sameId_refl. }
  unfold exec. rewrite E. cbn [fst].
  destruct svc as [s h c t n]. destruct s. repeat split.
Qed.

Lemma findIndex_none {A} (f : A -> bool) (l : list A) :
  (forall x, In x l -> f x = false) -> findIndex f l = None.
Proof.
  induction l as [|x r IH]; intros N; cbn [findIndex]; [reflexivity|].
  rewrite (N x (or_introl eq_refl)), IH; [reflexivity|].
  intros y I. apply N. now right.
Qed.

Lemma findIndex_find {A} (f : A -> bool) (l : list A) :
  find f l = option_map snd (findIndex f l).
Proof.
  induction l as [|x r IH]; cbn [find findIndex]; [reflexivity|].
  destruct (f x); [reflexivity|]. rewrite IH.
  now destruct (findIndex f r) as [[i y]|].
Qed.

Lemma findIndex_of_find {A} (f : A -> bool) (l : list A) (x : A) :
  find f l = Some x -> exists i, findIndex f l = Some (i, x).
Proof.
  rewrite findIndex_find. destruct (findIndex f l) as [[i y]|]; [|discriminate].
  intros [= ->]. now exists i.
Qed.

(** Looking up after the update: the record written is the one found. *)
Lemma find_setAt {A} (f : A -> bool) (l : list A) (i : nat) (x y : A) :
  findIndex f l = Some (i, x) -> f y = true -> find f (setAt i y l) = Some y.
Proof.
  revert i. induction l as [|z r IH]; intros i; cbn [findIndex]; [discriminate|].
  destruct (f z) eqn:Fz.
  - intros [= <- <-] Fy. cbn. now rewrite Fy.
  - destruct (findIndex f r) as [[j w]|]; [|discriminate].
    intros [= <- <-] Fy. cbn. rewrite Fz. now apply IH.
Qed.

Lemma map_setAt {A B} (f : A -> bool) (g : A -> B) (l : list A) (i : nat) (x y : A) :
  findIndex f l = Some (i, x) -> g y = g x -> map g (setAt i y l) = map g l.
Proof.
  revert i. induction l as [|z r IH]; intros i; cbn [findIndex]; [discriminate|].
  destruct (f z) eqn:Fz.
  - intros [= <- <-] G. cbn. now rewrite G.
  - destruct (findIndex f r) as [[j w]|]; [|discriminate].
    intros [= <- <-] G. cbn. f_equal. now apply IH.
Qed.

(** X11.  [updateAnalysisSummary] with an id that no record of the store
    has returns at once: the whole service, trace of calls included, is
    what it was. *)
Theorem unknown_analysis_is_not_updated
    (svc : Service.t) (analysisId newSummary : string) :
  (forall a, In a (AppState.analyses (Service.state svc)) -> Analysis.id a <> analysisId) ->
  updateAnalysisSummary analysisId newSummary svc = (svc, Ok tt).
Proof.
  intros N. unfold updateAnalysisSummary, bind, getState.
  rewrite findIndex_none; [reflexivity|].
  intros a I. apply String.eqb_neq. now apply N.
Qed.

Lemma refreshed_after_note (svc : Service.t) (out message : string) :
  composed (Service.state svc) = Ok out ->
  refreshed ((updateSystemInstruction ;; logEvent message info ;;
              resetSession ;; initializeTextChat) svc) svc out.
Proof.
  destruct svc as [s h c t n]. destruct s.
  unfold composed, relevantAnalyses, refreshed. cbv zeta. run. intros E.
  run. rewrite E. run.
  destruct isRecording, h; run; rewrite ?E; run; repeat split.
Qed.

Lemma refreshed_after_note_and_status (svc : Service.t) (out message status : string) :
  composed (Service.state svc) = Ok out ->
  refreshed ((updateSystemInstruction ;; logEvent message info ;; updateStatus status ;;
              resetSession ;; initializeTextChat) svc) svc out.
Proof.
  destruct svc as [s h c t n]. destruct s.
  unfold composed, relevantAnalyses, refreshed. cbv zeta. run. intros E.
  run. rewrite E. run.
  destruct isRecording, h; run; rewrite ?E; run; repeat split.
Qed.

(** The composer is asked for the selected record alone. *)
Lemma relevant_selected (s : AppState.t) (id : string) (a : Analysis.t) :
  AppState.selectedAnalysisId s = Some id -> id <> "" ->
  find (fun a => Analysis.id a =? id) (AppState.analyses s) = Some a ->
  relevantAnalyses s = [a].
Proof.
  unfold relevantAnalyses. intros -> N ->. destruct id; [congruence | reflexivity].
Qed.

Lemma single_verbatim (a : Analysis.t) (persona : option string) :
  Analysis.type a <> workflow ->
  exists out,
    generateCompositeSystemInstruction [a] persona = Ok out /\
    Contains (Analysis.title a) out /\ Contains (Analysis.summary a) out.
Proof.
  intros T. destruct (single_returns_unless_workflow a T) as (single & S).
  exists (personaPrefix persona ++ single ++ TOOL_INSTRUCTIONS).
  split; [now apply composite_of_single|].
  destruct (single_contents a single S) as (Ti & text & W & C).
  rewrite (knowledgeOf_verbatim [a] a (or_introl T)) in W. cbn [ToString] in W.
  apply Ok_inj in W. subst text. split; occurs.
Qed.

(** X12.  Editing the summary of the selected analysis reaches the
    model: the record of that id now holds the new summary (its other
    fields and the order of the store are kept), the chat history is
    emptied, the instruction is the one composed from the edited record
    and holds the new summary, the voice session is left closed and the
    text session is created on that instruction with an empty seed.  The
    analysis is taken not to be a workflow, whose summary is an envelope. *)
Theorem edited_summary_reaches_the_model
    (svc : Service.t) (id newSummary : string) (a : Analysis.t) :
  AppState.selectedAnalysisId (Service.state svc) = Some id -> id <> "" ->
  find (fun a => Analysis.id a =? id) (AppState.analyses (Service.state svc)) = Some a ->
  Analysis.type a <> workflow ->
  let r := updateAnalysisSummary id newSummary svc in
  let s := Service.state svc in
  let s' := Service.state (fst r) in
  snd r = Ok tt /\
  find (fun a => Analysis.id a =? id) (AppState.analyses s') =
    Some (withSummary newSummary a) /\
  map Analysis.id (AppState.analyses s') = map Analysis.id (AppState.analyses s) /\
  AppState.selectedAnalysisId s' = Some id /\
  AppState.chatHistory s' = [] /\
  generateCompositeSystemInstruction [withSummary newSummary a] (AppState.activePersona s) =
    Ok (AppState.systemInstruction s') /\
  Contains newSummary (AppState.systemInstruction s') /\
  Service.session (fst r) = None /\
  Service.textChatSession (fst r) =
    Some {| Chat.history := []; Chat.systemInstruction := AppState.systemInstruction s' |}.
Proof.
  intros Sel N F T. cbv zeta.
  destruct (findIndex_of_find _ _ _ F) as (i & FI).
  assert ((Analysis.id a =? id) = true) as Ia by (apply find_some in F; tauto).
  set (updated := setAt i (withSummary newSummary a) (AppState.analyses (Service.state svc))).
  set (svc1 := exec (setState [Set_analyses updated; Set_chatHistory []]) svc).
  assert (E : updateAnalysisSummary id newSummary svc =
              (updateSystemInstruction ;;
               logEvent ("Análise " ++ dq ++ Analysis.title a ++ dq ++ " atualizada.") info ;;
               resetSession ;; initializeTextChat) svc1).
  { unfold updateAnalysisSummary, bind at 1, getState. rewrite FI. reflexivity. }
  assert (find (fun a => Analysis.id a =? id) updated = Some (withSummary newSummary a)) as F1
    by (apply (find_setAt _ _ _ _ _ FI); exact Ia).
  destruct (single_verbatim (withSummary newSummary a)
              (AppState.activePersona (Service.state svc)) T) as (out & G & _ & C).
  assert (composed (Service.state svc1) = Ok out) as Co.
  { unfold composed. rewrite (relevant_selected _ id (withSummary newSummary a)); auto. }
  rewrite E.
  destruct (refreshed_after_note svc1 out
              ("Análise " ++ dq ++ Analysis.title a ++ dq ++ " atualizada.") Co)
    as (R0 & R1 & R2 & R3 & R4 & R5 & R6 & R7 & R8).
  rewrite R0, R1, R2, R3, R5, R7, R8.
  repeat split; auto.
  apply (map_setAt _ _ _ _ _ _ FI). reflexivity.
Qed.

(** X13.  With no analysis selected ([null] or an empty id)
    [insertImageIntoAnalysis] only reports the error: the store, the
    instruction, the chat history and both connections stay, and no
    collaborator is called. *)
Theorem image_needs_a_selection (svc : Service.t) (imageUrl : string) :
  truthy (AppState.selectedAnalysisId (Service.state svc)) = false ->
  let r := insertImageIntoAnalysis imageUrl svc in
  let s := Service.state svc in
  let s' := Service.state (fst r) in
  snd r = Ok tt /\
  AppState.error s' = "Nenhuma análise selecionada para inserir a imagem." /\
  AppState.status s' = "" /\
  AppState.analyses s' = AppState.analyses s /\
  AppState.systemInstruction s' = AppState.systemInstruction s /\
  AppState.chatHistory s' = AppState.chatHistory s /\
  Service.session (fst r) = Service.session svc /\
  Service.textChatSession (fst r) = Service.textChatSession svc /\
  Service.trace (fst r) = Service.trace svc.
Proof.
  intros G. cbv zeta.
  assert (E : insertImageIntoAnalysis imageUrl svc =
              updateError "Nenhuma análise selecionada para inserir a imagem." svc).
  { unfold insertImageIntoAnalysis, bind at 1, getState. now rewrite G. }
  rewrite E. destruct svc as [s h c t n]. destruct s. repeat split.
Qed.

Lemma insertImageIntoAnalysis_found
    (svc : Service.t) (id imageUrl : string) (a : Analysis.t) :
  AppState.selectedAnalysisId (Service.state svc) = Some id -> id <> "" ->
  find (fun a => Analysis.id a =? id) (AppState.analyses (Service.state svc)) = Some a ->
  let inserted := withSummary (Analysis.summary a ++ markdownImage imageUrl) a in
  exists svc1,
    insertImageIntoAnalysis imageUrl svc =
      (updateSystemInstruction ;;
       logEvent ("Imagem inserida na análise " ++ dq ++ Analysis.title a ++ dq ++ ".") info ;;
       updateStatus "Imagem inserida na análise!" ;;
       resetSession ;; initializeTextChat) svc1 /\
    find (fun a => Analysis.id a =? id) (AppState.analyses (Service.state svc1)) =
      Some inserted /\
    map Analysis.id (AppState.analyses (Service.state svc1)) =
      map Analysis.id (AppState.analyses (Service.state svc)) /\
    AppState.selectedAnalysisId (Service.state svc1) = Some id /\
    AppState.activePersona (Service.state svc1) = AppState.activePersona (Service.state svc) /\
    AppState.chatHistory (Service.state svc1) = AppState.chatHistory (Service.state svc).
Proof.
  intros Sel N F. cbv zeta.
  destruct (findIndex_of_find _ _ _ F) as (i & FI).
  assert ((Analysis.id a =? id) = true) as Ia by (apply find_some in F; tauto).
  exists (exec (setState
            [Set_analyses
               (setAt i (withSummary (Analysis.summary a ++ markdownImage imageUrl) a)
                      (AppState.analyses (Service.state svc)))]) svc).
  split; [|split; [|split; [|split; [|split]]]].
  - unfold insertImageIntoAnalysis, bind at 1, getState. rewrite Sel.
    destruct id; [congruence|]. cbn [truthy nonEmpty negb sameId]. rewrite FI. reflexivity.
  - apply (find_setAt _ _ _ _ _ FI). exact Ia.
  - apply (map_setAt _ _ _ _ _ _ FI). reflexivity.
  - exact Sel.
  - reflexivity.
  - reflexivity.
Qed.

(** X14.  Inserting an image appends its Markdown to the summary of the
    selected analysis and hands the new summary to the model: the
    instruction is composed from the changed record and holds the summary
    with the Markdown.  Unlike an edit of the summary, the chat history is
    kept and is replayed as the seed of the new text session.  The
    analysis is taken not to be a workflow. *)
Theorem inserted_image_reaches_the_model
    (svc : Service.t) (id imageUrl : string) (a : Analysis.t) :
  AppState.selectedAnalysisId (Service.state svc) = Some id -> id <> "" ->
  find (fun a => Analysis.id a =? id) (AppState.analyses (Service.state svc)) = Some a ->
  Analysis.type a <> workflow ->
  let r := insertImageIntoAnalysis imageUrl svc in
  let s := Service.state svc in
  let s' := Service.state (fst r) in
  let newSummary := Analysis.summary a ++ markdownImage imageUrl in
  snd r = Ok tt /\
  find (fun a => Analysis.id a =? id) (AppState.analyses s') =
    Some (withSummary newSummary a) /\
  map Analysis.id (AppState.analyses s') = map Analysis.id (AppState.analyses s) /\
  AppState.chatHistory s' = AppState.chatHistory s /\
  generateCompositeSystemInstruction [withSummary newSummary a] (AppState.activePersona s) =
    Ok (AppState.systemInstruction s') /\
  Contains newSummary (AppState.systemInstruction s') /\
  Service.textChatSession (fst r) =
    Some {| Chat.history := seedHistory (AppState.chatHistory s);
            Chat.systemInstruction := AppState.systemInstruction s' |}.
Proof.
  intros Sel N F T. cbv zeta.
  destruct (insertImageIntoAnalysis_found svc id imageUrl a Sel N F)
    as (svc1 & E & F1 & M1 & S1 & P1 & H1).
  destruct (single_verbatim (withSummary (Analysis.summary a ++ markdownImage imageUrl) a)
              (AppState.activePersona (Service.state svc)) T) as (out & G & _ & C).
  assert (composed (Service.state svc1) = Ok out) as Co.
  { unfold composed. rewrite (relevant_selected _ id _ S1 N F1). now rewrite P1. }
  rewrite E.
  destruct (refreshed_after_note_and_status svc1 out
              ("Imagem inserida na análise " ++ dq ++ Analysis.title a ++ dq ++ ".")
              "Imagem inserida na análise!" Co)
    as (R0 & R1 & R2 & R3 & R4 & R5 & R6 & R7 & R8).
  rewrite R0, R1, R2, R5, R8, H1. repeat split; auto.
Qed.


(** ** Deleting a saved session *)

Lemma find_after_filter {A} (f g : A -> bool) (l : list A) :
  (forall x, f x = true -> g x = true) -> find f (filter g l) = find f l.
Proof.
  intros K. induction l as [|x r IH]; cbn [filter find]; [reflexivity|].
  destruct (g x) eqn:Gx; cbn [find].
  - now rewrite IH.
  - destruct (f x) eqn:Fx; [|exact IH]. rewrite (K x Fx) in Gx. discriminate.
Qed.

Lemma find_none_after_filter {A} (f : A -> bool) (l : list A) :
  find f (filter (fun x => negb (f x)) l) = None.
Proof.
  induction l as [|x r IH]; cbn [filter find]; [reflexivity|].
  destruct (f x) eqn:Fx; cbn [negb find]; [exact IH | now rewrite Fx].
Qed.

Lemma filter_all {A} (f : A -> bool) (l : list A) :
  (forall x, In x l -> f x = true) -> filter f l = l.
Proof.
  induction l as [|x r IH]; intros K; cbn [filter]; [reflexivity|].
  rewrite (K x (or_introl eq_refl)), IH; [reflexivity|].
  intros y I. apply K. now right.
Qed.

Lemma deleteSession_facts (sessionId : string) (svc : Service.t) :
  let r := deleteSession sessionId svc in
  let s := Service.state svc in
  let s' := Service.state (fst r) in
  let kept := filter (fun x => negb (SavedSession.id x =? sessionId)) (AppState.savedSessions s) in
  snd r = Ok tt /\
  AppState.savedSessions s' = kept /\
  Service.trace (fst r) = (Service.trace svc ++ [StorageSetSessions kept])%list.
Proof. repeat split. Qed.

(** X16.  [deleteSession] takes out every saved session of that id and
    writes the list that remains to the storage.  Afterwards [loadSession]
    with that id does nothing, and a session of any other id is found as
    before. *)
Theorem deleted_session_cannot_be_loaded (svc : Service.t) (sessionId : string) :
  let svc' := exec (deleteSession sessionId) svc in
  let sessions := AppState.savedSessions (Service.state svc) in
  let sessions' := AppState.savedSessions (Service.state svc') in
  sessions' = filter (fun x => negb (SavedSession.id x =? sessionId)) sessions /\
  Service.trace svc' = (Service.trace svc ++ [StorageSetSessions sessions'])%list /\
  loadSession sessionId svc' = (svc', Ok tt) /\
  forall other, other <> sessionId ->
    find (fun x => SavedSession.id x =? other) sessions' =
    find (fun x => SavedSession.id x =? other) sessions.
Proof.
  cbv zeta.
  destruct (deleteSession_facts sessionId svc) as (_ & S & T).
  unfold exec. rewrite S, T. repeat split.
  - unfold loadSession, bind, getState. rewrite S.
    now rewrite (find_none_after_filter (fun x => SavedSession.id x =? sessionId)).
  - intros other N. apply find_after_filter. intros x E.
    apply String.eqb_eq in E. rewrite E. apply negb_true_iff. now apply String.eqb_neq.
Qed.

(** X17.  Saving the current session and deleting it again gives back
    the list of saved sessions, in the state and in the storage, when no
    session saved earlier has the id of the new one (ids are the clock in
    milliseconds; an earlier session of the same id would be deleted with
    it). *)
Theorem save_then_delete_restores_the_list
    (svc : Service.t) (answer : option string) (now : string) :
  (forall x, In x (AppState.savedSessions (Service.state svc)) -> SavedSession.id x <> now) ->
  let saved := exec (saveCurrentSession answer now) svc in
  let deleted := exec (deleteSession now) saved in
  let sessions := AppState.savedSessions (Service.state svc) in
  AppState.savedSessions (Service.state deleted) = sessions /\
  Service.trace deleted =
    (Service.trace svc ++
     [StorageSetSessions (sessionOf answer now (Service.state svc) :: sessions);
      StorageSetSessions sessions])%list.
Proof.
  intros Fresh. cbv zeta.
  destruct (saveCurrentSession_facts answer now svc) as (S1 & _ & _ & _ & _ & _ & _ & _ & T1).
  destruct (deleteSession_facts now (exec (saveCurrentSession answer now) svc))
    as (_ & S2 & T2).
  assert (filter (fun x => negb (SavedSession.id x =? now))
            (AppState.savedSessions (Service.state (exec (saveCurrentSession answer now) svc))) =
          AppState.savedSessions (Service.state svc)) as K.
  { rewrite S1. cbn [filter sessionOf SavedSession.id]. rewrite String.eqb_refl. cbn [negb].
    apply filter_all. intros x I. apply negb_true_iff, String.eqb_neq. now apply Fresh. }
  unfold exec at 1 3. rewrite S2, T2, K, T1, S1. split; [reflexivity|].
  now rewrite <- app_assoc.
Qed.

(** ** Resetting the session *)

Ltac run2 :=
  cbv beta iota zeta delta
    [bind ret throw exec outcome getState putState setState getSession putSession
     getTextChatSession putTextChatSession call readClock fold_left assign fst snd
     negb unawaited andLater resetSession_with setSelectedAnalysisId_start sameId
     updateSystemInstruction resetSession initializeTextChat stopRecording
     updateStatus updateError logEvent relevantAnalyses truthy
     updateVisualizerPanelVisibility
     Service.state Service.session Service.trace Service.textChatSession
     Service.clockReads
     AppState.selectedAnalysisId AppState.analyses AppState.activePersona
     AppState.isRecording AppState.chatHistory AppState.lastGeneratedImages
     AppState.processingState AppState.status AppState.error AppState.searchResults
     AppState.systemInstruction AppState.timelineEvents AppState.showTimelineModal
     AppState.showHistoryModal AppState.showSidebar AppState.showVisualizerPanel
     AppState.savedSessions AppState.searchHistory AppState.isChatting].

(** Without [clearAnalyses] the method is the one the setters call. *)
Lemma resetSession_with_false (svc : Service.t) :
  resetSession_with false svc = resetSession svc.
Proof.
  destruct svc as [s h c t n]. destruct s.
  unfold composed, relevantAnalyses. run2.
  destruct isRecording, h; run2;
  match goal with |- context [generateCompositeSystemInstruction ?a ?p] =>
    destruct (generateCompositeSystemInstruction a p) end; reflexivity.
Qed.

Lemma reset_facts (svc : Service.t) :
  let r := resetSession_with true svc in
  let s := Service.state svc in
  let s' := Service.state (fst r) in
  snd r = Ok tt /\
  AppState.analyses s' = [] /\
  AppState.selectedAnalysisId s' = None /\
  AppState.activePersona s' = None /\
  AppState.searchResults s' = [] /\
  AppState.isRecording s' = false /\
  Service.session (fst r) = None /\
  generateCompositeSystemInstruction [] None = Ok (AppState.systemInstruction s') /\
  Service.textChatSession (fst r) =
    Some {| Chat.history := seedHistory (AppState.chatHistory s');
            Chat.systemInstruction := AppState.systemInstruction s' |} /\
  (AppState.selectedAnalysisId s = None ->
     AppState.chatHistory s' = AppState.chatHistory s /\
     AppState.lastGeneratedImages s' = AppState.lastGeneratedImages s) /\
  (AppState.selectedAnalysisId s <> None ->
     AppState.chatHistory s' = [] /\ AppState.lastGeneratedImages s' = []).
Proof.
  destruct svc as [s h c t n]. destruct s.
  destruct (composite_of_none activePersona) as (o1 & E1).
  destruct (composite_of_none None) as (o2 & E2).
  cbv zeta. run2.
  destruct isRecording, h, selectedAnalysisId; run2; rewrite ?E1; run2; rewrite ?E2; run2;
    rewrite ?E2; run2; repeat split; try congruence; try discriminate.
Qed.

(** X18.  [resetSession()] never throws and leaves no analysis, no
    selection, no persona and no search result; recording is stopped, the
    voice session is closed, and the instruction is the one the composer
    gives for no analysis and no persona, on which the text session is
    created.  The chat history and the generated images are emptied only
    when an analysis was selected: with no selection
    [setSelectedAnalysisId(null)] returns at its guard, the history stays
    and it is replayed as the seed of the new text session. *)
Theorem reset_clears_the_store (svc : Service.t) :
  let r := resetSession_with true svc in
  let s := Service.state svc in
  let s' := Service.state (fst r) in
  snd r = Ok tt /\
  AppState.analyses s' = [] /\
  AppState.selectedAnalysisId s' = None /\
  AppState.activePersona s' = None /\
  AppState.searchResults s' = [] /\
  AppState.isRecording s' = false /\
  Service.session (fst r) = None /\
  generateCompositeSystemInstruction [] None = Ok (AppState.systemInstruction s') /\
  Service.textChatSession (fst r) =
    Some {| Chat.history := seedHistory (AppState.chatHistory s');
            Chat.systemInstruction := AppState.systemInstruction s' |} /\
  (AppState.selectedAnalysisId s = None ->
     AppState.chatHistory s' = AppState.chatHistory s /\
     AppState.lastGeneratedImages s' = AppState.lastGeneratedImages s) /\
  (AppState.selectedAnalysisId s <> None ->
     AppState.chatHistory s' = [] /\ AppState.lastGeneratedImages s' = []).
Proof. exact (reset_facts svc). Qed.

(** ** Recording *)

Ltac run' :=
  cbv beta iota zeta delta
    [then_ unit_ lift device initSession startRecording onInputAudio deleteSearchHistoryItem
     Runtime.service Runtime.devices handleError logged
     bind ret throw exec outcome getState putState setState getSession putSession
     getTextChatSession putTextChatSession call readClock fold_left assign fst snd
     negb
     updateSystemInstruction resetSession initializeTextChat stopRecording
     updateStatus updateError logEvent relevantAnalyses
     updateVisualizerPanelVisibility
     Service.state Service.session Service.trace Service.textChatSession
     Service.clockReads
     AppState.selectedAnalysisId AppState.analyses AppState.activePersona
     AppState.isRecording AppState.chatHistory AppState.lastGeneratedImages
     AppState.processingState AppState.status AppState.error AppState.searchResults
     AppState.systemInstruction AppState.timelineEvents AppState.showTimelineModal
     AppState.showHistoryModal AppState.showSidebar AppState.showVisualizerPanel
     AppState.savedSessions AppState.searchHistory AppState.isChatting].

Lemma calls_snoc (l : list (nat * Device)) (k : nat) (d : Device) :
  map snd (l ++ [(k, d)]) = (map snd l ++ [d])%list.
Proof. now rewrite map_app. Qed.

Ltac devices :=
  intros; unfold deviceCalls; cbn [Runtime.devices];
  rewrite ?calls_snoc, <- ?app_assoc; reflexivity.

(** X19.  [startRecording] opens the voice session only when there is
    none, with the instruction in the state, and then the microphone; an
    open session is used as it is.  While recording, each blob of the
    microphone is sent to the session, a second [startRecording] does
    nothing, and [stopRecording] stops the microphone and leaves the
    session open. *)
Theorem recording_opens_the_session_on_demand (w : Runtime.t) :
  AppState.isRecording (Service.state (Runtime.service w)) = false ->
  let r := startRecording None None w in
  let w' := fst r in
  let s := Service.state (Runtime.service w) in
  let s' := Service.state (Runtime.service w') in
  snd r = Ok tt /\
  AppState.isRecording s' = true /\
  AppState.status s' = "Escutando..." /\
  AppState.systemInstruction s' = AppState.systemInstruction s /\
  Service.session (Runtime.service w') =
    Some (match Service.session (Runtime.service w) with
          | Some h => h
          | None => {| LiveSession.systemInstruction := AppState.systemInstruction s |}
          end) /\
  deviceCalls w' =
    (deviceCalls w ++
     match Service.session (Runtime.service w) with
     | Some _ => [AudioStart]
     | None => [LiveConnect (AppState.systemInstruction s); AudioStart]
     end)%list /\
  (forall blob,
     deviceCalls (fst (onInputAudio blob w')) = (deviceCalls w' ++ [SendRealtimeInput blob])%list) /\
  (forall answer microphone, startRecording answer microphone w' = (w', Ok tt)) /\
  let stopped := fst (stopRecording (Runtime.service w')) in
  AppState.isRecording (Service.state stopped) = false /\
  Service.session stopped = Service.session (Runtime.service w') /\
  Service.trace stopped = (Service.trace (Runtime.service w) ++ [AudioStop])%list.
Proof.
  destruct w as [[s h c t n] d]. destruct s. cbn [Runtime.service Service.state
    Service.session AppState.isRecording]. intros ->. cbv zeta.
  destruct h as [h|].
  - run'. repeat split. all: devices.
  - run'. repeat split. all: devices.
Qed.

(** X20.  When the microphone is refused, recording stays off and the
    error is shown.  [stopRecording] is called by the [catch] block and
    returns at its guard, so the audio service is not stopped, and since
    recording is off no blob is sent. *)
Theorem refused_microphone_leaves_recording_off
    (w : Runtime.t) (answer : option JsError) (err : JsError) :
  AppState.isRecording (Service.state (Runtime.service w)) = false ->
  let r := startRecording answer (Some err) w in
  let w' := fst r in
  let s' := Service.state (Runtime.service w') in
  snd r = Ok tt /\
  AppState.isRecording s' = false /\
  AppState.error s' = "Erro ao iniciar gravação: " ++ messageOrString err /\
  AppState.status s' = "" /\
  Service.trace (Runtime.service w') = Service.trace (Runtime.service w) /\
  (exists calls, deviceCalls w' = (deviceCalls w ++ calls ++ [AudioStart])%list) /\
  forall blob, onInputAudio blob w' = (w', Ok tt).
Proof.
  destruct w as [[s h c t n] d]. destruct s. cbn [Runtime.service Service.state
    Service.session AppState.isRecording]. intros ->. cbv zeta.
  destruct h as [h|]; [|destruct answer as [e|]].
  - run'. repeat split. exists []. devices.
  - run'. repeat split. eexists [_]. devices.
  - run'. repeat split. eexists [_]. devices.
Qed.

(** X21.  When the connection of the voice session fails, [initSession]
    reports the error and [startRecording] goes on: the microphone is
    opened and recording is on with no session.  The next status update
    clears the error, which stays in the timeline only, and the blobs of
    the microphone are dropped. *)
Theorem recording_goes_on_without_a_session
    (w : Runtime.t) (err : JsError) :
  AppState.isRecording (Service.state (Runtime.service w)) = false ->
  Service.session (Runtime.service w) = None ->
  let r := startRecording (Some err) None w in
  let w' := fst r in
  let s := Service.state (Runtime.service w) in
  let s' := Service.state (Runtime.service w') in
  let k := Service.clockReads (Runtime.service w) in
  snd r = Ok tt /\
  AppState.isRecording s' = true /\
  AppState.status s' = "Escutando..." /\
  AppState.error s' = "" /\
  Service.session (Runtime.service w') = None /\
  deviceCalls w' =
    (deviceCalls w ++ [LiveConnect (AppState.systemInstruction s); AudioStart])%list /\
  AppState.timelineEvents s' =
    (AppState.timelineEvents s ++
     [logged k "Iniciando nova sessão de áudio..." connect;
      logged (S k) ("Falha ao iniciar a sessão: " ++ messageOrString err) error;
      logged (S (S k)) "Gravação iniciada." record])%list /\
  forall blob, onInputAudio blob w' = (w', Ok tt).
Proof.
  destruct w as [[s h c t n] d]. destruct s. cbn [Runtime.service Service.state
    Service.session AppState.isRecording]. intros -> ->. cbv zeta. run'.
  repeat split; [devices | now rewrite <- !app_assoc].
Qed.

(** ** The connections and the stored instruction *)

Lemma untouched_ret {A} (a : A) : untouched (ret a).
Proof. intros svc. reflexivity. Qed.

Lemma untouched_bind {A B} (m : M A) (k : A -> M B) :
  untouched m -> (forall a, untouched (k a)) -> untouched (x <- m ;; k x).
Proof.
  intros Hm Hk svc. unfold bind. specialize (Hm svc).
  destruct (m svc) as [svc1 [a|e]]; cbn [fst] in *; [|exact Hm].
  now rewrite (Hk a svc1).
Qed.

Lemma untouched_getState : untouched getState.
Proof. intros svc. reflexivity. Qed.

Lemma untouched_readClock : untouched readClock.
Proof. intros svc. reflexivity. Qed.

Lemma untouched_call (e : Event) : untouched (call e).
Proof. intros svc. reflexivity. Qed.

Lemma assign_plain (a : Assign) (s : AppState.t) :
  plain a = true -> AppState.systemInstruction (assign a s) = AppState.systemInstruction s.
Proof. destruct a; try discriminate; reflexivity. Qed.

Lemma untouched_setState (updater : list Assign) :
  forallb plain updater = true -> untouched (setState updater).
Proof.
  intros P svc. unfold setState, bind, getState, putState, wiring. cbn [fst Service.session
    Service.textChatSession Service.state]. f_equal.
  revert P. generalize (Service.state svc). induction updater as [|a l IH]; intros s P;
    cbn [fold_left forallb] in *; [reflexivity|].
  apply andb_true_iff in P as [Pa Pl]. rewrite (IH _ Pl). now apply assign_plain.
Qed.

Ltac still :=
  lazymatch goal with
  | |- untouched (ret _) => apply untouched_ret
  | |- untouched getState => apply untouched_getState
  | |- untouched readClock => apply untouched_readClock
  | |- untouched (call _) => apply untouched_call
  | |- untouched (setState _) => apply untouched_setState; reflexivity
  | |- untouched (bind _ _) => apply untouched_bind; [still | intros ?; still]
  | |- untouched (match ?x with _ => _ end) => destruct x; still
  | |- untouched (if ?x then _ else _) => destruct x; still
  end.

Lemma untouched_logEvent (message : string) (type : EventType) :
  untouched (logEvent message type).
Proof. unfold logEvent. still. Qed.

Lemma untouched_updateStatus (msg : string) : untouched (updateStatus msg).
Proof. unfold updateStatus. still. Qed.

Lemma untouched_updateError (msg : string) : untouched (updateError msg).
Proof. unfold updateError, logEvent. still. Qed.

Lemma untouched_stopRecording : untouched stopRecording.
Proof. unfold stopRecording, updateStatus, logEvent. still. Qed.

Lemma untouched_triggerImageGeneration (prompt : string) (count : N) :
  untouched (_triggerImageGeneration prompt count).
Proof. unfold _triggerImageGeneration. still. Qed.

Lemma untouched_triggerImageEditing (prompt : string) :
  untouched (_triggerImageEditing prompt).
Proof. unfold _triggerImageEditing. still. Qed.

Lemma untouched_chatFailed (err : JsError) : untouched (chatFailed err).
Proof. unfold chatFailed, handleError, updateError, logEvent. still. Qed.

Lemma untouched_recognise (text : string) (turn : Turn.t) : untouched (recognise text turn).
Proof.
  unfold recognise. destruct (Turn.commandProcessed turn); [still|].
  destruct (generateRegex text); [|destruct (editRegex text)].
  - apply untouched_bind; [still|]. intros ?.
    apply untouched_bind; [apply untouched_triggerImageGeneration|]. intros ?. still.
  - apply untouched_bind; [still|]. intros ?.
    apply untouched_bind; [apply untouched_triggerImageEditing|]. intros ?. still.
  - still.
Qed.

Lemma untouched_onChunk (chunk : Chunk.t) (turn : Turn.t) : untouched (onChunk chunk turn).
Proof.
  unfold onChunk. apply untouched_bind; [|intros ?; still].
  destruct (Chunk.text chunk) as [t|]; [|still].
  destruct (nonEmpty t); [|still].
  apply untouched_bind; [apply untouched_recognise|]. intros ?. still.
Qed.

Lemma untouched_forAwait (chunks : list Chunk.t) :
  forall turn, untouched (forAwait chunks turn).
Proof.
  induction chunks as [|chunk rest IH]; intros turn; cbn [forAwait]; [still|].
  apply untouched_bind; [apply untouched_onChunk | exact IH].
Qed.

Lemma untouched_sendTextMessage (message : string) (reply : Reply) :
  untouched (sendTextMessage message reply).
Proof.
  unfold sendTextMessage.
  apply untouched_bind; [intros svc; reflexivity|]. intros chat.
  apply untouched_bind; [still|]. intros s.
  match goal with |- untouched (if ?b then _ else _) => destruct b end; [still|].
  apply untouched_bind; [still|]. intros ?.
  apply untouched_bind; [still|]. intros ?.
  destruct reply as [err | chunks failure]; [apply untouched_chatFailed|].
  apply untouched_bind; [still|]. intros ?.
  apply untouched_bind; [still|]. intros ?.
  apply untouched_bind; [apply untouched_forAwait|]. intros turn.
  destruct failure; [apply untouched_chatFailed | still].
Qed.

Lemma connected_of_wiring (svc svc' : Service.t) :
  wiring svc' = wiring svc -> connected svc -> connected svc'.
Proof. unfold wiring, connected. intros [= -> -> ->]. auto. Qed.

Lemma connected_fresh (svc : Service.t) (seed : list Content.t) :
  Service.session svc = None ->
  Service.textChatSession svc =
    Some {| Chat.history := seed;
            Chat.systemInstruction := AppState.systemInstruction (Service.state svc) |} ->
  connected svc.
Proof.
  intros S C. split; [rewrite S; discriminate|]. rewrite C. now intros c [= <-].
Qed.
Lemma connected_untouched {A} (m : M A) (svc : Service.t) :
  untouched m -> connected svc -> connected (fst (m svc)).
Proof. intros U. apply connected_of_wiring, U. Qed.

Lemma connected_setSelectedAnalysisId (id : option string) (svc : Service.t) :
  connected svc -> connected (fst (setSelectedAnalysisId id svc)).
Proof.
  intros C.
  destruct (setSelectedAnalysisId_facts id svc) as (_ & _ & _ & _ & Cases).
  destruct Cases as [[_ E] | (_ & _ & _ & [(e & _ & E) | (out & _ & _ & I & S & T & _)])].
  - now rewrite E.
  - rewrite E. revert C. now apply connected_of_wiring.
  - apply connected_fresh with []; [exact S|]. now rewrite T, I.
Qed.

Lemma connected_rebuild (svc : Service.t) :
  connected svc ->
  connected (fst ((updateSystemInstruction ;; resetSession ;; initializeTextChat) svc)).
Proof.
  intros C. destruct (composed (Service.state svc)) as [out|e] eqn:Co.
  - destruct (rebuild_facts _ _ Co) as (_ & I & _ & _ & _ & _ & _ & _ & S & T & _).
    eapply connected_fresh; [exact S|]. rewrite T, I. reflexivity.
  - now rewrite (bind_Throw _ _ _ _ _ (updateSystemInstruction_throws _ _ Co)).
Qed.

Lemma connected_resetSession (svc : Service.t) :
  connected svc -> connected (fst (resetSession svc)).
Proof.
  destruct svc as [s h c t n]. destruct s. unfold connected. intros [_ C].
  cbn [Service.textChatSession Service.state AppState.systemInstruction] in C.
  destruct isRecording, h; run;
    match goal with |- context [generateCompositeSystemInstruction ?a ?p] =>
      destruct (generateCompositeSystemInstruction a p) end; run;
    (split; [discriminate|]); try exact C; now intros ? [= <-].
Qed.

Lemma connected_refresh_note (svc : Service.t) (message : string) :
  connected svc ->
  connected (fst ((updateSystemInstruction ;; logEvent message info ;;
                   resetSession ;; initializeTextChat) svc)).
Proof.
  intros C. destruct (composed (Service.state svc)) as [out|e] eqn:Co.
  - destruct (refreshed_after_note svc out message Co)
      as (_ & I & _ & _ & _ & _ & _ & S & T).
    eapply connected_fresh; [exact S|]. rewrite T, I. reflexivity.
  - now rewrite (bind_Throw _ _ _ _ _ (updateSystemInstruction_throws _ _ Co)).
Qed.

Lemma connected_refresh_note_status (svc : Service.t) (message status : string) :
  connected svc ->
  connected (fst ((updateSystemInstruction ;; logEvent message info ;; updateStatus status ;;
                   resetSession ;; initializeTextChat) svc)).
Proof.
  intros C. destruct (composed (Service.state svc)) as [out|e] eqn:Co.
  - destruct (refreshed_after_note_and_status svc out message status Co)
      as (_ & I & _ & _ & _ & _ & _ & S & T).
    eapply connected_fresh; [exact S|]. rewrite T, I. reflexivity.
  - now rewrite (bind_Throw _ _ _ _ _ (updateSystemInstruction_throws _ _ Co)).
Qed.
Lemma removeAnalysis_steps (idToRemove : string) (svc : Service.t) :
  exists newSelectedId,
    removeAnalysis idToRemove svc =
    setSelectedAnalysisId newSelectedId (removing idToRemove svc).
Proof.
  exists (if sameId (Some idToRemove) (AppState.selectedAnalysisId (Service.state svc))
          then firstIdOrNull
                 (filter (fun a => negb (Analysis.id a =? idToRemove))
                         (AppState.analyses (Service.state svc)))
          else AppState.selectedAnalysisId (Service.state svc)).
  reflexivity.
Qed.

Lemma connected_lift {A} (m : M A) (w : Runtime.t) :
  (connected (Runtime.service w) -> connected (fst (m (Runtime.service w)))) ->
  connected (Runtime.service w) -> connected (Runtime.service (fst (lift m w))).
Proof.
  intros K C. unfold lift. specialize (K C).
  destruct (m (Runtime.service w)) as [svc' r]. exact K.
Qed.

Lemma connected_updateAnalysisSummary (analysisId newSummary : string) (svc : Service.t) :
  connected svc -> connected (fst (updateAnalysisSummary analysisId newSummary svc)).
Proof.
  intros C. unfold updateAnalysisSummary, bind at 1, getState.
  destruct (findIndex _ _) as [[i a]|]; [|exact C].
  match goal with |- connected (fst ((setState ?u ;; ?rest) ?svc)) =>
    change ((setState u ;; rest) svc) with (rest (exec (setState u) svc))
  end.
  apply connected_refresh_note. revert C. now apply connected_of_wiring.
Qed.

Lemma connected_insertImageIntoAnalysis (imageUrl : string) (svc : Service.t) :
  connected svc -> connected (fst (insertImageIntoAnalysis imageUrl svc)).
Proof.
  intros C. unfold insertImageIntoAnalysis, bind at 1, getState.
  destruct (negb _).
  - apply connected_untouched; [apply untouched_updateError | exact C].
  - destruct (findIndex _ _) as [[i a]|]; [|exact C].
    match goal with |- connected (fst ((setState ?u ;; ?rest) ?svc)) =>
      change ((setState u ;; rest) svc) with (rest (exec (setState u) svc))
    end.
    apply connected_refresh_note_status. revert C. now apply connected_of_wiring.
Qed.

Lemma connected_loadSession (sessionId : string) (svc : Service.t) :
  connected svc -> connected (fst (loadSession sessionId svc)).
Proof.
  intros C. unfold loadSession, bind at 1, getState.
  destruct (find _ _) as [session|]; [|exact C].
  rewrite (bind_Ok _ _ svc (loading session svc) tt eq_refl).
  assert (connected (loading session svc)) as C1
    by (revert C; now apply connected_of_wiring).
  pose proof (connected_setSelectedAnalysisId
                (firstIdOrNull (SavedSession.analyses session)) _ C1) as C2.
  unfold bind.
  destruct (setSelectedAnalysisId _ (loading session svc)) as [svc2 [[]|e]];
    cbn [fst] in *; [|exact C2].
  apply connected_untouched; [apply untouched_logEvent | exact C2].
Qed.

Lemma connected_startRecording (answer microphone : option JsError) (w : Runtime.t) :
  connected (Runtime.service w) ->
  connected (Runtime.service (fst (startRecording answer microphone w))).
Proof.
  destruct w as [[s h c t n] d]. destruct s. unfold connected.
  destruct isRecording; [run'; exact (fun C => C)|].
  destruct h as [h|]; [|destruct answer]; destruct microphone; run';
    intros [Cv Ct]; (split; [|exact Ct]); try exact Cv; try discriminate;
    now intros ? [= <-].
Qed.

(** One call keeps the connections on the stored instruction. *)
Lemma connected_operation (op : Operation) (w : Runtime.t) :
  connected (Runtime.service w) -> connected (Runtime.service (fst (operate op w))).
Proof.
  destruct op; cbn [operate]; try apply connected_lift.
  - apply connected_setSelectedAnalysisId.
  - intros C. rewrite setPersona_steps. apply connected_rebuild.
    revert C. now apply connected_of_wiring.
  - intros C. destruct (removeAnalysis_steps idToRemove (Runtime.service w)) as (i & ->).
    apply connected_setSelectedAnalysisId. revert C. now apply connected_of_wiring.
  - apply connected_updateAnalysisSummary.
  - apply connected_insertImageIntoAnalysis.
  - intros C. destruct clearAnalyses.
    + destruct (reset_facts (Runtime.service w)) as (_ & _ & _ & _ & _ & _ & S & _ & T & _).
      eapply connected_fresh; [exact S | exact T].
    + rewrite resetSession_with_false. now apply connected_resetSession.
  - apply connected_startRecording.
  - apply connected_untouched, untouched_stopRecording.
  - apply connected_untouched, untouched_sendTextMessage.
  - apply connected_untouched. unfold saveCurrentSession, logEvent. still.
  - apply connected_loadSession.
  - apply connected_untouched. unfold deleteSession, logEvent. still.
  - destruct w as [[s h c t n] d]. destruct s. run'. exact (fun C => C).
Qed.

(** X22.  In a new service, and after any sequence of calls of the
    methods of the service, each run to its end before the next, whatever
    the collaborators answer and whether or not a call throws, each
    connection that is open carries the instruction held in the state:
    the voice session was connected with it and the text session was
    created with it. *)
Theorem connections_carry_the_stored_instruction
    (savedSessions : list SavedSession.t) (searchHistory : list SearchHistoryItem.t)
    (ops : list Operation) :
  connected (Runtime.service (afterCalls ops (started savedSessions searchHistory))).
Proof.
  assert (connected (Runtime.service (started savedSessions searchHistory))) as C0.
  { unfold started, constructor, initialState. cbn [Runtime.service].
    destruct (composite_of_none None) as (out & E).
    run. rewrite E. run. split; [discriminate|]. now intros c [= <-]. }
  revert C0. generalize (started savedSessions searchHistory).
  induction ops as [|op rest IH]; intros w C; cbn [afterCalls fold_left]; [exact C|].
  apply IH. now apply connected_operation.
Qed.

End Properties.

(** * The properties on concrete inputs *)

#[local] Existing Instance Reference.host.

(** ** C10 *)

Lemma sendTextMessage_guard_example :
  sendTextMessage "   " (Stream [textChunk "Olá"] None) ready = (ready, Ok tt).
Proof.
  apply (sendTextMessage_guard_is_noop ready "   " (Stream [textChunk "Olá"] None)).
  left. reflexivity.
Defined.

(** ** C9 *)

(** The assistant message carries an image and a text: it is part of the
    seed history, against C9 as worded. *)
Lemma seed_keeps_message_with_image : ~ seed_excludes_image_messages illustrated.
Proof. unfold seed_excludes_image_messages. vm_compute. discriminate. Qed.

(** ** C7 *)


(** Inside a turn the suffix does not survive: the job runs to its end
    before the loop assigns the stripped buffer to the same message. *)
Example edit_suffix_is_overwritten_by_the_loop :
  AppState.chatHistory
    (Service.state
       (exec (sendTextMessage "troque o fundo"
                (Stream [textChunk "Certo! [edit_image: 'add a galaxy background']"] None))
             ready)) =
  [plainMessage user "troque o fundo"; plainMessage model "Certo!"].
Proof. vm_compute. reflexivity. Qed.

(** ** C8 *)

Lemma ready_accepts (message : string) : trim message <> "" -> accepted ready message.
Proof. intros T. repeat split; [discriminate | exact T]. Defined.

Lemma malformed_directive_example :
  Service.trace (exec (sendTextMessage "desenhe gatos" (Stream malformedStream None)) ready) =
    (Service.trace ready ++ [SendMessageStream "desenhe gatos"])%list /\
  AppState.chatHistory
    (Service.state
       (exec (sendTextMessage "desenhe gatos" (Stream malformedStream None)) ready)) =
    [plainMessage user "desenhe gatos";
     plainMessage model "Claro: [generate_images(x): 'cats']"].
Proof.
  assert (forall k, directiveIn (buffer (firstn k malformedStream)) = None) as N.
  { intros k. do 4 (destruct k as [|k]; [reflexivity|]). reflexivity. }
  destruct (malformed_directive_stays_in_text ready "desenhe gatos" malformedStream None
              (ready_accepts "desenhe gatos" ltac:(discriminate)) N) as (T & H & _).
  split; [exact T | exact H].
Defined.

(** ** C2 *)

(** Both grammars match the first buffer and the edit match stands first,
    yet the generate directive is the one dispatched. *)
Lemma generate_wins_over_earlier_edit :
  ~ earliest_match_is_dispatched ready "edite e desenhe" editThenGenerate.
Proof.
  intros H.
  pose (g := {| before := "[edit_image: 'add a hat'] "; groups := ("1", "a cat");
                after := "" |}).
  pose (e := {| before := ""; groups := "add a hat";
                after := " [generate_images(1): 'a cat']" |}).
  assert (dispatched (Service.trace
            (exec (sendTextMessage "edite e desenhe" (Stream editThenGenerate None)) ready)) =
          (dispatched (Service.trace ready) ++ [EditImage (groups e)])%list) as K.
  { apply (H 1 g e).
    - intros j J. replace j with 0 by lia. reflexivity.
    - reflexivity.
    - reflexivity.
    - cbn. lia. }
  vm_compute in K. discriminate K.
Qed.

Lemma one_directive_example :
  exists jobs,
    dispatched (Service.trace
      (exec (sendTextMessage "dois gatos" (Stream twoCats None)) ready)) =
    (dispatched (Service.trace ready) ++ jobs)%list /\
    List.length jobs <= 1.
Proof.
  destruct (one_directive_per_turn ready "dois gatos" twoCats None
              (ready_accepts "dois gatos" ltac:(discriminate))) as (jobs & D & L & _).
  exists jobs. split; [exact D | exact L].
Defined.

(** The stream of the specification: the directive is dispatched once,
    with count 2, and is stripped from the text shown. *)
Example two_cats_turn :
  let svc' := exec (sendTextMessage "dois gatos" (Stream twoCats None)) ready in
  dispatched (Service.trace svc') = [GenerateImages "two cats playing" 2] /\
  option_map ChatMessage.text (lastOf (AppState.chatHistory (Service.state svc'))) =
    Some "Olá!".
Proof. vm_compute. split; reflexivity. Qed.

(** ** C5 and C6 *)

(** The summary of a workflow analysis is not in the instruction. *)
Lemma workflow_summary_is_not_copied :
  ~ instruction_holds_every_summary [brokenWorkflow] None.
Proof.
  intros (out & E & H).
  destruct (H brokenWorkflow (or_introl eq_refl)) as [_ C].
  revert C. apply containsb_false.
  replace out with
    (match generateCompositeSystemInstruction [brokenWorkflow] None with
     | Ok o => o | Throw _ => ""
     end) by (rewrite E; reflexivity).
  vm_compute. reflexivity.
Qed.

Lemma composed_instruction_example :
  exists out,
    generateCompositeSystemInstruction [report; lecture] (Some "tutor") = Ok out /\
    Contains (Analysis.title lecture) out /\
    Contains (Analysis.summary lecture) out.
Proof.
  destruct (generateCompositeSystemInstruction [report; lecture] (Some "tutor"))
    as [out|e] eqn:E; [|vm_compute in E; discriminate E].
  exists out. split; [reflexivity|].
  destruct (composed_instruction_contents [report; lecture] (Some "tutor") out E)
    as [_ Each].
  destruct (Each lecture (or_intror (or_introl eq_refl))) as (T & _ & V).
  split; [exact T|]. apply V. left. discriminate.
Defined.

(** C6.  The composer throws: parsing succeeds, [parsed.summary] is an
    object, the [try] block ends normally with [workflowSummary] holding
    that object, and the template literal after the block fails to
    convert it to a string (its own member [toString] is not callable and
    [valueOf] gives back the object).  Nothing catches that [TypeError],
    in the single form or in the composite one. *)
Theorem composer_throws_on_unprintable_summary :
  generateCompositeSystemInstruction [unprintableWorkflow] None = Throw TypeError /\
  generateCompositeSystemInstruction [report; unprintableWorkflow] (Some "tutor") =
    Throw TypeError.
Proof. split; vm_compute; reflexivity. Qed.

(** A summary that is not JSON takes the path the code provides for: the
    placeholder is in the instruction. *)
Example broken_workflow_gets_placeholder :
  exists out,
    generateCompositeSystemInstruction [brokenWorkflow] None = Ok out /\
    Contains "Ocorreu um erro ao processar o resumo do fluxo de trabalho." out.
Proof.
  apply unparsable_workflow_gets_placeholder with (e := SyntaxError); reflexivity.
Qed.

(** ** C3 *)


(** With an empty id in first place the selection falls to [null]:
    [l[0]?.id || null] reads the empty string as no id. *)
Example empty_id_is_read_as_null :
  firstIdOrNull
    [{| Analysis.id := ""; Analysis.title := "Sem id"; Analysis.source := "";
        Analysis.summary := ""; Analysis.type := file; Analysis.persona := assistant;
        Analysis.previewData := None; Analysis.tags := None |}] = None.
Proof. reflexivity. Qed.

(** ** C4 *)



(** ** C1 *)

(** Selecting [null] again returns at once; the instruction is still the
    one composed without the persona. *)
Lemma repeated_selection_leaves_instruction_stale :
  ~ never_stale reloaded [CallSetSelectedAnalysisId None].
Proof.
  intros H. unfold never_stale in H. cbn [afterEach] in H. apply Forall_inv in H.
  unfold inSync in H. vm_compute in H. discriminate H.
Qed.

Lemma instruction_stays_in_step_example :
  Forall inSync
    (afterEach [CallSetPersona (Some "tutor"); CallSetSelectedAnalysisId (Some "a2");
                CallSetSelectedAnalysisId (Some "a2"); CallSetSelectedAnalysisId None]
               withReport).
Proof.
  assert (AppState.analyses (Service.state withReport) = [report; lecture]) as A
    by (vm_compute; reflexivity).
  apply instruction_stays_in_step.
  - unfold inSync. vm_compute. reflexivity.
  - rewrite A. repeat constructor; discriminate.
  - rewrite A. intros a [<- | [<- | []]]; apply single_returns_unless_workflow; discriminate.
Defined.

(** * The further properties on concrete inputs *)

(** ** Directives *)


(** ** The composer *)

Lemma tool_instructions_example :
  exists body,
    generateCompositeSystemInstruction [report] (Some "tutor") =
    Ok (personaPrefix (Some "tutor") ++ body ++ TOOL_INSTRUCTIONS).
Proof.
  destruct (generateCompositeSystemInstruction [report] (Some "tutor"))
    as [out|e] eqn:E; [|vm_compute in E; discriminate E].
  destruct (instruction_ends_with_the_tool_instructions [report] (Some "tutor") out E)
    as (body & ->).
  now exists body.
Defined.

Lemma composer_returns_example :
  exists out,
    generateCompositeSystemInstruction [report; lecture] (Some "direct") = Ok out /\
    Contains (Analysis.summary report) out.
Proof.
  destruct (composer_returns_when_no_workflow [report; lecture] (Some "direct"))
    as (out & G & Each).
  - intros a [<- | [<- | []]]; discriminate.
  - exists out. split; [exact G|]. exact (proj2 (Each report (or_introl eq_refl))).
Defined.

Lemma placeholder_example :
  exists out,
    generateCompositeSystemInstruction [report; brokenWorkflow] None = Ok out /\
    Contains "Erro ao processar o resumo do fluxo de trabalho." out.
Proof.
  destruct (generateCompositeSystemInstruction [report; brokenWorkflow] None)
    as [out|e] eqn:G; [|vm_compute in G; discriminate G].
  exists out. split; [reflexivity|].
  apply (unparsable_workflow_is_replaced_by_a_placeholder
           [report; brokenWorkflow] None brokenWorkflow SyntaxError out G).
  - right. left. reflexivity.
  - reflexivity.
  - vm_compute. reflexivity.
Defined.

(** ** Turns *)

Lemma rejected_send_example :
  AppState.isChatting
    (Service.state (exec (sendTextMessage "olá" (Rejected (ErrorObject "offline"))) ready)) =
  true.
Proof.
  exact (proj1 (rejected_send_leaves_chat_locked ready "olá" (ErrorObject "offline")
                  (ready_accepts "olá" ltac:(discriminate)))).
Defined.

Lemma opened_stream_example :
  AppState.isChatting
    (Service.state
       (exec (sendTextMessage "dois gatos" (Stream twoCats (Some (Thrown "fim")))) ready)) =
  false.
Proof.
  exact (proj1 (opened_stream_ends_the_turn ready "dois gatos" twoCats (Some (Thrown "fim"))
                  (ready_accepts "dois gatos" ltac:(discriminate)))).
Defined.

Lemma cited_sources_example :
  NoDup (map SearchResult.uri
           (AppState.searchResults
              (Service.state (exec (sendTextMessage "fontes?" (Stream citing None)) ready)))).
Proof.
  exact (proj1 (completed_turn_lists_each_source_once ready "fontes?" citing
                  (ready_accepts "fontes?" ltac:(discriminate)))).
Defined.

Lemma panel_message_example :
  exists tail,
    AppState.chatHistory
      (Service.state (exec (sendTextMessage "olá" (Stream [textChunk "Oi!"] None)) ready)) =
    (AppState.chatHistory (Service.state ready) ++ plainMessage user "olá" :: tail)%list.
Proof.
  refine (proj2 (panel_message_passes_the_guard ready (Some "  olá ") "olá"
                   (Stream [textChunk "Oi!"] None) _ _)).
  - vm_compute. discriminate.
  - vm_compute. reflexivity.
Defined.

(** ** The store *)

Lemma removing_unselected_example :
  AppState.selectedAnalysisId (Service.state (exec (removeAnalysis "a2") withReport)) =
  AppState.selectedAnalysisId (Service.state withReport).
Proof.
  refine (proj1 (proj2 (removing_unselected_keeps_the_context withReport "a2" _))).
  vm_compute. discriminate.
Defined.

Lemma unknown_analysis_example :
  updateAnalysisSummary "a9" "Novo resumo." withReport = (withReport, Ok tt).
Proof.
  apply (unknown_analysis_is_not_updated withReport "a9" "Novo resumo.").
  assert (AppState.analyses (Service.state withReport) = [report; lecture]) as ->
    by (vm_compute; reflexivity).
  intros a [<- | [<- | []]]; discriminate.
Defined.

Lemma edited_summary_example :
  Contains "As vendas caíram 3%."
    (AppState.systemInstruction
       (Service.state (fst (updateAnalysisSummary "a1" "As vendas caíram 3%." withReport)))).
Proof.
  refine (proj1 (proj2 (proj2 (proj2 (proj2 (proj2 (proj2
            (edited_summary_reaches_the_model withReport "a1" "As vendas caíram 3%." report
               _ _ _ _))))))));
    [vm_compute; reflexivity | discriminate | vm_compute; reflexivity | discriminate].
Defined.

Lemma image_needs_a_selection_example :
  AppState.error
    (Service.state (fst (insertImageIntoAnalysis "data:image/png;base64,AAAA" ready))) =
  "Nenhuma análise selecionada para inserir a imagem.".
Proof.
  refine (proj1 (proj2 (image_needs_a_selection ready "data:image/png;base64,AAAA" _))).
  vm_compute. reflexivity.
Defined.

Lemma inserted_image_example :
  AppState.chatHistory
    (Service.state (fst (insertImageIntoAnalysis "data:image/png;base64,AAAA" withReport))) =
  AppState.chatHistory (Service.state withReport).
Proof.
  refine (proj1 (proj2 (proj2 (proj2
            (inserted_image_reaches_the_model withReport "a1" "data:image/png;base64,AAAA"
               report _ _ _ _)))));
    [vm_compute; reflexivity | discriminate | vm_compute; reflexivity | discriminate].
Defined.


Lemma save_then_delete_example :
  AppState.savedSessions
    (Service.state
       (exec (deleteSession "1700000000000")
             (exec (saveCurrentSession (Some "Trimestre") "1700000000000") withReport))) =
  AppState.savedSessions (Service.state withReport).
Proof.
  refine (proj1 (save_then_delete_restores_the_list withReport (Some "Trimestre")
                   "1700000000000" _)).
  assert (AppState.savedSessions (Service.state withReport) = []) as ->
    by (vm_compute; reflexivity).
  intros x [].
Defined.

(** ** Recording *)

Lemma recording_example :
  AppState.isRecording
    (Service.state (Runtime.service (fst (startRecording None None fresh)))) = true.
Proof.
  refine (proj1 (proj2 (recording_opens_the_session_on_demand fresh _))).
  vm_compute. reflexivity.
Defined.

Lemma refused_microphone_example :
  AppState.isRecording
    (Service.state
       (Runtime.service
          (fst (startRecording None (Some (ErrorObject "Permission denied")) fresh)))) =
  false.
Proof.
  refine (proj1 (proj2 (refused_microphone_leaves_recording_off fresh None
                          (ErrorObject "Permission denied") _))).
  vm_compute. reflexivity.
Defined.

Lemma recording_without_session_example :
  onInputAudio "AAAA" (fst (startRecording (Some (ErrorObject "503")) None fresh)) =
  (fst (startRecording (Some (ErrorObject "503")) None fresh), Ok tt).
Proof.
  refine (proj2 (proj2 (proj2 (proj2 (proj2 (proj2 (proj2
            (recording_goes_on_without_a_session fresh (ErrorObject "503") _ _)))))))
          "AAAA");
    vm_compute; reflexivity.
Defined.
